(** * uveitisDB backend: the storage layer (pkg/storage/sqlite.go)

    A shallow embedding of the dynamic-schema storage engine: value
    coercion, the filter builder, the catalog, table migration, row access
    and the import reconciler, together with the properties of the
    specification that are stated about them.

    Conventions.
    - A Go [string] is a Rocq [string]: a sequence of bytes (UTF-8).
    - Go's [int] and [int64] are [Z]; the places where the 64-bit range
      matters ([strconv.ParseInt], float to integer conversion, the paging
      offset) write the range out.
    - A [float64] is an IEEE-754 binary64 value ([spec_float] at precision
      53, exponent bound 1024).
    - A Go [map] is a [gmap]; a [for ... range] over a map visits its
      entries in an order the language leaves open, which is the [range]
      of the run-time interface [GoLib] below.
    - The receiver [*Storage] is the database state [DB]; a method is a
      function in the monad [M] that threads this state and may fail. *)

From Stdlib Require Import ZArith List String Ascii Bool Lia SpecFloat.
From stdpp Require Import base option list gmap strings pretty sorting.

Open Scope string_scope.
Open Scope list_scope.
Open Scope Z_scope.

(* ================================================================== *)
(** * Go library functions used by the storage layer *)
(* ================================================================== *)

Module GoStrings.

(** [strings.Join] *)
Fixpoint strings_Join (elems : list string) (sep : string) : string :=
  match elems with
  | [] => ""
  | [x] => x
  | x :: rest => x +:+ sep +:+ strings_Join rest sep
  end.

(** [strings.Contains]: [substr] occurs in [s]. *)
Fixpoint strings_Contains (s substr : string) : bool :=
  if String.prefix substr s then true
  else match s with
       | EmptyString => false
       | String _ s' => strings_Contains s' substr
       end.

(** [strings.ReplaceAll s "'" "''"], the only replacement the code makes. *)
Fixpoint doubleQuotes (s : string) : string :=
  match s with
  | EmptyString => EmptyString
  | String c s' =>
      if Ascii.eqb c "'"%char then String c (String c (doubleQuotes s'))
      else String c (doubleQuotes s')
  end.

(** [slices.Contains] on a slice of strings. *)
Definition slices_Contains (s : list string) (v : string) : bool :=
  existsb (String.eqb v) s.

(** ** [strings.TrimSpace]

    Go trims the runes for which [unicode.IsSpace] holds: the six ASCII
    ones, U+0085, U+00A0 and the other White_Space runes U+1680,
    U+2000..U+200A, U+2028, U+2029, U+202F, U+205F, U+3000.  A rune is
    decoded from its shortest UTF-8 form only, so trimming amounts to
    removing the byte sequences below from both ends. *)

Definition byte_is (a : ascii) (n : N) : bool := N.eqb (N_of_ascii a) n.

Definition asciiSpace (a : ascii) : bool :=
  let n := N_of_ascii a in
  (N.leb 9 n && N.leb n 13) || N.eqb n 32.

(** U+0085 = C2 85, U+00A0 = C2 A0 *)
Definition space2 (a b : ascii) : bool :=
  byte_is a 194 && (byte_is b 133 || byte_is b 160).

(** U+1680 = E1 9A 80; U+2000..U+200A = E2 80 80..8A; U+2028 = E2 80 A8;
    U+2029 = E2 80 A9; U+202F = E2 80 AF; U+205F = E2 81 9F;
    U+3000 = E3 80 80 *)
Definition space3 (a b c : ascii) : bool :=
  let n := N_of_ascii c in
  (byte_is a 225 && byte_is b 154 && byte_is c 128)
  || (byte_is a 226 && byte_is b 128
      && ((N.leb 128 n && N.leb n 138) || N.eqb n 168 || N.eqb n 169 || N.eqb n 175))
  || (byte_is a 226 && byte_is b 129 && byte_is c 159)
  || (byte_is a 227 && byte_is b 128 && byte_is c 128).

Fixpoint trimLeft (l : list ascii) : list ascii :=
  match l with
  | [] => []
  | a :: l1 =>
      if asciiSpace a then trimLeft l1
      else match l1 with
           | b :: l2 =>
               if space2 a b then trimLeft l2
               else match l2 with
                    | c :: l3 => if space3 a b c then trimLeft l3 else l
                    | [] => l
                    end
           | [] => l
           end
  end.

(** The same from the end; the argument is the reversed byte sequence. *)
Fixpoint trimLeftRev (l : list ascii) : list ascii :=
  match l with
  | [] => []
  | c :: l1 =>
      if asciiSpace c then trimLeftRev l1
      else match l1 with
           | b :: l2 =>
               if space2 b c then trimLeftRev l2
               else match l2 with
                    | a :: l3 => if space3 a b c then trimLeftRev l3 else l
                    | [] => l
                    end
           | [] => l
           end
  end.

Definition TrimSpace (s : string) : string :=
  string_of_list_ascii
    (rev (trimLeftRev (rev (trimLeft (list_ascii_of_string s))))).

(** ** [strconv.ParseInt s 10 64]

    An optional sign, then one or more of the digits 0..9 (with base 10
    given, an underscore is a syntax error), and the value must fit
    int64.  The caller only tests [err != nil], so the two error kinds
    (syntax, range) are one [None]. *)

Definition digit (a : ascii) : option Z :=
  let n := N_of_ascii a in
  if N.leb 48 n && N.leb n 57 then Some (Z.of_N n - 48) else None.

Fixpoint digits (s : string) (acc : Z) : option Z :=
  match s with
  | EmptyString => Some acc
  | String a s' =>
      match digit a with
      | Some d => digits s' (acc * 10 + d)
      | None => None
      end
  end.

Definition ParseUint (s : string) : option Z :=
  match s with
  | EmptyString => None
  | _ => digits s 0
  end.

Definition ParseInt (s : string) : option Z :=
  match s with
  | EmptyString => None
  | String c rest =>
      let '(neg, body) :=
        if Ascii.eqb c "+"%char then (false, rest)
        else if Ascii.eqb c "-"%char then (true, rest)
        else (false, s) in
      match ParseUint body with
      | None => None
      | Some un =>
          if negb neg && (2 ^ 63 <=? un) then None
          else if neg && (2 ^ 63 <? un) then None
          else Some (if neg then - un else un)
      end
  end.

(** [fmt.Sprint] of an integer ([%d]). *)
Definition itoa (z : Z) : string := pretty z.

End GoStrings.
Export GoStrings.

(** ** float64 *)

Definition float64 : Type := spec_float.

Module Float64.
Definition prec : Z := 53.
Definition emax : Z := 1024.

(** [float64(i)] for an integer [i]: the nearest binary64 value. *)
Definition ofInt (z : Z) : float64 := binary_normalize prec emax z 0 false.

(** [int64(v)] for a float [v]: truncation toward zero.  The language
    leaves the result open when the value does not fit; the number written
    here for that case is the one amd64 produces. *)
Definition toInt64 (v : float64) : Z :=
  match v with
  | S754_zero _ => 0
  | S754_finite s m e =>
      let mag := if 0 <=? e then Z.pos m * 2 ^ e else Z.pos m / 2 ^ (- e) in
      let z := if s then - mag else mag in
      if (- 2 ^ 63 <=? z) && (z <? 2 ^ 63) then z else - 2 ^ 63
  | _ => - 2 ^ 63
  end.

Definition add : float64 → float64 → float64 := SFadd prec emax.
Definition sub : float64 → float64 → float64 := SFsub prec emax.
Definition mul : float64 → float64 → float64 := SFmul prec emax.
Definition div : float64 → float64 → float64 := SFdiv prec emax.
Definition sqrt : float64 → float64 := SFsqrt prec emax.
Definition ltb : float64 → float64 → bool := SFltb.
Definition zero : float64 := S754_zero false.
End Float64.

(** ** The run-time interface

    Library functions whose tables are not part of this repository
    (Unicode case mapping, float parsing and printing), and the visiting
    order of [for ... range] over a map. *)

Class GoLib := {
  (** [strings.ToLower]; it maps rune by rune, so the empty string to itself *)
  ToLower : string → string;
  ToLower_empty : ToLower "" = "";
  (** [strings.EqualFold] *)
  EqualFold : string → string → bool;
  (** [strconv.ParseFloat s 64]; [None] is a non-nil error *)
  ParseFloat : string → option float64;
  (** [fmt.Sprint] of a float64 *)
  FormatFloat : float64 → string;
  (** the entries of a map in the order a [range] loop visits them *)
  range : ∀ {A : Type}, gmap string A → list (string * A);
  range_perm : ∀ (A : Type) (m : gmap string A), range m ≡ₚ map_to_list m
}.

(* ================================================================== *)
(** * Data model *)
(* ================================================================== *)

Record FieldDefinition := {
  Name : string;
  OldName : string;
  Labels : list string;
  TypeHint : string;
  AllowNull : bool;
  Default : string
}.

Record TableSchema := {
  schemaName : string;
  DisplayName : string;
  Description : string;
  Fields : list FieldDefinition
}.

Record QueryOptions := {
  Search : string;
  Filters : gmap string string;
  Page : Z;
  PageSize : Z;
  SortBy : string;
  Desc : bool
}.

(** A value of Go's [any] as the storage layer meets it: decoded JSON
    (nil, float64, string, bool), CSV cells (string), the integer kinds the
    type switch of [convertValue] names, and any other dynamic type, kept
    with the text [fmt.Sprint] gives for it. *)
Inductive any :=
| Nil
| Float64 (v : float64)
| Int (v : Z)
| Int32 (v : Z)
| Int64 (v : Z)
| Str (v : string)
| Bool (v : bool)
| Other (sprint : string).

Inductive error :=
| ErrTableNameRequired                       (* "table name required" *)
| ErrFieldsRequired                          (* "fields required" *)
| ErrUnsupportedType (hint : string)         (* "unsupported type %s" *)
| ErrRequired (field : string)               (* "字段 %s 为必填" *)
| ErrNeedInteger                             (* "需要整数" *)
| ErrNeedNumber                              (* "需要数值" *)
| ErrNeedBool                                (* "需要是/否" *)
| ErrField (field : string) (cause : error)  (* "字段 %s: %w" *)
| ErrHeaderEmpty                             (* "header is empty" *)
| ErrUnknownColumns (columns : list string)  (* UnknownColumnsError *)
| ErrNoField                                 (* "字段不存在" *)
| ErrNotNumeric (column : string)            (* "字段 %s 不是数值类型，无法统计" *)
| ErrEngine (msg : string).                  (* an error of database/sql *)

Inductive result (A : Type) :=
| Ok (a : A)
| Err (e : error).
Arguments Ok {A} a.
Arguments Err {A} e.

(** [boolToInt] *)
Definition boolToInt (b : bool) : Z := if b then 1 else 0.

(** [ternary] *)
Definition ternary (cond : bool) (a b : string) : string :=
  if cond then a else b.

(** [placeholders]: ["?,?,...,?"], [n] marks. *)
Fixpoint placeholders_from (i n : nat) : string :=
  match n with
  | O => ""
  | S n' => (if (0 <? i)%nat then "," else "") +:+ "?" +:+ placeholders_from (S i) n'
  end.

Definition placeholders (n : nat) : string :=
  match n with
  | O => ""
  | _ => placeholders_from 0 n
  end.

(* ================================================================== *)
(** * Value coercion *)
(* ================================================================== *)

Section Coercion.
Context `{G : GoLib}.

(** [mapType]: the physical type of a type hint, [""] when unknown. *)
Definition mapType (hint : string) : string :=
  let h := ToLower hint in
  if slices_Contains ["text"; "string"; "长文本"; "短文本"] h then "TEXT"
  else if slices_Contains ["number"; "decimal"; "数值"; "浮点"] h then "REAL"
  else if slices_Contains ["integer"; "int"; "计数"; "布尔"] h then "INTEGER"
  else if slices_Contains ["boolean"; "bool"; "是/否"] h then "INTEGER"
  else if slices_Contains ["date"; "datetime"; "日期"; "时间"] h then "TEXT"
  else "".

(** [fmt.Sprint val] *)
Definition Sprint (val : any) : string :=
  match val with
  | Nil => "<nil>"
  | Float64 v => FormatFloat v
  | Int v | Int32 v | Int64 v => itoa v
  | Str v => v
  | Bool v => if v then "true" else "false"
  | Other s => s
  end.

(** The last two arms of [convertValue]: a string passes unless blank,
    anything else is printed. *)
Definition convertText (val : any) : result any :=
  match val with
  | Str s => if String.eqb (TrimSpace s) "" then Ok Nil else Ok (Str s)
  | _ => Ok (Str (Sprint val))
  end.

(** [convertValue] *)
Definition convertValue (typeHint : string) (val : any) : result any :=
  match val with
  | Nil => Ok Nil
  | _ =>
      let h := ToLower typeHint in
      if slices_Contains ["integer"; "int"; "计数"; "布尔"] h then
        match val with
        | Float64 v => Ok (Int64 (Float64.toInt64 v))
        | Int _ | Int32 _ | Int64 _ => Ok val
        | Str v =>
            if String.eqb (TrimSpace v) "" then Ok Nil
            else match ParseInt (TrimSpace v) with
                 | Some i => Ok (Int64 i)
                 | None => Err ErrNeedInteger
                 end
        | _ => Err ErrNeedInteger
        end
      else if slices_Contains ["number"; "decimal"; "数值"; "浮点"] h then
        match val with
        | Float64 v => Ok (Float64 v)
        | Int v | Int32 v | Int64 v => Ok (Float64 (Float64.ofInt v))
        | Str v =>
            if String.eqb (TrimSpace v) "" then Ok Nil
            else match ParseFloat (TrimSpace v) with
                 | Some f => Ok (Float64 f)
                 | None => Err ErrNeedNumber
                 end
        | _ => Err ErrNeedNumber
        end
      else if slices_Contains ["boolean"; "bool"] h then
        match val with
        | Bool v => Ok (Bool v)
        | Str v =>
            let t := ToLower (TrimSpace v) in
            if String.eqb t "" then Ok Nil
            else if slices_Contains ["true"; "1"; "是"; "yes"] t then Ok (Bool true)
            else if slices_Contains ["false"; "0"; "否"; "no"] t then Ok (Bool false)
            else Err ErrNeedBool
        | _ => Err ErrNeedBool
        end
      else if slices_Contains ["date"; "datetime"; "日期"; "时间"] h then
        convertText val
      else
        convertText val
  end.

End Coercion.

(* ================================================================== *)
(** * The backing engine

    The storage layer talks to an embedded SQL engine through statement
    text.  The model keeps, for every statement the code issues, its text
    (as the code formats it) and its effect on the tables.  Identifiers are
    interpolated into the text without quoting, so the model is about
    names that are valid unquoted identifiers.  Failures of the medium
    (disk, lock time-outs) are outside the model; the failures inside it
    are the ones the engine reports for the statement itself. *)
(* ================================================================== *)

(** A stored value: the storage classes the code can produce. *)
Inductive sqlval :=
| SNull
| SInt (z : Z)
| SReal (f : float64)
| SText (s : string).

(** Operations of the engine on values that this repository does not
    define: how a REAL prints, which texts are numbers, pattern matching
    and the sort order. *)
Class SqlEngine := {
  (** the text of a REAL value *)
  real_text : float64 → string;
  (** the number a text converts to under a numeric affinity, if any *)
  text_numeric : string → option sqlval;
  (** the integer a REAL converts to under a numeric affinity, if any *)
  real_integer : float64 → option Z;
  (** [value LIKE pattern] *)
  sql_like : sqlval → string → bool;
  (** the order of ORDER BY ... ASC *)
  sql_le : sqlval → sqlval → bool
}.

Inductive affinity := AffText | AffNumeric | AffInteger | AffReal | AffBlob.

(** The affinity of a declared column type (the code writes the type names
    in upper case). *)
Definition affinity_of (decl : string) : affinity :=
  if strings_Contains decl "INT" then AffInteger
  else if strings_Contains decl "CHAR" || strings_Contains decl "CLOB"
          || strings_Contains decl "TEXT" then AffText
  else if strings_Contains decl "BLOB" || String.eqb decl "" then AffBlob
  else if strings_Contains decl "REAL" || strings_Contains decl "FLOA"
          || strings_Contains decl "DOUB" then AffReal
  else AffNumeric.

Section Affinity.
Context `{E : SqlEngine}.

Definition to_numeric (v : sqlval) : sqlval :=
  match v with
  | SText s => default v (text_numeric s)
  | SReal f => match real_integer f with Some z => SInt z | None => v end
  | _ => v
  end.

(** The conversion a column applies to a value stored into it. *)
Definition apply_affinity (a : affinity) (v : sqlval) : sqlval :=
  match a with
  | AffText =>
      match v with
      | SInt z => SText (itoa z)
      | SReal f => SText (real_text f)
      | _ => v
      end
  | AffNumeric | AffInteger => to_numeric v
  | AffReal =>
      match to_numeric v with
      | SInt z => SReal (Float64.ofInt z)
      | w => w
      end
  | AffBlob => v
  end.
End Affinity.

Inductive ColDefault :=
| NoDefault
| DefaultText (s : string)     (* DEFAULT '...' *)
| DefaultNow.                  (* DEFAULT CURRENT_TIMESTAMP *)

Record Column := {
  col_name : string;
  col_type : string;            (* the declared type, as written *)
  col_rowid : bool;             (* PRIMARY KEY AUTOINCREMENT *)
  col_notnull : bool;
  col_default : ColDefault
}.

(** A row maps the column names of its table to values. *)
Abbreviation Row := (gmap string sqlval).

Definition cell (r : Row) (c : string) : sqlval := default SNull (r !! c).

Record Table := {
  t_columns : list Column;
  t_rows : list Row;
  t_seq : Z                     (* largest key the table ever assigned *)
}.

(** A row of [column_meta].  [labels] holds a JSON array; the model keeps
    the decoded list ([json.Marshal] then [json.Unmarshal] of a list of
    strings gives it back). *)
Record ColumnMeta := {
  cm_table : string;
  cm_column : string;
  cm_labels : list string;
  cm_type_hint : string;
  cm_allow_null : bool;
  cm_order : Z
}.

Record DB := {
  tables : gmap string Table;
  table_meta : gmap string (string * string);  (* name -> display, description *)
  column_meta : list ColumnMeta;
  clock : string;               (* CURRENT_TIMESTAMP *)
  trace : list string           (* the statements issued so far, oldest first *)
}.

Definition with_tables (db : DB) (ts : gmap string Table) : DB :=
  {| tables := ts; table_meta := table_meta db; column_meta := column_meta db;
     clock := clock db; trace := trace db |}.

Definition with_table_meta (db : DB) (tm : gmap string (string * string)) : DB :=
  {| tables := tables db; table_meta := tm; column_meta := column_meta db;
     clock := clock db; trace := trace db |}.

Definition with_column_meta (db : DB) (cm : list ColumnMeta) : DB :=
  {| tables := tables db; table_meta := table_meta db; column_meta := cm;
     clock := clock db; trace := trace db |}.

Definition with_trace (db : DB) (tr : list string) : DB :=
  {| tables := tables db; table_meta := table_meta db; column_meta := column_meta db;
     clock := clock db; trace := tr |}.

Definition logged (sql : string) (db : DB) : DB := with_trace db (trace db ++ [sql]).

(** ** The monad of storage operations *)

Definition M (A : Type) : Type := DB → DB * result A.

Definition ret {A} (a : A) : M A := λ db, (db, Ok a).
Definition fail {A} (e : error) : M A := λ db, (db, Err e).
Definition bind {A B} (m : M A) (k : A → M B) : M B :=
  λ db, match m db with
        | (db', Ok a) => k a db'
        | (db', Err e) => (db', Err e)
        end.

Notation "'let*' x ':=' m 'in' k" := (bind m (λ x, k))
  (at level 10, x pattern, m at level 100, k at level 200).
Notation "m ';;' k" := (bind m (λ _, k))
  (at level 100, k at level 200, right associativity).

(** [BeginTx] ... [Commit], with [Rollback] on the error paths: a failed
    body leaves the data as it was when the transaction began.  The trace
    is a record of what was sent and is not rolled back. *)
Definition transaction {A} (body : M A) : M A :=
  λ db, match body db with
        | (db', Ok a) => (db', Ok a)
        | (db', Err e) => (with_trace db (trace db'), Err e)
        end.

(** ** Statements: text and effect *)

Definition columnSQL (c : Column) : string :=
  col_name c +:+ " " +:+ col_type c
  +:+ (if col_rowid c then " PRIMARY KEY AUTOINCREMENT" else "")
  +:+ (if col_notnull c then " NOT NULL" else "")
  +:+ match col_default c with
      | NoDefault => ""
      | DefaultText s => " DEFAULT '" +:+ doubleQuotes s +:+ "'"
      | DefaultNow => " DEFAULT CURRENT_TIMESTAMP"
      end.

Inductive stmt :=
| CreateTableStmt (ifNotExists : bool) (name : string) (cols : list Column)
| AlterAddColumn (table : string) (col : Column)
| InsertSelect (dst : string) (cols : list string) (src : string)
| DropTableStmt (name : string)
| RenameTable (old new : string)
| InsertInto (table : string) (keys : list string) (vals : list any)
| DeleteIn (table : string) (ids : list Z)
| UpsertTableMeta (name display description : string)
| DeleteColumnMeta (table : string)
| InsertColumnMeta (row : ColumnMeta)
| DeleteColumnMetaIn (table : string) (columns : list string).

Definition sqlText (s : stmt) : string :=
  match s with
  | CreateTableStmt ifne name cols =>
      (if ifne then "CREATE TABLE IF NOT EXISTS " else "CREATE TABLE ")
      +:+ name +:+ " (" +:+ strings_Join (map columnSQL cols) "," +:+ ");"
  | AlterAddColumn table col =>
      "ALTER TABLE " +:+ table +:+ " ADD COLUMN " +:+ columnSQL col
  | InsertSelect dst cols src =>
      "INSERT INTO " +:+ dst +:+ " (" +:+ strings_Join cols "," +:+ ") SELECT "
      +:+ strings_Join cols "," +:+ " FROM " +:+ src +:+ ";"
  | DropTableStmt name => "DROP TABLE " +:+ name
  | RenameTable old new => "ALTER TABLE " +:+ old +:+ " RENAME TO " +:+ new
  | InsertInto table keys vals =>
      "INSERT INTO " +:+ table +:+ " (" +:+ strings_Join keys "," +:+ ") VALUES ("
      +:+ placeholders (length keys) +:+ ")"
  | DeleteIn table ids =>
      "DELETE FROM " +:+ table +:+ " WHERE id IN (" +:+ placeholders (length ids) +:+ ")"
  | UpsertTableMeta _ _ _ =>
      "INSERT INTO table_meta(table_name, display_name, description) VALUES(?,?,?) ON CONFLICT(table_name) DO UPDATE SET display_name=excluded.display_name, description=excluded.description"
  | DeleteColumnMeta _ => "DELETE FROM column_meta WHERE table_name=?"
  | InsertColumnMeta _ =>
      "INSERT INTO column_meta(table_name, column_name, labels, type_hint, allow_null, display_order) VALUES(?,?,?,?,?,?)"
  | DeleteColumnMetaIn _ columns =>
      "DELETE FROM column_meta WHERE table_name=? AND column_name IN ("
      +:+ placeholders (length columns) +:+ ")"
  end.

Section Engine.
Context `{E : SqlEngine}.

Definition column_names (t : Table) : list string := map col_name (t_columns t).

Definition default_value (now : string) (c : Column) : sqlval :=
  match col_default c with
  | NoDefault => SNull
  | DefaultText s => apply_affinity (affinity_of (col_type c)) (SText s)
  | DefaultNow => SText now
  end.

Definition is_null (v : sqlval) : bool :=
  match v with SNull => true | _ => false end.

Definition row_id (r : Row) : Z :=
  match r !! "id" with Some (SInt z) => z | _ => 0 end.

Definition max_id (rows : list Row) : Z :=
  foldr (λ r m, Z.max (row_id r) m) 0 rows.

(** The value a new row gets in column [c], given the values supplied. *)
Definition stored_value (now : string) (t : Table) (given : Row) (c : Column)
  : result sqlval :=
  if col_rowid c then
    match given !! col_name c with
    | None | Some SNull => Ok (SInt (Z.max (t_seq t) (max_id (t_rows t)) + 1))
    | Some v =>
        match to_numeric v with
        | SInt z =>
            if existsb (λ r, row_id r =? z) (t_rows t)
            then Err (ErrEngine "UNIQUE constraint failed")
            else Ok (SInt z)
        | _ => Err (ErrEngine "datatype mismatch")
        end
    end
  else
    let v := match given !! col_name c with
             | Some v => apply_affinity (affinity_of (col_type c)) v
             | None => default_value now c
             end in
    if col_notnull c && is_null v
    then Err (ErrEngine "NOT NULL constraint failed")
    else Ok v.

Fixpoint build_row (now : string) (t : Table) (given : Row) (cs : list Column)
  : result Row :=
  match cs with
  | [] => Ok ∅
  | c :: cs' =>
      match stored_value now t given c with
      | Err e => Err e
      | Ok v =>
          match build_row now t given cs' with
          | Err e => Err e
          | Ok r => Ok (<[col_name c := v]> r)
          end
      end
  end.

(** One INSERT into [t]: the new table and the key of the new row. *)
Definition insert_one (now : string) (t : Table) (given : Row) : result (Table * Z) :=
  match build_row now t given (t_columns t) with
  | Err e => Err e
  | Ok r =>
      let id := if existsb col_rowid (t_columns t) then row_id r
                else Z.max (t_seq t) (max_id (t_rows t)) + 1 in
      Ok ({| t_columns := t_columns t; t_rows := t_rows t ++ [r];
             t_seq := Z.max (t_seq t) id |}, id)
  end.

Fixpoint insert_all (now : string) (t : Table) (givens : list Row) : result Table :=
  match givens with
  | [] => Ok t
  | g :: gs =>
      match insert_one now t g with
      | Err e => Err e
      | Ok (t', _) => insert_all now t' gs
      end
  end.

(** What the driver binds for a Go value. *)
Definition bind_value (v : any) : result sqlval :=
  match v with
  | Nil => Ok SNull
  | Float64 f => Ok (SReal f)
  | Int z | Int32 z | Int64 z => Ok (SInt z)
  | Str s => Ok (SText s)
  | Bool b => Ok (SInt (boolToInt b))
  | Other _ => Err (ErrEngine "unsupported type")
  end.

Fixpoint bind_values (vs : list any) : result (list sqlval) :=
  match vs with
  | [] => Ok []
  | v :: vs' =>
      match bind_value v, bind_values vs' with
      | Ok s, Ok ss => Ok (s :: ss)
      | Err e, _ | _, Err e => Err e
      end
  end.

Definition no_such_table : error := ErrEngine "no such table".

(** The effect of a statement: the new data and the last inserted key. *)
Definition run (s : stmt) (db : DB) : result (DB * Z) :=
  match s with
  | CreateTableStmt ifne name cols =>
      match tables db !! name with
      | Some _ =>
          if ifne then Ok (db, 0) else Err (ErrEngine "table already exists")
      | None =>
          if bool_decide (NoDup (map col_name cols))
          then Ok (with_tables db
                     (<[name := {| t_columns := cols; t_rows := []; t_seq := 0 |}]>
                        (tables db)), 0)
          else Err (ErrEngine "duplicate column name")
      end
  | AlterAddColumn table col =>
      match tables db !! table with
      | None => Err no_such_table
      | Some t =>
          if slices_Contains (column_names t) (col_name col)
          then Err (ErrEngine "duplicate column name")
          else if col_notnull col && is_null (default_value (clock db) col)
          then Err (ErrEngine "Cannot add a NOT NULL column with default value NULL")
          else
            let v := default_value (clock db) col in
            Ok (with_tables db
                  (<[table := {| t_columns := t_columns t ++ [col];
                                 t_rows := map (insert (col_name col) v) (t_rows t);
                                 t_seq := t_seq t |}]> (tables db)), 0)
      end
  | InsertSelect dst cols src =>
      match tables db !! src, tables db !! dst with
      | Some ts, Some td =>
          if forallb (slices_Contains (column_names ts)) cols
             && forallb (slices_Contains (column_names td)) cols
          then
            let given (r : Row) : Row :=
              list_to_map (map (λ c, (c, cell r c)) cols) in
            match insert_all (clock db) td (map given (t_rows ts)) with
            | Err e => Err e
            | Ok td' => Ok (with_tables db (<[dst := td']> (tables db)), 0)
            end
          else Err (ErrEngine "no such column")
      | _, _ => Err no_such_table
      end
  | DropTableStmt name =>
      match tables db !! name with
      | None => Err no_such_table
      | Some _ => Ok (with_tables db (delete name (tables db)), 0)
      end
  | RenameTable old new =>
      match tables db !! old, tables db !! new with
      | Some t, None =>
          Ok (with_tables db (<[new := t]> (delete old (tables db))), 0)
      | None, _ => Err no_such_table
      | Some _, Some _ => Err (ErrEngine "there is already another table with this name")
      end
  | InsertInto table keys vals =>
      match keys, tables db !! table, bind_values vals with
      | [], _, _ => Err (ErrEngine "syntax error")
      | _, None, _ => Err no_such_table
      | _, _, Err e => Err e
      | _, Some t, Ok svals =>
          if forallb (slices_Contains (column_names t)) keys
          then match insert_one (clock db) t (list_to_map (zip keys svals)) with
               | Err e => Err e
               | Ok (t', id) => Ok (with_tables db (<[table := t']> (tables db)), id)
               end
          else Err (ErrEngine "no such column")
      end
  | DeleteIn table ids =>
      match tables db !! table with
      | None => Err no_such_table
      | Some t =>
          Ok (with_tables db
                (<[table := {| t_columns := t_columns t;
                               t_rows := filter (λ r, row_id r ∉ ids) (t_rows t);
                               t_seq := t_seq t |}]> (tables db)), 0)
      end
  | UpsertTableMeta name display description =>
      Ok (with_table_meta db (<[name := (display, description)]> (table_meta db)), 0)
  | DeleteColumnMeta table =>
      Ok (with_column_meta db
            (filter (λ m, cm_table m ≠ table) (column_meta db)), 0)
  | InsertColumnMeta row =>
      Ok (with_column_meta db (column_meta db ++ [row]), 0)
  | DeleteColumnMetaIn table columns =>
      Ok (with_column_meta db
            (filter (λ m, ¬ (cm_table m = table ∧ cm_column m ∈ columns))
               (column_meta db)), 0)
  end.

(** [db.ExecContext] / [tx.Exec]: send the statement; its effect takes
    place unless the engine rejects it.  The value is [LastInsertId]. *)
Definition Exec (s : stmt) : M Z :=
  λ db, let db1 := logged (sqlText s) db in
        match run s db1 with
        | Ok (db2, id) => (db2, Ok id)
        | Err e => (db1, Err e)
        end.

(** [db.QueryContext]: send a read-only statement and read its rows. *)
Definition Query_ {A} (sql : string) (read : DB → result A) : M A :=
  λ db, let db1 := logged sql db in (db1, read db1).

End Engine.

(* ================================================================== *)
(** * Query/Filter builder *)
(* ================================================================== *)

(** The condition the text of [buildFilters] denotes once its parameters
    are bound: a conjunction of [AnyOf] (the search group, written in
    parentheses) and [One] (a filter).  An atom is a column and the
    pattern bound to its [?]. *)
Inductive cond :=
| AnyOf (atoms : list (string * string))
| One (atom : string * string).

Definition likeSQL (col : string) : string := col +:+ " LIKE ?".

Definition pattern (v : string) : string := "%" +:+ v +:+ "%".

Definition cond_text (c : cond) : string :=
  match c with
  | AnyOf atoms => "(" +:+ strings_Join (map (λ a, likeSQL a.1) atoms) " OR " +:+ ")"
  | One a => likeSQL a.1
  end.

Definition cond_atoms (c : cond) : list (string * string) :=
  match c with
  | AnyOf atoms => atoms
  | One a => [a]
  end.

Definition clauses_text (clauses : list string) : string :=
  match clauses with
  | [] => ""
  | _ => "WHERE " +:+ strings_Join clauses " AND "
  end.

Definition where_text (w : list cond) : string := clauses_text (map cond_text w).

Definition where_columns (w : list cond) : list string :=
  concat (map (λ c, (cond_atoms c).*1) w).

Definition where_params (w : list cond) : list any :=
  concat (map (λ c, map Str (cond_atoms c).*2) w).

Section Filters.
Context `{G : GoLib}.

(** The loop of [buildFilters] over the filter entries, in the order the
    [range] visits them. *)
Fixpoint filterClauses (entries : list (string * string)) (columns : list string)
  : list string * list any :=
  match entries with
  | [] => ([], [])
  | (k, v) :: rest =>
      let '(clauses, params) := filterClauses rest columns in
      if negb (slices_Contains columns k) then (clauses, params)
      else (likeSQL k :: clauses, Str (pattern v) :: params)
  end.

(** [buildFilters] *)
Definition buildFilters (opts : QueryOptions) (columns : list string)
  : string * list any :=
  let '(clauses, params) :=
    if negb (String.eqb (Search opts) "") then
      let parts := map likeSQL columns in
      let params := map (λ _, Str (pattern (Search opts))) columns in
      (if (0 <? length parts)%nat
       then ["(" +:+ strings_Join parts " OR " +:+ ")"] else [],
       params)
    else ([], []) in
  let '(fclauses, fparams) := filterClauses (range (Filters opts)) columns in
  let clauses := clauses ++ fclauses in
  let params := params ++ fparams in
  if (length clauses =? 0)%nat then ("", [])
  else ("WHERE " +:+ strings_Join clauses " AND ", params).

(** The same loop, producing the condition instead of its text. *)
Definition buildWhere (opts : QueryOptions) (columns : list string) : list cond :=
  (if negb (String.eqb (Search opts) "") && (0 <? length columns)%nat
   then [AnyOf (map (λ c, (c, pattern (Search opts))) columns)] else [])
  ++ map (λ e, One (e.1, pattern e.2))
       (filter (λ e, slices_Contains columns e.1 = true) (range (Filters opts))).

(** The text of the clause as a function of what it may depend on:
    whether there is a search term, the filter keys, the columns. *)
Definition clause_text (searching : bool) (keys columns : list string) : string :=
  where_text
    ((if searching && (0 <? length columns)%nat
      then [AnyOf (map (λ c, (c, "")) columns)] else [])
     ++ map (λ k, One (k, ""))
          (filter (λ k, slices_Contains columns k = true) keys)).

End Filters.

(* ================================================================== *)
(** * The storage operations *)
(* ================================================================== *)

(** A stable insertion sort, for ORDER BY. *)
Fixpoint insert_by {A} (le : A → A → bool) (x : A) (l : list A) : list A :=
  match l with
  | [] => [x]
  | y :: l' => if le x y then x :: l else y :: insert_by le x l'
  end.

Definition sort_by {A} (le : A → A → bool) (l : list A) : list A :=
  foldr (insert_by le) [] l.

(** Go's [int] arithmetic on a 64-bit platform. *)
Definition wrap64 (z : Z) : Z := (z + 2 ^ 63) mod 2 ^ 64 - 2 ^ 63.

Section Storage.
Context `{G : GoLib} `{E : SqlEngine}.

(** ** Schema metadata store *)

Definition metaRow (table : string) (f : FieldDefinition) (order : Z) : ColumnMeta :=
  {| cm_table := table; cm_column := Name f; cm_labels := Labels f;
     cm_type_hint := TypeHint f; cm_allow_null := AllowNull f; cm_order := order |}.

Fixpoint insertMeta (table : string) (fields : list FieldDefinition) (order : Z)
  : M unit :=
  match fields with
  | [] => ret tt
  | f :: rest =>
      Exec (InsertColumnMeta (metaRow table f order)) ;;
      insertMeta table rest (order + 1)
  end.

(** [upsertMeta] *)
Definition upsertMeta (schema : TableSchema) : M unit :=
  transaction
    (Exec (UpsertTableMeta (schemaName schema) (DisplayName schema) (Description schema)) ;;
     Exec (DeleteColumnMeta (schemaName schema)) ;;
     insertMeta (schemaName schema) (Fields schema) 0).

Definition metaField (m : ColumnMeta) : FieldDefinition :=
  {| Name := cm_column m; OldName := ""; Labels := cm_labels m;
     TypeHint := cm_type_hint m; AllowNull := cm_allow_null m; Default := "" |}.

Definition meta_of (table : string) (db : DB) : list ColumnMeta :=
  filter (λ m, cm_table m = table) (column_meta db).

(** The catalogued fields of a table in display order. *)
Definition catalogFields (table : string) (db : DB) : list FieldDefinition :=
  map metaField (sort_by (λ a b, cm_order a <=? cm_order b) (meta_of table db)).

Definition listColumnsSQL : string :=
  "SELECT column_name, labels, type_hint, allow_null FROM column_meta WHERE table_name=? ORDER BY display_order".

(** [listColumns] *)
Definition listColumns (table : string) : M (list FieldDefinition) :=
  Query_ listColumnsSQL (λ db, Ok (catalogFields table db)).

(** The labels of every catalogued column of a table. *)
Definition catalogLabels (table : string) (db : DB) : gmap string (list string) :=
  foldl (λ res m, <[cm_column m := cm_labels m]> res) ∅ (meta_of table db).

Definition columnMetaSQL : string :=
  "SELECT column_name, labels FROM column_meta WHERE table_name=?".

(** [columnMeta] *)
Definition columnMeta (table : string) : M (gmap string (list string)) :=
  Query_ columnMetaSQL (λ db, Ok (catalogLabels table db)).

Definition housekeeping (name : string) : bool :=
  String.eqb name "id" || String.eqb name "created_at" || String.eqb name "updated_at".

(** What [PRAGMA table_info] lists: the columns of the table, none for a
    table that does not exist. *)
Definition tableInfo (table : string) (db : DB) : list string :=
  match tables db !! table with
  | Some t => column_names t
  | None => []
  end.

Definition tableInfoSQL (table : string) : string :=
  "PRAGMA table_info(" +:+ table +:+ ")".

(** The physical columns of a table without the housekeeping ones. *)
Definition physicalColumns (table : string) (db : DB) : list string :=
  filter (λ name, housekeeping name = false) (tableInfo table db).

(** [tableColumns] *)
Definition tableColumns (table : string) : M (list string) :=
  let* names := Query_ (tableInfoSQL table) (λ db, Ok (tableInfo table db)) in
  ret (filter (λ name, housekeeping name = false) names).

(** ** Table migration engine *)

Definition idColumn : Column :=
  {| col_name := "id"; col_type := "INTEGER"; col_rowid := true;
     col_notnull := false; col_default := NoDefault |}.

Definition stampColumn (name : string) (dflt : ColDefault) : Column :=
  {| col_name := name; col_type := "DATETIME"; col_rowid := false;
     col_notnull := false; col_default := dflt |}.

(** The column clause [CreateTable] and [AddColumns] write for a field. *)
Definition fieldColumn (f : FieldDefinition) (sqlType : string) : Column :=
  {| col_name := Name f; col_type := sqlType; col_rowid := false;
     col_notnull := negb (AllowNull f);
     col_default := if String.eqb (Default f) "" then NoDefault
                    else DefaultText (Default f) |}.

(** The loop of [CreateTable] over the fields; it returns at the first
    hint [mapType] does not know. *)
Fixpoint createColumns (fields : list FieldDefinition) : result (list Column) :=
  match fields with
  | [] => Ok []
  | f :: rest =>
      let sqlType := mapType (TypeHint f) in
      if String.eqb sqlType "" then Err (ErrUnsupportedType (TypeHint f))
      else match createColumns rest with
           | Err e => Err e
           | Ok cols => Ok (fieldColumn f sqlType :: cols)
           end
  end.

(** [CreateTable] *)
Definition CreateTable (schema : TableSchema) : M unit :=
  if String.eqb (schemaName schema) "" then fail ErrTableNameRequired
  else if (length (Fields schema) =? 0)%nat then fail ErrFieldsRequired
  else
    match createColumns (Fields schema) with
    | Err e => fail e
    | Ok cols =>
        let columns := [idColumn] ++ cols
                       ++ [stampColumn "created_at" DefaultNow;
                           stampColumn "updated_at" DefaultNow] in
        Exec (CreateTableStmt true (schemaName schema) columns) ;;
        upsertMeta schema
    end.

Fixpoint alterColumns (table : string) (fields : list FieldDefinition) : M unit :=
  match fields with
  | [] => ret tt
  | f :: rest =>
      let sqlType := mapType (TypeHint f) in
      Exec (AlterAddColumn table (fieldColumn f sqlType)) ;;
      alterColumns table rest
  end.

Definition max_order (ms : list ColumnMeta) : Z :=
  match ms with
  | [] => 0
  | m :: ms' => foldr (λ x acc, Z.max (cm_order x) acc) (cm_order m) ms'
  end.

(** [AddColumns] *)
Definition AddColumns (table : string) (fields : list FieldDefinition) : M unit :=
  alterColumns table fields ;;
  let* order := Query_ "SELECT COALESCE(MAX(display_order),0) FROM column_meta WHERE table_name=?"
                  (λ db, Ok (max_order (meta_of table db))) in
  transaction (insertMeta table fields (order + 1)).

(** The column clause [DropColumns] writes for a surviving column. *)
Definition textColumn (c : string) : Column :=
  {| col_name := c; col_type := "TEXT"; col_rowid := false;
     col_notnull := false; col_default := NoDefault |}.

(** The columns of the table [DropColumns] rebuilds. *)
Definition rebuildColumns (keep : list string) : list Column :=
  [idColumn] ++ map textColumn keep
  ++ [stampColumn "created_at" NoDefault; stampColumn "updated_at" NoDefault].

(** [DropColumns]; [now] is the reading of [time.Now().Unix()]. *)
Definition DropColumns (now : Z) (table : string) (columns : list string) : M unit :=
  if (length columns =? 0)%nat then ret tt
  else
    let* current := tableColumns table in
    let keep := filter (λ c, slices_Contains columns c = false) current in
    if (length keep =? length current)%nat then ret tt
    else
      let tmp := table +:+ "_tmp_" +:+ itoa now in
      let colDDL := rebuildColumns keep in
      transaction
        (Exec (CreateTableStmt false tmp colDDL) ;;
         let copyCols := (["id"] ++ keep) ++ ["created_at"; "updated_at"] in
         Exec (InsertSelect tmp copyCols table) ;;
         Exec (DropTableStmt table) ;;
         Exec (RenameTable tmp table) ;;
         ret tt) ;;
      Exec (DeleteColumnMetaIn table columns) ;;
      ret tt.

(** ** Row access engine *)

(** The loop of [prepareDataWithMeta] over the catalogued columns, in the
    order the [range] visits them. *)
Fixpoint prepareLoop (data : gmap string any)
    (entries : list (string * FieldDefinition)) (isInsert : bool)
    (acc : gmap string any) : result (gmap string any) :=
  match entries with
  | [] => Ok acc
  | (name, def) :: rest =>
      match data !! name with
      | None =>
          if isInsert && negb (AllowNull def) then Err (ErrRequired name)
          else prepareLoop data rest isInsert acc
      | Some val =>
          match convertValue (TypeHint def) val with
          | Err e => Err (ErrField name e)
          | Ok Nil =>
              if negb (AllowNull def) then Err (ErrRequired name)
              else prepareLoop data rest isInsert acc
          | Ok converted =>
              prepareLoop data rest isInsert (<[name := converted]> acc)
          end
      end
  end.

(** [prepareDataWithMeta] *)
Definition prepareDataWithMeta (data : gmap string any)
    (meta : gmap string FieldDefinition) (isInsert : bool)
  : result (gmap string any) :=
  prepareLoop data (range meta) isInsert ∅.

Definition metaMapOf (metaDefs : list FieldDefinition) : gmap string FieldDefinition :=
  foldl (λ m f, <[Name f := f]> m) ∅ metaDefs.

(** [prepareData] *)
Definition prepareData (table : string) (data : gmap string any) (isInsert : bool)
  : M (gmap string any) :=
  let* metaDefs := listColumns table in
  match prepareDataWithMeta data (metaMapOf metaDefs) isInsert with
  | Ok clean => ret clean
  | Err e => fail e
  end.

Definition stripKeys (data : gmap string any) : gmap string any :=
  delete "updated_at" (delete "created_at" (delete "id" data)).

(** [InsertRow] *)
Definition InsertRow (table : string) (data : gmap string any) : M Z :=
  let data := stripKeys data in
  let* clean := prepareData table data true in
  let kv := range clean in
  Exec (InsertInto table kv.*1 kv.*2).

(** [DeleteRows] *)
Definition DeleteRows (table : string) (ids : list Z) : M unit :=
  if (length ids =? 0)%nat then ret tt
  else Exec (DeleteIn table ids) ;; ret tt.

(** The rows a condition selects. *)
Definition holds (w : list cond) (r : Row) : bool :=
  forallb (λ c, existsb (λ a, sql_like (cell r a.1) a.2) (cond_atoms c)) w.

Definition selected (w : list cond) (t : Table) : list Row :=
  filter (λ r, holds w r = true) (t_rows t).

(** ORDER BY [col] ASC or DESC *)
Definition ordered (col : string) (desc : bool) (rows : list Row) : list Row :=
  sort_by (λ a b, if desc then sql_le (cell b col) (cell a col)
                  else sql_le (cell a col) (cell b col)) rows.

(** LIMIT [limit] OFFSET [offset]; a negative offset counts as none. *)
Definition paged (limit offset : Z) (rows : list Row) : list Row :=
  take (Z.to_nat limit) (drop (Z.to_nat offset) rows).

(** The ORDER BY of [Query]: its text, the column and the direction. *)
Definition orderOf (opts : QueryOptions) (columns : list string)
  : string * string * bool :=
  if negb (String.eqb (SortBy opts) "") && slices_Contains columns (SortBy opts)
  then ("ORDER BY " +:+ SortBy opts +:+ " " +:+ ternary (Desc opts) "DESC" "ASC",
        SortBy opts, Desc opts)
  else ("ORDER BY id DESC", "id", true).

(** The page and page size [Query] works with. *)
Definition pageOf (opts : QueryOptions) : Z :=
  if Page opts <? 1 then 1 else Page opts.

Definition pageSizeOf (opts : QueryOptions) : Z :=
  if PageSize opts <=? 0 then 20 else PageSize opts.

Definition stripStamps (r : Row) : Row :=
  delete "updated_at" (delete "created_at" r).

(** [Query] *)
Definition Query (table : string) (opts : QueryOptions)
  : M (list Row * Z) :=
  let page := pageOf opts in
  let pageSize := pageSizeOf opts in
  let* columns := tableColumns table in
  let '(where_, params) := buildFilters opts columns in
  let w := buildWhere opts columns in
  let totalSQL := "SELECT COUNT(1) FROM " +:+ table +:+ " " +:+ where_ in
  let* total := Query_ totalSQL
                  (λ db, match tables db !! table with
                         | None => Err no_such_table
                         | Some t => Ok (Z.of_nat (length (selected w t)))
                         end) in
  let offset := wrap64 ((page - 1) * pageSize) in
  let '(order, sortCol, sortDesc) := orderOf opts columns in
  let querySQL := "SELECT * FROM " +:+ table +:+ " " +:+ where_ +:+ " " +:+ order
                  +:+ " LIMIT " +:+ itoa pageSize +:+ " OFFSET " +:+ itoa offset in
  let* rows := Query_ querySQL
                 (λ db, match tables db !! table with
                        | None => Err no_such_table
                        | Some t =>
                            Ok (paged pageSize offset
                                  (ordered sortCol sortDesc (selected w t)))
                        end) in
  ret (map stripStamps rows, total).

(** ** Import reconciler *)

(** [resolveColumn] *)
Definition resolveColumn (header : string) (fields : list string)
    (meta : gmap string (list string)) : string :=
  let h := TrimSpace header in
  let lower := ToLower h in
  match find (λ f, EqualFold f h) fields with
  | Some f => f
  | None =>
      match find (λ e : string * list string,
                    existsb (λ label, String.eqb (ToLower label) lower) e.2)
              (range meta) with
      | Some (col, _) => col
      | None => ""
      end
  end.

(** The alias table of [buildImportContext]: keys trimmed and lowered,
    targets trimmed. *)
Definition aliasMapOf (aliases : gmap string string) : gmap string string :=
  foldl (λ m e, <[ToLower (TrimSpace e.1) := TrimSpace e.2]> m) ∅ (range aliases).

(** The loop of [buildImportContext] over the header: the column of each
    position ([""] for none) and the headers that found none. *)
Fixpoint resolveHeader (header : list string) (aliasMap : gmap string string)
    (schemaFields : list string) (meta : gmap string (list string))
    (allowUnknown : bool) : list string * list string :=
  match header with
  | [] => ([], [])
  | h0 :: rest =>
      let '(mapping, unknown) :=
        resolveHeader rest aliasMap schemaFields meta allowUnknown in
      let h := TrimSpace h0 in
      let lower := ToLower h in
      match aliasMap !! lower with
      | Some v => (v :: mapping, unknown)
      | None =>
          let col := resolveColumn h schemaFields meta in
          if String.eqb col "" then
            if allowUnknown then (col :: mapping, unknown)
            else (col :: mapping, h :: unknown)
          else (col :: mapping, unknown)
      end
  end.

(** [buildImportContext] *)
Definition buildImportContext (table : string) (header : list string)
    (aliases : gmap string string) (allowUnknown : bool)
  : M (list string * gmap string FieldDefinition) :=
  if (length header =? 0)%nat then fail ErrHeaderEmpty
  else
    let* schemaFields := tableColumns table in
    let* metaDefs := listColumns table in
    let metaMap := metaMapOf metaDefs in
    let* meta := columnMeta table in
    let aliasMap := aliasMapOf aliases in
    let '(mapping, unknown) :=
      resolveHeader header aliasMap schemaFields meta allowUnknown in
    if (0 <? length unknown)%nat then fail (ErrUnknownColumns unknown)
    else ret (mapping, metaMap).

(** The field map [importRecord] builds from one record: position by
    position, up to the shorter of mapping and record, skipping the
    positions without a column. *)
Definition recordRow (mapping record : list string) : gmap string any :=
  foldl (λ row e, if String.eqb e.1 "" then row else <[e.1 := Str e.2]> row)
    ∅ (zip mapping record).

(** [importRecord] *)
Definition importRecord (table : string) (mapping : list string)
    (metaMap : gmap string FieldDefinition) (record : list string) : M unit :=
  match prepareDataWithMeta (recordRow mapping record) metaMap true with
  | Err e => fail e
  | Ok clean => InsertRow table clean ;; ret tt
  end.

(** [isEmptyRow] *)
Definition isEmptyRow (cells : list string) : bool :=
  forallb (λ c, String.eqb (TrimSpace c) "") cells.

(** The loop of [ImportCSV] and [ImportExcel] over the data records: the
    count inserted, and the error that stopped it if any. *)
Fixpoint importLoop (table : string) (mapping : list string)
    (metaMap : gmap string FieldDefinition) (records : list (list string))
    (inserted : Z) (db : DB) : DB * (Z * option error) :=
  match records with
  | [] => (db, (inserted, None))
  | record :: rest =>
      if (length record =? 0)%nat || isEmptyRow record
      then importLoop table mapping metaMap rest inserted db
      else match importRecord table mapping metaMap record db with
           | (db', Err e) => (db', (inserted, Some e))
           | (db', Ok _) => importLoop table mapping metaMap rest (inserted + 1) db'
           end
  end.

(** [ImportCSV], from the decoded header and records on. *)
Definition ImportCSV (table : string) (header : list string)
    (records : list (list string)) (allowUnknown : bool)
    (aliases : gmap string string) (db : DB) : DB * (Z * option error) :=
  match buildImportContext table header aliases allowUnknown db with
  | (db', Err e) => (db', (0, Some e))
  | (db', Ok (mapping, metaMap)) => importLoop table mapping metaMap records 0 db'
  end.

(** ** Summary *)

(** [rows.Scan] into a [sql.NullFloat64]. *)
Definition scanNullFloat (v : sqlval) : result (option float64) :=
  match v with
  | SNull => Ok None
  | SInt z => Ok (Some (Float64.ofInt z))
  | SReal f => Ok (Some f)
  | SText s =>
      match ParseFloat s with
      | Some f => Ok (Some f)
      | None => Err (ErrEngine "converting driver.Value type string to a float64")
      end
  end.

(** The scan loop of [Summary]: the non-null values, or the first error. *)
Fixpoint scanColumn (vs : list sqlval) : result (list float64) :=
  match vs with
  | [] => Ok []
  | v :: vs' =>
      match scanNullFloat v with
      | Err e => Err e
      | Ok o =>
          match scanColumn vs' with
          | Err e => Err e
          | Ok nums => Ok (match o with Some f => f :: nums | None => nums end)
          end
      end
  end.

(** [math.Pow x 2]: the square. *)
Definition pow2 (x : float64) : float64 := Float64.mul x x.

(** The statistics of a non-empty list, as [Summary] computes them. *)
Definition statistics (first : float64) (nums : list float64) : gmap string float64 :=
  let sum := foldl Float64.add Float64.zero nums in
  let min := foldl (λ m n, if Float64.ltb n m then n else m) first nums in
  let max := foldl (λ m n, if Float64.ltb m n then n else m) first nums in
  let count := Float64.ofInt (Z.of_nat (length nums)) in
  let avg := Float64.div sum count in
  let variance := foldl (λ acc n, Float64.add acc (pow2 (Float64.sub n avg))) Float64.zero nums in
  let variance := Float64.div variance count in
  <["count" := count]> (<["sum" := sum]> (<["average" := avg]> (<["max" := max]>
    (<["min" := min]> (<["std" := Float64.sqrt variance]> ∅))))).

(** The test [Summary] makes on the lowered type hint. *)
Definition numericHint (typeHint : string) : bool :=
  strings_Contains typeHint "int" || strings_Contains typeHint "数值"
  || strings_Contains typeHint "number" || strings_Contains typeHint "float".

(** [Summary] *)
Definition Summary (table column : string) : M (gmap string float64) :=
  let* cols := listColumns table in
  let typeHint := match find (λ c, String.eqb (Name c) column) cols with
                  | Some c => ToLower (TypeHint c)
                  | None => ""
                  end in
  if String.eqb typeHint "" then fail ErrNoField
  else if negb (numericHint typeHint) then fail (ErrNotNumeric column)
  else
    let* nums := Query_ ("SELECT " +:+ column +:+ " FROM " +:+ table)
                   (λ db, match tables db !! table with
                          | None => Err no_such_table
                          | Some t =>
                              if slices_Contains (column_names t) column
                              then scanColumn (map (λ r, cell r column) (t_rows t))
                              else Err (ErrEngine "no such column")
                          end) in
    match nums with
    | [] => ret {[ "count" := Float64.zero ]}
    | first :: _ => ret (statistics first nums)
    end.

End Storage.

(* ================================================================== *)
(** * Further storage operations

    The operations of the storage layer beside the ones above: update and
    delete of rows, clearing and dropping a table, the catalog listing and
    update, the combined table update, and the export. *)
(* ================================================================== *)

(** The statements these operations add. *)
Inductive stmt2 :=
| UpdateById (table : string) (keys : list string) (vals : list any) (id : Z)
| DeleteById (table : string) (id : Z)
| DeleteAll (table : string)
| DropTableIfExists (name : string)
| DeleteTableMeta (table : string)
| RenameTableMeta (old new : string)
| RenameColumnMetaTable (old new : string)
| RenameColumn (table old new : string)
| UpdateColumnMeta (table : string) (f : FieldDefinition).

Definition sqlText2 (s : stmt2) : string :=
  match s with
  | UpdateById table keys _ _ =>
      "UPDATE " +:+ table +:+ " SET "
      +:+ strings_Join (map (λ k, k +:+ "=?") keys ++ ["updated_at=CURRENT_TIMESTAMP"]) ","
      +:+ " WHERE id=?"
  | DeleteById table _ => "DELETE FROM " +:+ table +:+ " WHERE id=?"
  | DeleteAll table => "DELETE FROM " +:+ table
  | DropTableIfExists name => "DROP TABLE IF EXISTS " +:+ name
  | DeleteTableMeta _ => "DELETE FROM table_meta WHERE table_name=?"
  | RenameTableMeta _ _ => "UPDATE table_meta SET table_name=? WHERE table_name=?"
  | RenameColumnMetaTable _ _ => "UPDATE column_meta SET table_name=? WHERE table_name=?"
  | RenameColumn table old new =>
      "ALTER TABLE " +:+ table +:+ " RENAME COLUMN " +:+ old +:+ " TO " +:+ new
  | UpdateColumnMeta _ _ =>
      "UPDATE column_meta SET labels=?, type_hint=?, allow_null=? WHERE table_name=? AND column_name=?"
  end.

Section Engine2.
Context `{E : SqlEngine}.

Definition with_rows (t : Table) (rows : list Row) : Table :=
  {| t_columns := t_columns t; t_rows := rows; t_seq := t_seq t |}.

(** The values an UPDATE assigns, as the columns store them; an assignment
    of null to a NOT NULL column is refused. *)
Fixpoint assigned (t : Table) (kvs : list (string * sqlval))
  : result (list (string * sqlval)) :=
  match kvs with
  | [] => Ok []
  | (k, v) :: rest =>
      match find (λ c, String.eqb (col_name c) k) (t_columns t) with
      | None => Err (ErrEngine "no such column")
      | Some c =>
          let v' := apply_affinity (affinity_of (col_type c)) v in
          if col_notnull c && is_null v'
          then Err (ErrEngine "NOT NULL constraint failed")
          else match assigned t rest with
               | Err e => Err e
               | Ok out => Ok ((k, v') :: out)
               end
      end
  end.

(** The row after the assignments, the timestamp last. *)
Definition updated (now : string) (sets : list (string * sqlval)) (r : Row) : Row :=
  <["updated_at" := SText now]> (foldl (λ acc kv, <[kv.1 := kv.2]> acc) r sets).

(** The row with a column renamed. *)
Definition renamed (old new : string) (r : Row) : Row :=
  match r !! old with
  | Some v => <[new := v]> (delete old r)
  | None => delete old r
  end.

(** The effect of the further statements. *)
Definition run2 (s : stmt2) (db : DB) : result DB :=
  match s with
  | UpdateById table keys vals id =>
      match tables db !! table, bind_values vals with
      | None, _ => Err no_such_table
      | _, Err e => Err e
      | Some t, Ok svals =>
          if slices_Contains (column_names t) "updated_at"
             && slices_Contains (column_names t) "id"
          then
            if existsb (λ r, row_id r =? id) (t_rows t) then
              match assigned t (zip keys svals) with
              | Err e => Err e
              | Ok sets =>
                  Ok (with_tables db
                        (<[table := with_rows t
                                      (map (λ r, if row_id r =? id
                                                 then updated (clock db) sets r else r)
                                         (t_rows t))]> (tables db)))
              end
            else
              if forallb (slices_Contains (column_names t)) keys then Ok db
              else Err (ErrEngine "no such column")
          else Err (ErrEngine "no such column")
      end
  | DeleteById table id =>
      match tables db !! table with
      | None => Err no_such_table
      | Some t =>
          Ok (with_tables db
                (<[table := with_rows t (filter (λ r, row_id r ≠ id) (t_rows t))]>
                   (tables db)))
      end
  | DeleteAll table =>
      match tables db !! table with
      | None => Err no_such_table
      | Some t => Ok (with_tables db (<[table := with_rows t []]> (tables db)))
      end
  | DropTableIfExists name => Ok (with_tables db (delete name (tables db)))
  | DeleteTableMeta table => Ok (with_table_meta db (delete table (table_meta db)))
  | RenameTableMeta old new =>
      match table_meta db !! old with
      | None => Ok db
      | Some m =>
          if String.eqb old new then Ok db
          else match table_meta db !! new with
               | Some _ => Err (ErrEngine "UNIQUE constraint failed")
               | None => Ok (with_table_meta db (<[new := m]> (delete old (table_meta db))))
               end
      end
  | RenameColumnMetaTable old new =>
      Ok (with_column_meta db
            (map (λ m, if decide (cm_table m = old)
                       then {| cm_table := new; cm_column := cm_column m;
                               cm_labels := cm_labels m; cm_type_hint := cm_type_hint m;
                               cm_allow_null := cm_allow_null m; cm_order := cm_order m |}
                       else m)
               (column_meta db)))
  | RenameColumn table old new =>
      match tables db !! table with
      | None => Err no_such_table
      | Some t =>
          if negb (slices_Contains (column_names t) old)
          then Err (ErrEngine "no such column")
          else if slices_Contains (column_names t) new
          then Err (ErrEngine "duplicate column name")
          else
            Ok (with_tables db
                  (<[table :=
                       {| t_columns :=
                            map (λ c, if String.eqb (col_name c) old
                                      then {| col_name := new; col_type := col_type c;
                                              col_rowid := col_rowid c;
                                              col_notnull := col_notnull c;
                                              col_default := col_default c |}
                                      else c) (t_columns t);
                          t_rows := map (renamed old new) (t_rows t);
                          t_seq := t_seq t |}]> (tables db)))
      end
  | UpdateColumnMeta table f =>
      Ok (with_column_meta db
            (map (λ m, if decide (cm_table m = table ∧ cm_column m = Name f)
                       then {| cm_table := cm_table m; cm_column := cm_column m;
                               cm_labels := Labels f; cm_type_hint := TypeHint f;
                               cm_allow_null := AllowNull f; cm_order := cm_order m |}
                       else m)
               (column_meta db)))
  end.

(** [db.ExecContext] / [tx.Exec] for these statements. *)
Definition Exec2 (s : stmt2) : M unit :=
  λ db, let db1 := logged (sqlText2 s) db in
        match run2 s db1 with
        | Ok db2 => (db2, Ok tt)
        | Err e => (db1, Err e)
        end.

End Engine2.

(** [excelColumnName]: the loop, with the budget of steps it needs. *)
Fixpoint excelName (fuel : nat) (idx : Z) (name : string) : string :=
  match fuel with
  | O => name
  | S fuel' =>
      if 0 <? idx then
        let idx' := idx - 1 in
        excelName fuel' (idx' / 26)
          (String (ascii_of_N (Z.to_N (65 + idx' mod 26))) name)
      else name
  end.

(** [excelColumnName]; [idx + 1] is taken to fit Go's [int]. *)
Definition excelColumnName (idx : Z) : string :=
  excelName (Z.to_nat (idx + 1)) (idx + 1) "".

(** The errors of [UpdateTable] beside those of the calls it makes. *)
Inductive updateError :=
| ErrEmptyFieldName                      (* "字段名称不能为空" *)
| ErrDuplicateField (name : string)      (* "字段名称重复: %s" *)
| ErrTypeChange (oldName : string)       (* "字段 %s 不支持修改类型" *)
| ErrNewFieldType (newName : string)     (* "新增字段 %s 类型不能为空" *)
| ErrNoFields                            (* "至少保留一个字段" *)
| ErrStorage (e : error).                (* the error of a storage call *)

(** What [UpdateTable] works out before it touches the table. *)
Record UpdatePlan := {
  renamePairs : list (string * string);
  addFields : list FieldDefinition;
  keepOld : gset string;
  finalFields : list FieldDefinition
}.

Section MoreStorage.
Context `{G : GoLib} `{E : SqlEngine}.

(** ** Rows *)

(** [UpdateRow] *)
Definition UpdateRow (table : string) (id : Z) (data : gmap string any) : M unit :=
  let data := stripKeys data in
  if (size data =? 0)%nat then ret tt
  else
    let* clean := prepareData table data false in
    let kv := range clean in
    Exec2 (UpdateById table kv.*1 kv.*2 id).


(** [ClearTable] *)
Definition ClearTable (table : string) : M unit :=
  Exec2 (DeleteAll table).

(** ** Catalog *)

(** [tableDisplayName]: the display name, [""] when the table has none. *)
Definition tableDisplayName (table : string) : M string :=
  Query_ "SELECT display_name FROM table_meta WHERE table_name=?"
    (λ db, Ok (match table_meta db !! table with
               | Some (display, _) => display
               | None => ""
               end)).

(** The loop of [ListTables] over the rows of [table_meta]. *)
Fixpoint listSchemas (metas : list (string * (string * string))) : M (list TableSchema) :=
  match metas with
  | [] => ret []
  | (name, (display, description)) :: rest =>
      let* fields := listColumns name in
      let* schemas := listSchemas rest in
      ret ({| schemaName := name; DisplayName := display;
              Description := description; Fields := fields |} :: schemas)
  end.

(** [ListTables]; the order of [table_name] is the order of the bytes. *)
Definition ListTables : M (list TableSchema) :=
  let* metas := Query_ "SELECT table_name, display_name, description FROM table_meta ORDER BY table_name"
                  (λ db, Ok (sort_by (λ a b, String.leb a.1 b.1)
                               (map_to_list (table_meta db)))) in
  listSchemas metas.

Fixpoint updateMeta (table : string) (fields : list FieldDefinition) : M unit :=
  match fields with
  | [] => ret tt
  | f :: rest => Exec2 (UpdateColumnMeta table f) ;; updateMeta table rest
  end.

(** [UpdateColumns] *)
Definition UpdateColumns (table : string) (fields : list FieldDefinition) : M unit :=
  transaction (updateMeta table fields).

(** [DropTable] *)
Definition DropTable (table : string) : M unit :=
  Exec2 (DropTableIfExists table) ;;
  Exec2 (DeleteTableMeta table) ;;
  Exec (DeleteColumnMeta table) ;;
  ret tt.

(** ** The combined update *)

(** The first loop of [UpdateTable]: no empty and no repeated name. *)
Fixpoint checkNames (fields : list FieldDefinition) (nameSeen : gset string)
  : option updateError :=
  match fields with
  | [] => None
  | f :: rest =>
      let name := TrimSpace (Name f) in
      if String.eqb name "" then Some ErrEmptyFieldName
      else if bool_decide (name ∈ nameSeen) then Some (ErrDuplicateField name)
      else checkNames rest ({[name]} ∪ nameSeen)
  end.

(** The second loop: each incoming field is an existing one, by its old
    name, or a new one. *)
Fixpoint planFields (existingMap : gmap string FieldDefinition)
    (fields : list FieldDefinition) (acc : UpdatePlan) : updateError + UpdatePlan :=
  match fields with
  | [] => inr acc
  | f :: rest =>
      let newName := TrimSpace (Name f) in
      let oldName := TrimSpace (OldName f) in
      let oldName := if String.eqb oldName "" then newName else oldName in
      match existingMap !! oldName with
      | Some existing =>
          if negb (String.eqb (TypeHint f) "")
             && negb (EqualFold (TypeHint f) (TypeHint existing))
          then inl (ErrTypeChange oldName)
          else
            planFields existingMap rest
              {| renamePairs := if String.eqb oldName newName then renamePairs acc
                                else renamePairs acc ++ [(oldName, newName)];
                 addFields := addFields acc;
                 keepOld := {[oldName]} ∪ keepOld acc;
                 finalFields :=
                   finalFields acc
                   ++ [{| Name := newName; OldName := ""; Labels := Labels f;
                          TypeHint := TypeHint existing; AllowNull := AllowNull f;
                          Default := "" |}] |}
      | None =>
          if String.eqb newName "" || String.eqb (TypeHint f) ""
          then inl (ErrNewFieldType newName)
          else
            planFields existingMap rest
              {| renamePairs := renamePairs acc;
                 addFields :=
                   addFields acc
                   ++ [{| Name := newName; OldName := ""; Labels := Labels f;
                          TypeHint := TypeHint f; AllowNull := AllowNull f;
                          Default := Default f |}];
                 keepOld := keepOld acc;
                 finalFields :=
                   finalFields acc
                   ++ [{| Name := newName; OldName := ""; Labels := Labels f;
                          TypeHint := TypeHint f; AllowNull := AllowNull f;
                          Default := "" |}] |}
      end
  end.

Definition emptyPlan : UpdatePlan :=
  {| renamePairs := []; addFields := []; keepOld := ∅; finalFields := [] |}.

(** The checks of [UpdateTable] in their order, and the plan when they
    pass. *)
Definition planUpdate (existingFields : list FieldDefinition)
    (fields : list FieldDefinition) : updateError + UpdatePlan :=
  match checkNames fields ∅ with
  | Some e => inl e
  | None =>
      match planFields (metaMapOf existingFields) fields emptyPlan with
      | inl e => inl e
      | inr p => if (length (finalFields p) =? 0)%nat then inl ErrNoFields else inr p
      end
  end.

(** The existing columns the plan does not keep. *)
Definition dropFieldsOf (existingFields : list FieldDefinition) (p : UpdatePlan)
  : list string :=
  filter (λ name, name ∉ keepOld p) (range (metaMapOf existingFields)).*1.

Fixpoint renameColumns (table : string) (pairs : list (string * string)) : M unit :=
  match pairs with
  | [] => ret tt
  | (old, new) :: rest => Exec2 (RenameColumn table old new) ;; renameColumns table rest
  end.

(** The part of [UpdateTable] after the checks. *)
Definition applyPlan (now : Z) (table : string) (schema : TableSchema)
    (dropFields : list string) (p : UpdatePlan) : M unit :=
  let targetName := if String.eqb (schemaName schema) "" then table
                    else schemaName schema in
  (if negb (String.eqb targetName table) then
     Exec (RenameTable table targetName) ;;
     Exec2 (RenameTableMeta table targetName) ;;
     Exec2 (RenameColumnMetaTable table targetName)
   else ret tt) ;;
  let currentTable := targetName in
  renameColumns currentTable (renamePairs p) ;;
  (if (0 <? length dropFields)%nat then DropColumns now currentTable dropFields
   else ret tt) ;;
  (if (0 <? length (addFields p))%nat then AddColumns currentTable (addFields p)
   else ret tt) ;;
  upsertMeta {| schemaName := targetName; DisplayName := DisplayName schema;
                Description := Description schema; Fields := finalFields p |}.

(** [UpdateTable]; [now] is the clock reading [DropColumns] takes. *)
Definition UpdateTable (now : Z) (table : string) (schema : TableSchema) (db : DB)
  : DB * option updateError :=
  match listColumns table db with
  | (db1, Err e) => (db1, Some (ErrStorage e))
  | (db1, Ok existingFields) =>
      match planUpdate existingFields (Fields schema) with
      | inl e => (db1, Some e)
      | inr p =>
          match applyPlan now table schema (dropFieldsOf existingFields p) p db1 with
          | (db2, Err e) => (db2, Some (ErrStorage e))
          | (db2, Ok _) => (db2, None)
          end
      end
  end.

(** ** Export *)

(** The rows [fetchRowsForExport] asks for: by key when keys are given,
    by the filters otherwise. *)
Definition exportSelected (w : list cond) (ids : list Z) (t : Table) : list Row :=
  if (0 <? length ids)%nat
  then filter (λ r, row_id r ∈ ids) (t_rows t)
  else selected w t.

(** One exported row: the catalogued columns only. *)
Definition projected (columns : list string) (r : Row) : Row :=
  list_to_map (map (λ c, (c, cell r c)) columns).

(** [fetchRowsForExport] *)
Definition fetchRowsForExport (table : string) (fields : list FieldDefinition)
    (opts : QueryOptions) (ids : list Z) (all : bool) : M (list Row) :=
  let columns := map Name fields in
  let where_ :=
    if (0 <? length ids)%nat
    then "WHERE id IN (" +:+ placeholders (length ids) +:+ ")"
    else (buildFilters opts columns).1 in
  let w := buildWhere opts columns in
  let '(order, sortCol, sortDesc) := orderOf opts columns in
  let sqlWhere := if negb (String.eqb where_ "") then " " +:+ where_ else "" in
  let paging := negb all && (length ids =? 0)%nat in
  let page := pageOf opts in
  let pageSize := pageSizeOf opts in
  let offset := wrap64 ((page - 1) * pageSize) in
  let limit := if paging
               then " LIMIT " +:+ itoa pageSize +:+ " OFFSET " +:+ itoa offset
               else "" in
  let querySQL := "SELECT " +:+ strings_Join columns "," +:+ " FROM " +:+ table
                  +:+ sqlWhere +:+ " " +:+ order +:+ limit in
  Query_ querySQL
    (λ db, match tables db !! table with
           | None => Err no_such_table
           | Some t =>
               if (length columns =? 0)%nat then Err (ErrEngine "syntax error")
               else if forallb (slices_Contains (column_names t)) (sortCol :: columns)
               then
                 let rows := ordered sortCol sortDesc (exportSelected w ids t) in
                 Ok (map (projected columns)
                       (if paging then paged pageSize offset rows else rows))
               else Err (ErrEngine "no such column")
           end).

(** The header of an exported column: its first label, or its name. *)
Definition exportHeader (field : FieldDefinition) : string :=
  match Labels field with
  | label :: _ => if String.eqb label "" then Name field else label
  | [] => Name field
  end.

(** The cells [ExportExcel] sets: the headers in row 1, the data from row
    2 on; a later write to a cell replaces an earlier one. *)
Definition headerCells (fields : list FieldDefinition) : list (string * sqlval) :=
  imap (λ i field, (excelColumnName (Z.of_nat i) +:+ "1", SText (exportHeader field)))
    fields.

Definition dataCells (fields : list FieldDefinition) (rows : list Row)
  : list (string * sqlval) :=
  concat (imap (λ r row,
                  imap (λ c field,
                          (excelColumnName (Z.of_nat c) +:+ itoa (Z.of_nat r + 2),
                           cell row (Name field)))
                    fields)
            rows).

Definition sheetOf (fields : list FieldDefinition) (rows : list Row) : gmap string sqlval :=
  foldl (λ sheet kv, <[kv.1 := kv.2]> sheet) ∅ (headerCells fields ++ dataCells fields rows).

(** [ExportExcel], up to the encoding of the workbook: the cells of the
    sheet and the display name. *)
Definition ExportExcel (table : string) (opts : QueryOptions) (ids : list Z) (all : bool)
  : M (gmap string sqlval * string) :=
  let* fields := listColumns table in
  let* rows := fetchRowsForExport table fields opts ids all in
  let* name := tableDisplayName table in
  ret (sheetOf fields rows, name).

End MoreStorage.

(* ================================================================== *)
(** * A concrete run-time and engine, for evaluating the model

    [asciiLib] and [asciiEngine] fix the interface operations on the
    inputs the examples below use: ASCII letters for case mapping,
    decimal integers for number texts, integral values for float printing.
    The general statements do not depend on them: each is made for every
    [GoLib] and every [SqlEngine].  They serve to run the model on
    concrete inputs. *)
(* ================================================================== *)

Module Concrete.

Definition lowerByte (a : ascii) : ascii :=
  let n := N_of_ascii a in
  if N.leb 65 n && N.leb n 90 then ascii_of_N (n + 32) else a.

Fixpoint asciiLower (s : string) : string :=
  match s with
  | EmptyString => EmptyString
  | String a s' => String (lowerByte a) (asciiLower s')
  end.

Definition integral (f : float64) : bool :=
  SFeqb (Float64.ofInt (Float64.toInt64 f)) f.

Program Definition asciiLib : GoLib := {|
  ToLower := asciiLower;
  EqualFold a b := String.eqb (asciiLower a) (asciiLower b);
  ParseFloat s := Float64.ofInt <$> ParseInt s;
  FormatFloat f := itoa (Float64.toInt64 f);
  range A m := map_to_list m
|}.
Next Obligation. reflexivity. Qed.
Next Obligation. reflexivity. Qed.

(** The same run-time with the other visiting order. *)
Program Definition reverseLib : GoLib := {|
  ToLower := asciiLower;
  EqualFold a b := String.eqb (asciiLower a) (asciiLower b);
  ParseFloat s := Float64.ofInt <$> ParseInt s;
  FormatFloat f := itoa (Float64.toInt64 f);
  range A m := reverse (map_to_list m)
|}.
Next Obligation. reflexivity. Qed.
Next Obligation. intros. apply reverse_Permutation. Qed.

(** [v LIKE p] on texts: [%] any sequence, [_] any one byte, letters
    without regard to case. *)
Fixpoint likeBytes (p : list ascii) : list ascii → bool :=
  match p with
  | [] => λ s, match s with [] => true | _ => false end
  | c :: p' =>
      if Ascii.eqb c "%"%char then
        fix any (s : list ascii) : bool :=
          likeBytes p' s || match s with [] => false | _ :: s' => any s' end
      else
        λ s, match s with
             | [] => false
             | d :: s' =>
                 (Ascii.eqb c "_"%char || Ascii.eqb (lowerByte c) (lowerByte d))
                 && likeBytes p' s'
             end
  end.

Definition valueText (v : sqlval) : option string :=
  match v with
  | SNull => None
  | SInt z => Some (itoa z)
  | SReal f => Some (itoa (Float64.toInt64 f) +:+ ".0")
  | SText s => Some s
  end.

Definition valueLe (a b : sqlval) : bool :=
  match a, b with
  | SNull, _ => true
  | _, SNull => false
  | SInt x, SInt y => x <=? y
  | SInt x, SReal g => SFleb (Float64.ofInt x) g
  | SReal f, SInt y => SFleb f (Float64.ofInt y)
  | SReal f, SReal g => SFleb f g
  | (SInt _ | SReal _), SText _ => true
  | SText _, (SInt _ | SReal _) => false
  | SText s, SText t => bool_decide (String.le s t)
  end.

Definition asciiEngine : SqlEngine := {|
  real_text f := itoa (Float64.toInt64 f) +:+ ".0";
  text_numeric s := SInt <$> ParseInt s;
  real_integer f := if integral f then Some (Float64.toInt64 f) else None;
  sql_like v p :=
    match valueText v with
    | Some s => likeBytes (list_ascii_of_string p) (list_ascii_of_string s)
    | None => false
    end;
  sql_le := valueLe
|}.

(** ** A sample database

    Built with the operations of the model itself: one managed table with
    a text, an integer, a number, a decimal and a note column, and two
    rows, the first as a decoded JSON object (numbers are float64), the
    second as it would come from a form (strings). *)

Definition emptyDB : DB :=
  {| tables := ∅; table_meta := ∅; column_meta := [];
     clock := "2024-05-01 08:00:00"; trace := [] |}.

Definition field (name : string) (labels : list string) (hint : string)
    (allowNull : bool) : FieldDefinition :=
  {| Name := name; OldName := ""; Labels := labels; TypeHint := hint;
     AllowNull := allowNull; Default := "" |}.

Definition patients : TableSchema :=
  {| schemaName := "patients"; DisplayName := "Patients"; Description := "";
     Fields := [field "name" ["姓名"] "text" false;
                field "age" [] "integer" true;
                field "iop" [] "number" true;
                field "acuity" [] "decimal" true;
                field "note" [] "text" true] |}.

Definition after {A} (m : M A) (db : DB) : DB := (m db).1.

Definition patient1 : gmap string any :=
  <["name" := Str "Li"]> (<["age" := Float64 (Float64.ofInt 34)]>
    (<["acuity" := Float64 (Float64.ofInt 2)]> (<["note" := Str "od"]> ∅))).

Definition patient2 : gmap string any :=
  <["name" := Str "Wu"]> (<["age" := Str " 51 "]> (<["note" := Str ""]> ∅)).

Definition clinic : DB :=
  after (InsertRow (G := asciiLib) (E := asciiEngine) "patients" patient2)
    (after (InsertRow (G := asciiLib) (E := asciiEngine) "patients" patient1)
       (after (CreateTable (G := asciiLib) (E := asciiEngine) patients) emptyDB)).

Definition allRows : QueryOptions :=
  {| Search := ""; Filters := ∅; Page := 1; PageSize := 20; SortBy := ""; Desc := false |}.

(** A table of 25 visits, keys 1 to 25. *)
Definition visit (i : Z) : Row :=
  <["id" := SInt i]> (<["eye" := SText (if Z.even i then "od" else "os")]>
    (<["created_at" := SText "2024-05-01 08:00:00"]>
       (<["updated_at" := SText "2024-05-01 08:00:00"]> ∅))).

Definition visitsTable : Table :=
  {| t_columns := [idColumn;
                   {| col_name := "eye"; col_type := "TEXT"; col_rowid := false;
                      col_notnull := false; col_default := NoDefault |};
                   stampColumn "created_at" DefaultNow;
                   stampColumn "updated_at" DefaultNow];
     t_rows := map visit (seqZ 1 25);
     t_seq := 25 |}.

Definition visits : DB := with_tables emptyDB {[ "visits" := visitsTable ]}.

Definition secondPage : QueryOptions :=
  {| Search := ""; Filters := {[ "eye" := "o" ]}; Page := 2; PageSize := 10;
     SortBy := ""; Desc := false |}.

End Concrete.

(* ================================================================== *)
(** * Vocabulary of the statements *)
(* ================================================================== *)

Section Vocabulary.
Context `{G : GoLib} `{E : SqlEngine}.

(** The hints of the integer arm of [convertValue]. *)
Definition integerHint (typeHint : string) : bool :=
  slices_Contains ["integer"; "int"; "计数"; "布尔"] (ToLower typeHint).


(** The catalogued columns of a table, as [prepareData] indexes them. *)
Definition declared (table : string) (db : DB) : gmap string FieldDefinition :=
  metaMapOf (catalogFields table db).

(** Column [c] is declared not-nullable and the payload has no value for
    it, or one that coerces to null. *)
Definition lacksRequired (meta : gmap string FieldDefinition)
    (data : gmap string any) (c : string) : bool :=
  match meta !! c with
  | None => false
  | Some def =>
      negb (AllowNull def)
      && match data !! c with
         | None => true
         | Some v => match convertValue (TypeHint def) v with
                     | Ok Nil => true
                     | _ => false
                     end
         end
  end.

(** Column [c] is declared and the payload has a value for it that does
    not coerce. *)
Definition failsCoercion (meta : gmap string FieldDefinition)
    (data : gmap string any) (c : string) : bool :=
  match meta !! c, data !! c with
  | Some def, Some v => match convertValue (TypeHint def) v with
                        | Err _ => true
                        | Ok _ => false
                        end
  | _, _ => false
  end.

(** The payload without the keys no declared column has. *)
Definition declaredOnly (meta : gmap string FieldDefinition)
    (data : gmap string any) : gmap string any :=
  filter (λ kv, is_Some (meta !! kv.1)) data.

(** The same options on another page. *)
Definition with_paging (opts : QueryOptions) (page pageSize : Z) : QueryOptions :=
  {| Search := Search opts; Filters := Filters opts; Page := page;
     PageSize := pageSize; SortBy := SortBy opts; Desc := Desc opts |}.

(** The total a query reports. *)
Definition totalOf (r : result (list Row * Z)) : option Z :=
  match r with
  | Ok (_, total) => Some total
  | Err _ => None
  end.

(** The rows of [table] that the options select, in the active order. *)
Definition population (table : string) (opts : QueryOptions) (db : DB) (t : Table)
  : list Row :=
  selected (buildWhere opts (physicalColumns table db)) t.

Definition sorted (table : string) (opts : QueryOptions) (db : DB) (t : Table)
  : list Row :=
  let columns := physicalColumns table db in
  ordered (orderOf opts columns).1.2 (orderOf opts columns).2 (population table opts db t).

(** The rows a query returns, none on an error. *)
Definition rowsOf (r : result (list Row * Z)) : list Row :=
  match r with
  | Ok (rows, _) => rows
  | Err _ => []
  end.

(** The declared type of a column of a table, if both exist. *)
Definition declaredType (table column : string) (db : DB) : option string :=
  t ← tables db !! table;
  c ← find (λ c, String.eqb (col_name c) column) (t_columns t);
  Some (col_type c).

(** A table with the three housekeeping columns, whose rows carry distinct
    integer keys. *)
Definition managed (t : Table) : Prop :=
  NoDup (column_names t)
  ∧ Forall (λ c, c ∈ column_names t) ["id"; "created_at"; "updated_at"]
  ∧ NoDup (map row_id (t_rows t))
  ∧ Forall (λ r : Row, r !! "id" = Some (SInt (row_id r))) (t_rows t).

(** What the rebuild of [DropColumns] makes of a row: the key, the
    surviving columns as a TEXT column stores them, the two timestamps. *)
Definition rebuilt (keep : list string) (r : Row) : Row :=
  <["id" := SInt (row_id r)]>
    (foldr (λ c acc, <[c := apply_affinity AffText (cell r c)]> acc)
       (<["created_at" := to_numeric (cell r "created_at")]>
          (<["updated_at" := to_numeric (cell r "updated_at")]> ∅))
       keep).

(** The columns [DropColumns] keeps. *)
Definition kept (table : string) (columns : list string) (db : DB) : list string :=
  filter (λ c, slices_Contains columns c = false) (physicalColumns table db).

End Vocabulary.

(** The index a column name stands for, reading the letters as the digits
    1 to 26. *)
Fixpoint letterValue (s : string) (acc : Z) : Z :=
  match s with
  | EmptyString => acc
  | String a s' => letterValue s' (acc * 26 + (Z.of_N (N_of_ascii a) - 64))
  end.

(** Every byte of a string passes a test. *)
Fixpoint allBytes (p : ascii → bool) (s : string) : bool :=
  match s with
  | EmptyString => true
  | String a s' => p a && allBytes p s'
  end.

Definition isUpper (a : ascii) : bool :=
  (N.leb 65 (N_of_ascii a) && N.leb (N_of_ascii a) 90)%bool.

Definition isDigit (a : ascii) : bool :=
  (N.leb 48 (N_of_ascii a) && N.leb (N_of_ascii a) 57)%bool.

Section MoreVocabulary.
Context `{G : GoLib} `{E : SqlEngine}.

(** A catalogued field as the catalog gives it back: no old name, no
    default. *)
Definition catalogued (f : FieldDefinition) : FieldDefinition :=
  {| Name := Name f; OldName := ""; Labels := Labels f; TypeHint := TypeHint f;
     AllowNull := AllowNull f; Default := "" |}.

(** A value that is not a blank string. *)
Definition notBlank (v : any) : Prop :=
  match v with
  | Str s => TrimSpace s ≠ ""
  | _ => True
  end.

(** The rows the catalog gets for a list of fields, numbered from
    [order] on. *)
Fixpoint metaRows (table : string) (fields : list FieldDefinition) (order : Z)
  : list ColumnMeta :=
  match fields with
  | [] => []
  | f :: rest => metaRow table f order :: metaRows table rest (order + 1)
  end.

(** Two databases hold the same data: they differ at most in the record
    of the statements sent. *)
Definition sameData (a b : DB) : Prop :=
  tables a = tables b ∧ table_meta a = table_meta b
  ∧ column_meta a = column_meta b ∧ clock a = clock b.

(** What [UpdateColumns] makes of a catalogued field: the labels, type
    hint and nullability of the last field given under its name, if any. *)
Definition revised (fields : list FieldDefinition) (g : FieldDefinition)
  : FieldDefinition :=
  match find (λ f, bool_decide (Name f = Name g)) (reverse fields) with
  | Some f => {| Name := Name g; OldName := ""; Labels := Labels f;
                 TypeHint := TypeHint f; AllowNull := AllowNull f; Default := "" |}
  | None => g
  end.

(** The schema [ListTables] gives for a registered table. *)
Definition listed (db : DB) (e : string * (string * string)) : TableSchema :=
  {| schemaName := e.1; DisplayName := e.2.1; Description := e.2.2;
     Fields := catalogFields e.1 db |}.

(** The existing column a field of an [UpdateTable] request refers to:
    its old name, or its name when it gives none, both trimmed. *)
Definition oldNameOf (f : FieldDefinition) : string :=
  if String.eqb (TrimSpace (OldName f)) "" then TrimSpace (Name f)
  else TrimSpace (OldName f).

(** The catalog entry [UpdateTable] writes for a requested field: the
    trimmed name, the requested labels and nullability, and the type hint
    of the existing column if the field refers to one. *)
Definition finalOf (existingMap : gmap string FieldDefinition) (f : FieldDefinition)
  : FieldDefinition :=
  {| Name := TrimSpace (Name f); OldName := ""; Labels := Labels f;
     TypeHint := match existingMap !! oldNameOf f with
                 | Some existing => TypeHint existing
                 | None => TypeHint f
                 end;
     AllowNull := AllowNull f; Default := "" |}.

(** The name the table has after [UpdateTable]. *)
Definition targetOf (table : string) (schema : TableSchema) : string :=
  if String.eqb (schemaName schema) "" then table else schemaName schema.

(** A requested field changes the type of the existing column it refers
    to. *)
Definition changesType (existingMap : gmap string FieldDefinition)
    (f : FieldDefinition) : Prop :=
  ∃ existing, existingMap !! oldNameOf f = Some existing
              ∧ TypeHint f ≠ ""
              ∧ EqualFold (TypeHint f) (TypeHint existing) = false.

End MoreVocabulary.

(** Closes a decidable closed goal by evaluation. *)
Ltac by_decide := refine (bool_decide_unpack _ _); vm_compute; exact I.

(* ================================================================== *)
(** * Properties *)
(* ================================================================== *)

(** ** Library functions *)

Lemma slices_Contains_elem (s : list string) (v : string) :
  slices_Contains s v = true ↔ v ∈ s.
Proof.
  unfold slices_Contains. rewrite existsb_exists. split.
  - intros (x & Hx & Heq). apply String.eqb_eq in Heq. subst.
    by apply list_elem_of_In.
  - intros Hin. exists v. split; [by apply list_elem_of_In | apply String.eqb_refl].
Qed.

Lemma slices_Contains_false (s : list string) (v : string) :
  slices_Contains s v = false ↔ v ∉ s.
Proof.
  rewrite <- slices_Contains_elem. destruct (slices_Contains s v); split; congruence.
Qed.

Lemma digits_bounds (s : string) (acc n : Z) :
  0 ≤ acc → digits s acc = Some n → 0 ≤ n.
Proof.
  revert acc. induction s as [|a s IH]; simpl; intros acc Hacc Hd.
  - congruence.
  - unfold digit in Hd.
    destruct (N.leb 48 (N_of_ascii a) && N.leb (N_of_ascii a) 57) eqn:E; [|done].
    apply andb_true_iff in E as [E1 E2].
    apply N.leb_le in E1. apply N.leb_le in E2.
    eapply IH; [|exact Hd]. lia.
Qed.

(** What [ParseInt] accepts fits int64. *)
Lemma ParseInt_range (s : string) (i : Z) :
  ParseInt s = Some i → - 2 ^ 63 ≤ i < 2 ^ 63.
Proof.
  unfold ParseInt. destruct s as [|c rest]; [done|].
  destruct (if Ascii.eqb c "+" then (false, rest)
            else if Ascii.eqb c "-" then (true, rest)
            else (false, String c rest)) as [neg body].
  destruct (ParseUint body) as [un|] eqn:Hu; [|done].
  assert (0 ≤ un) as Hpos.
  { unfold ParseUint in Hu. destruct body; [done|].
    eapply digits_bounds; [|exact Hu]. lia. }
  destruct neg; simpl.
  - destruct (2 ^ 63 <? un) eqn:E; [done|].
    apply Z.ltb_ge in E. intros [= <-]. lia.
  - destruct (2 ^ 63 <=? un) eqn:E; [done|].
    apply Z.leb_gt in E. intros [= <-]. lia.
Qed.

Example TrimSpace_ascii : TrimSpace "  42	" = "42".
Proof. reflexivity. Qed.

Example TrimSpace_inner : TrimSpace " a b " = "a b".
Proof. reflexivity. Qed.

Example ParseInt_signed : ParseInt "-17" = Some (-17) ∧ ParseInt "+8" = Some 8.
Proof. split; reflexivity. Qed.

Example ParseInt_rejects :
  ParseInt "" = None ∧ ParseInt "1_000" = None ∧ ParseInt "12a" = None
  ∧ ParseInt "9223372036854775808" = None.
Proof. repeat split; reflexivity. Qed.

(** ** Value coercion *)

Section CoercionFacts.
Context `{G : GoLib}.

Lemma convertText_blank (s : string) :
  TrimSpace s = "" → convertText (Str s) = Ok Nil.
Proof. intros Hs. unfold convertText. by rewrite Hs. Qed.

Lemma convertValue_nil (typeHint : string) : convertValue typeHint Nil = Ok Nil.
Proof. reflexivity. Qed.

(** A blank string is null under every hint. *)
Lemma convertValue_blank (typeHint s : string) :
  TrimSpace s = "" → convertValue typeHint (Str s) = Ok Nil.
Proof.
  intros Hs. unfold convertValue.
  repeat match goal with
         | |- context [if slices_Contains ?l ?h then _ else _] =>
             destruct (slices_Contains l h)
         end;
    rewrite ?Hs, ?ToLower_empty; try reflexivity; by apply convertText_blank.
Qed.

(** A present value that coerces to null: the column is left out when it
    may be null and is a missing required field when it may not. *)
Lemma prepareLoop_null (data : gmap string any) (name : string)
    (def : FieldDefinition) (rest : list (string * FieldDefinition))
    (isInsert : bool) (acc : gmap string any) (v : any) :
  data !! name = Some v →
  convertValue (TypeHint def) v = Ok Nil →
  prepareLoop data ((name, def) :: rest) isInsert acc =
    if AllowNull def then prepareLoop data rest isInsert acc
    else Err (ErrRequired name).
Proof.
  intros Hv Hc. simpl. rewrite Hv, Hc. by destruct (AllowNull def).
Qed.

End CoercionFacts.

(** C9. Under every type hint a null input and an empty-string input
    coerce to storage null without an error.  Coercion takes no
    nullability argument; the layer above it, [prepareDataWithMeta], is
    where a null is accepted (the column is left out) when the column
    allows null and rejected as a missing required field when it does not,
    on insert and on update alike. *)
Theorem C9_null_and_empty_coerce_to_null `{G : GoLib} (typeHint : string) :
  convertValue typeHint Nil = Ok Nil
  ∧ convertValue typeHint (Str "") = Ok Nil
  ∧ ∀ (data : gmap string any) (name : string) (labels : list string)
      (allowNull : bool) (rest : list (string * FieldDefinition))
      (isInsert : bool) (acc : gmap string any),
      let def := {| Name := name; OldName := ""; Labels := labels;
                    TypeHint := typeHint; AllowNull := allowNull; Default := "" |} in
      Forall (λ v,
          prepareLoop (<[name := v]> data) ((name, def) :: rest) isInsert acc =
            if allowNull
            then prepareLoop (<[name := v]> data) rest isInsert acc
            else Err (ErrRequired name))
        [Nil; Str ""].
Proof.
  split; [reflexivity|]. split; [by apply convertValue_blank|].
  intros data name labels allowNull rest isInsert acc def.
  repeat constructor.
  - apply (prepareLoop_null _ _ def _ _ _ Nil); [apply lookup_insert_eq | reflexivity].
  - apply (prepareLoop_null _ _ def _ _ _ (Str ""));
      [apply lookup_insert_eq | by apply convertValue_blank].
Qed.

(** C4 (amended). Under an integer-category type hint the coercion keeps a
    value already in integer form, truncates a float64 to an int64, maps
    null to null, maps a string that is blank after trimming to null,
    accepts a string whose trimmed text parses as a base-10 int64, and
    fails with the invalid-value error on every other input: a string that
    does not parse, a boolean, a value of any other type. *)
Theorem C4_integer_coercion `{G : GoLib} (typeHint : string) (val : any) :
  integerHint typeHint = true →
  convertValue typeHint val =
    match val with
    | Nil => Ok Nil
    | Int _ | Int32 _ | Int64 _ => Ok val
    | Float64 v => Ok (Int64 (Float64.toInt64 v))
    | Str v =>
        if String.eqb (TrimSpace v) "" then Ok Nil
        else match ParseInt (TrimSpace v) with
             | Some i => Ok (Int64 i)
             | None => Err ErrNeedInteger
             end
    | Bool _ | Other _ => Err ErrNeedInteger
    end.
Proof.
  unfold integerHint, convertValue. intros ->. by destruct val.
Qed.

Section C4_at_inputs.
#[local] Existing Instance Concrete.asciiLib.

Lemma C4_integer_coercion_witness :
  integerHint "INT" = true
  ∧ convertValue "INT" (Str " 42 ") = Ok (Int64 42)
  ∧ convertValue "INT" (Str "4.2") = Err ErrNeedInteger
  ∧ convertValue "INT" (Bool true) = Err ErrNeedInteger.
Proof.
  split; [reflexivity|].
  split; [|split].
  - rewrite (C4_integer_coercion (G := Concrete.asciiLib) "INT" (Str " 42 ") eq_refl). reflexivity.
  - rewrite (C4_integer_coercion (G := Concrete.asciiLib) "INT" (Str "4.2") eq_refl). reflexivity.
  - rewrite (C4_integer_coercion (G := Concrete.asciiLib) "INT" (Bool true) eq_refl). reflexivity.
Defined.

(** C4 as stated fails: a float64 is neither in integer form nor a string,
    and 3.5 under the hint [integer] is accepted as 3. *)
Lemma C4_float_accepted :
  let v := Float64 (Float64.div (Float64.ofInt 7) (Float64.ofInt 2)) in
  integerHint "integer" = true
  ∧ convertValue "integer" v = Ok (Int64 3)
  ∧ ¬ (∃ e, convertValue "integer" v = Err e).
Proof.
  split; [reflexivity|]. split; [reflexivity|].
  intros [e He]. vm_compute in He. discriminate He.
Qed.

End C4_at_inputs.

(** ** Query/Filter builder *)

Section FilterFacts.
Context `{G : GoLib}.

#[local] Abbreviation known columns :=
  (λ e : string * string, slices_Contains columns e.1 = true).

(** The filter loop keeps the entries with a known key, in order. *)
Lemma filterClauses_filter (entries : list (string * string)) (columns : list string) :
  filterClauses entries columns =
    (map (λ e, likeSQL e.1) (filter (known columns) entries),
     map (λ e, Str (pattern e.2)) (filter (known columns) entries)).
Proof.
  induction entries as [|[k v] rest IH]; [reflexivity|].
  simpl. rewrite IH, filter_cons.
  destruct (decide (known columns (k, v))) as [Hk|Hk] ; simpl in Hk.
  - rewrite Hk. reflexivity.
  - destruct (slices_Contains columns k); [done|]. reflexivity.
Qed.

Lemma filter_known_idemp (entries : list (string * string)) (columns : list string) :
  filter (known columns) (filter (known columns) entries) = filter (known columns) entries.
Proof.
  induction entries as [|e rest IH]; [reflexivity|].
  rewrite filter_cons. destruct (decide (known columns e)) as [Hk|Hk]; [|exact IH].
  rewrite filter_cons, decide_True by done. by rewrite IH.
Qed.

Lemma filter_known_keys (entries : list (string * string)) (columns : list string) :
  (filter (known columns) entries).*1
  = filter (λ k, slices_Contains columns k = true) entries.*1.
Proof.
  induction entries as [|[k v] rest IH]; [reflexivity|].
  rewrite fmap_cons, !filter_cons. simpl.
  destruct (decide (slices_Contains columns k = true)) as [Hk|Hk].
  - rewrite fmap_cons. simpl. by rewrite IH.
  - exact IH.
Qed.

Lemma filter_conds_text (kept : list (string * string)) :
  map cond_text (map (λ e : string * string, One (e.1, pattern e.2)) kept)
  = map (λ e, likeSQL e.1) kept.
Proof. rewrite map_map. reflexivity. Qed.

Lemma filter_conds_params (kept : list (string * string)) :
  concat (map (λ c, map Str (cond_atoms c).*2)
            (map (λ e : string * string, One (e.1, pattern e.2)) kept))
  = map (λ e, Str (pattern e.2)) kept.
Proof.
  induction kept as [|e k IH]; [reflexivity|]. simpl. by rewrite IH.
Qed.

Lemma buildFilters_where (opts : QueryOptions) (columns : list string) :
  buildFilters opts columns =
    (where_text (buildWhere opts columns), where_params (buildWhere opts columns)).
Proof.
  unfold buildFilters, buildWhere, where_text, where_params.
  rewrite filterClauses_filter.
  set (kept := filter (known columns) (range (Filters opts))).
  rewrite !map_app, concat_app, filter_conds_text, filter_conds_params.
  destruct (negb (String.eqb (Search opts) "")); simpl.
  - rewrite length_map.
    destruct columns as [|c cs]; simpl.
    + destruct kept; reflexivity.
    + rewrite !map_map. simpl. rewrite app_nil_r. reflexivity.
  - destruct kept; reflexivity.
Qed.

Lemma filter_conds_columns (kept : list (string * string)) :
  where_columns (map (λ e : string * string, One (e.1, pattern e.2)) kept) = kept.*1.
Proof.
  unfold where_columns.
  induction kept as [|e k IH]; [reflexivity|]. simpl. by rewrite IH.
Qed.

Lemma search_cond_atoms (columns : list string) (p : string) :
  (map (λ c : string, (c, p)) columns).*1 = columns
  ∧ (map (λ c : string, (c, p)) columns).*2 = map (λ _, p) columns.
Proof.
  induction columns as [|c cs [IH1 IH2]]; [done|].
  split; simpl; f_equal; [exact IH1 | exact IH2].
Qed.

Lemma buildWhere_columns (opts : QueryOptions) (columns : list string) :
  Forall (λ c, c ∈ columns) (where_columns (buildWhere opts columns)).
Proof.
  unfold buildWhere.
  replace (where_columns
             ((if negb (String.eqb (Search opts) "") && (0 <? length columns)%nat
               then [AnyOf (map (λ c, (c, pattern (Search opts))) columns)] else [])
              ++ map (λ e : string * string, One (e.1, pattern e.2))
                   (filter (known columns) (range (Filters opts)))))
    with ((if negb (String.eqb (Search opts) "") && (0 <? length columns)%nat
           then columns else [])
          ++ (filter (known columns) (range (Filters opts))).*1).
  - apply Forall_app. split.
    + destruct (negb (String.eqb (Search opts) "") && (0 <? length columns)%nat);
        [|constructor].
      by apply Forall_forall.
    + apply Forall_forall. intros c Hc.
      apply list_elem_of_fmap in Hc as ([k v] & -> & Hin).
      apply list_elem_of_filter in Hin as [Hk _].
      by apply slices_Contains_elem.
  - rewrite <- filter_conds_columns. unfold where_columns.
    rewrite map_app, concat_app. f_equal.
    destruct (negb (String.eqb (Search opts) "") && (0 <? length columns)%nat);
      [|reflexivity].
    simpl. rewrite app_nil_r.
    symmetry. apply search_cond_atoms.
Qed.

Lemma where_text_shape (opts : QueryOptions) (columns : list string) :
  where_text (buildWhere opts columns)
  = clause_text (negb (String.eqb (Search opts) "")) (range (Filters opts)).*1 columns.
Proof.
  unfold clause_text, where_text, buildWhere. f_equal.
  rewrite !map_app. f_equal.
  - destruct (negb (String.eqb (Search opts) "") && (0 <? length columns)%nat);
      [|reflexivity].
    simpl. rewrite !map_map. reflexivity.
  - rewrite <- filter_known_keys.
    rewrite filter_conds_text.
    generalize (filter (known columns) (range (Filters opts))).
    intros l. induction l as [|e l IH]; [reflexivity|].
    simpl. f_equal. exact IH.
Qed.

Lemma buildWhere_params (opts : QueryOptions) (columns : list string) :
  Forall (λ p, ∃ v, p = Str (pattern v)
                    ∧ (v = Search opts ∨ ∃ k, Filters opts !! k = Some v))
    (where_params (buildWhere opts columns)).
Proof.
  unfold where_params, buildWhere.
  rewrite map_app, concat_app, filter_conds_params.
  apply Forall_app. split.
  - destruct (negb (String.eqb (Search opts) "") && (0 <? length columns)%nat);
      simpl; [|constructor].
    rewrite app_nil_r, (proj2 (search_cond_atoms _ _)), map_map.
    apply Forall_forall. intros p Hp.
    apply list_elem_of_In, in_map_iff in Hp as (c & <- & _).
    exists (Search opts). auto.
  - apply Forall_forall. intros p Hp.
    apply list_elem_of_In, in_map_iff in Hp as ([k v] & <- & Hin).
    apply list_elem_of_In, list_elem_of_filter in Hin as [_ Hin].
    exists v. split; [reflexivity|]. right. exists k.
    apply elem_of_map_to_list. by rewrite <- (range_perm _ (Filters opts)).
Qed.

End FilterFacts.

(** C1. For every options value and every list of known columns: the text
    and the parameters of [buildFilters] are those of a condition all of
    whose columns are known columns; the filter entries with an unknown
    key leave no trace (the loop gives the same result with them removed,
    and the function has no error result at all); the text is a function
    of whether a search term is present, of the filter keys and of the
    columns, so no search or filter value is part of it; and every value
    reaches the engine as a bound parameter [%value%]. *)
Theorem C1_filters_use_known_columns_only `{G : GoLib}
    (opts : QueryOptions) (columns : list string) :
  let w := buildWhere opts columns in
  buildFilters opts columns = (where_text w, where_params w)
  ∧ Forall (λ c, c ∈ columns) (where_columns w)
  ∧ filterClauses (range (Filters opts)) columns
    = filterClauses
        (filter (λ e, slices_Contains columns e.1 = true) (range (Filters opts)))
        columns
  ∧ (buildFilters opts columns).1
    = clause_text (negb (String.eqb (Search opts) "")) (range (Filters opts)).*1 columns
  ∧ Forall (λ p, ∃ v, p = Str (pattern v)
                      ∧ (v = Search opts ∨ ∃ k, Filters opts !! k = Some v))
      (buildFilters opts columns).2.
Proof.
  intros w. split; [apply buildFilters_where|].
  split; [apply buildWhere_columns|].
  split.
  { rewrite !filterClauses_filter. by rewrite filter_known_idemp. }
  rewrite buildFilters_where. simpl.
  split; [apply where_text_shape | apply buildWhere_params].
Qed.

(** ** Reading the catalog and the table layout *)

Section ReadFacts.
Context `{G : GoLib} `{E : SqlEngine}.

Lemma tableColumns_run (table : string) (db : DB) :
  tableColumns table db
  = (logged (tableInfoSQL table) db, Ok (physicalColumns table db)).
Proof. reflexivity. Qed.

Lemma listColumns_run (table : string) (db : DB) :
  listColumns table db = (logged listColumnsSQL db, Ok (catalogFields table db)).
Proof. reflexivity. Qed.

Lemma columnMeta_run (table : string) (db : DB) :
  columnMeta table db = (logged columnMetaSQL db, Ok (catalogLabels table db)).
Proof. reflexivity. Qed.

Lemma filter_all {A} (P : A → Prop) `{∀ x, Decision (P x)} (l : list A) :
  Forall P l → filter P l = l.
Proof.
  induction 1 as [|x l Hx _ IH]; [reflexivity|].
  rewrite filter_cons, decide_True by done. by rewrite IH.
Qed.

End ReadFacts.

(** ** Operations that change nothing *)

(** C10 (amended). Batch delete with an empty key set returns success
    without issuing any statement: the database, its trace included, is
    the one it was given.  So does drop-columns with an empty column list.
    Drop-columns with a non-empty list none of whose names is a physically
    present non-housekeeping column returns success after one read-only
    statement, the [PRAGMA table_info] that lists the columns; every table,
    every row and the catalog are unchanged. *)
Theorem C10_empty_requests_change_nothing `{G : GoLib} `{E : SqlEngine}
    (now : Z) (table : string) (columns : list string) (db : DB) :
  Forall (λ c, c ∉ columns) (physicalColumns table db) →
  DeleteRows table [] db = (db, Ok tt)
  ∧ DropColumns now table [] db = (db, Ok tt)
  ∧ ∃ db', DropColumns now table columns db = (db', Ok tt)
           ∧ tables db' = tables db
           ∧ table_meta db' = table_meta db
           ∧ column_meta db' = column_meta db
           ∧ trace db' = (if decide (columns = []) then trace db
                          else trace db ++ [tableInfoSQL table]).
Proof.
  intros Hnone. split; [reflexivity|]. split; [reflexivity|].
  destruct columns as [|c cs].
  { exists db. by rewrite decide_True. }
  rewrite decide_False by done.
  exists (logged (tableInfoSQL table) db).
  split; [|done].
  unfold DropColumns.
  change (length (c :: cs) =? 0)%nat with false. cbv iota.
  unfold bind at 1. rewrite tableColumns_run.
  rewrite filter_all; [by rewrite Nat.eqb_refl|].
  eapply Forall_impl; [exact Hnone|].
  intros x Hx. by apply slices_Contains_false.
Qed.

Section C10_at_inputs.
#[local] Existing Instance Concrete.asciiLib.
#[local] Existing Instance Concrete.asciiEngine.
Import Concrete.

Lemma C10_empty_requests_change_nothing_witness :
  Forall (λ c, c ∉ ["nosuch"; "id"]) (physicalColumns "patients" clinic)
  ∧ (DropColumns 1714550400 "patients" ["nosuch"; "id"] clinic).2 = Ok tt
  ∧ tables (after (DropColumns 1714550400 "patients" ["nosuch"; "id"]) clinic)
    = tables clinic.
Proof.
  assert (Forall (λ c, c ∉ ["nosuch"; "id"]) (physicalColumns "patients" clinic)) as Hnone.
  { by_decide. }
  split; [exact Hnone|].
  destruct (C10_empty_requests_change_nothing 1714550400 "patients" ["nosuch"; "id"]
              clinic Hnone) as (_ & _ & db' & Hrun & Htables & _).
  unfold after. rewrite Hrun. split; [reflexivity | exact Htables].
Defined.

(** C10 as stated fails: with a non-empty list that matches no column,
    drop-columns does issue a statement before it returns. *)
Lemma C10_pragma_is_issued :
  Forall (λ c, c ∉ ["nosuch"]) (physicalColumns "patients" clinic)
  ∧ (DropColumns 1714550400 "patients" ["nosuch"] clinic).2 = Ok tt
  ∧ trace (after (DropColumns 1714550400 "patients" ["nosuch"]) clinic)
    = trace clinic ++ ["PRAGMA table_info(patients)"]
  ∧ trace (after (DropColumns 1714550400 "patients" ["nosuch"]) clinic) ≠ trace clinic.
Proof.
  split.
  { by_decide. }
  split; [by vm_compute|]. split; [by vm_compute|].
  vm_compute. discriminate.
Qed.

End C10_at_inputs.

(** ** Import reconciler *)

Section ImportFacts.
Context `{G : GoLib} `{E : SqlEngine}.


(** Physical names come before labels: a header that folds to a physical
    column resolves to the first such column, whatever the labels say. *)
Lemma resolveColumn_physical (header : string) (fields : list string)
    (meta : gmap string (list string)) (f : string) :
  find (λ f, EqualFold f (TrimSpace header)) fields = Some f →
  resolveColumn header fields meta = f.
Proof. intros Hf. unfold resolveColumn. by rewrite Hf. Qed.

(** A header that resolves to nothing matches no physical name, and its
    lowered form is no lowered label of a named column. *)
Lemma resolveColumn_none (header : string) (fields : list string)
    (meta : gmap string (list string)) :
  "" ∉ fields → meta !! "" = None →
  resolveColumn header fields meta = "" →
  Forall (λ f, EqualFold f (TrimSpace header) = false) fields
  ∧ ∀ col labels label, meta !! col = Some labels → label ∈ labels →
      ToLower label ≠ ToLower (TrimSpace header).
Proof.
  intros Hf Hm. unfold resolveColumn.
  destruct (find (λ f, EqualFold f (TrimSpace header)) fields) as [f|] eqn:Hfind.
  { intros ->. apply find_some in Hfind as [Hin _].
    exfalso. apply Hf. by apply list_elem_of_In. }
  destruct (find _ (range meta)) as [[col ls]|] eqn:Hlab.
  { intros ->. apply find_some in Hlab as [Hin _].
    apply list_elem_of_In in Hin. rewrite (range_perm _ meta) in Hin.
    apply elem_of_map_to_list in Hin. congruence. }
  intros _. split.
  - apply Forall_forall. intros f Hin.
    apply list_elem_of_In in Hin.
    pose proof (find_none _ _ Hfind f Hin) as Hn. exact Hn.
  - intros col labels label Hcol Hin Heq.
    assert ((col, labels) ∈ range meta) as Hr.
    { rewrite (range_perm _ meta). by apply elem_of_map_to_list. }
    apply list_elem_of_In in Hr.
    pose proof (find_none _ _ Hlab _ Hr) as Hn. simpl in Hn.
    assert (existsb (λ l, String.eqb (ToLower l) (ToLower (TrimSpace header))) labels = true)
      as Hex.
    { apply existsb_exists. exists label. split; [by apply list_elem_of_In|].
      by apply String.eqb_eq. }
    congruence.
Qed.

(** The alias table has an entry for a key exactly when some alias,
    trimmed and lowered, is that key: aliases are looked up before any
    column name. *)
Lemma aliasMapOf_None (aliases : gmap string string) (key : string) :
  aliasMapOf aliases !! key = None
  ↔ ∀ k v, aliases !! k = Some v → ToLower (TrimSpace k) ≠ key.
Proof.
  unfold aliasMapOf.
  assert (∀ (l : list (string * string)) (m : gmap string string),
            foldl (λ m e, <[ToLower (TrimSpace e.1) := TrimSpace e.2]> m) m l !! key = None
            ↔ m !! key = None ∧ Forall (λ e, ToLower (TrimSpace e.1) ≠ key) l) as Hfold.
  { induction l as [|e l IH]; intros m; simpl.
    - split; [intros Hm; by split | by intros [Hm _]].
    - rewrite IH, Forall_cons, lookup_insert_None. tauto. }
  rewrite Hfold, lookup_empty, Forall_forall. split.
  - intros [_ Hall] k v Hkv. apply (Hall (k, v)).
    rewrite (range_perm _ aliases). by apply elem_of_map_to_list.
  - intros Hall. split; [reflexivity|]. intros [k v] Hin.
    rewrite (range_perm _ aliases) in Hin. apply elem_of_map_to_list in Hin.
    by apply (Hall k v).
Qed.

End ImportFacts.


Section C6_at_inputs.
#[local] Existing Instance Concrete.asciiLib.
#[local] Existing Instance Concrete.asciiEngine.
Import Concrete.

Example import_header_resolves :
  (resolveHeader ["姓名"; " AGE "] (aliasMapOf ∅) (physicalColumns "patients" clinic)
     (catalogLabels "patients" clinic) false)
  = (["name"; "age"], []).
Proof. by vm_compute. Qed.


End C6_at_inputs.

(** ** Insert *)

Section InsertFacts.
Context `{G : GoLib} `{E : SqlEngine}.

Lemma range_lookup {A} (m : gmap string A) (k : string) (a : A) :
  (k, a) ∈ range m ↔ m !! k = Some a.
Proof. rewrite (range_perm _ m). apply elem_of_map_to_list. Qed.

(** The loop stops with an error as soon as one visited column lacks a
    required value; the error is about that column or about one visited
    before it. *)
Lemma prepareLoop_required (meta : gmap string FieldDefinition)
    (data : gmap string any) (entries : list (string * FieldDefinition))
    (acc : gmap string any) :
  Forall (λ e, meta !! e.1 = Some e.2) entries →
  Exists (λ e, lacksRequired meta data e.1 = true) entries →
  ∃ e, prepareLoop data entries true acc = Err e
       ∧ match e with
         | ErrRequired c => lacksRequired meta data c = true
         | ErrField c _ => failsCoercion meta data c = true
         | _ => False
         end.
Proof.
  intros Hmeta Hex. revert acc.
  induction entries as [|[name def] rest IH]; intros acc.
  { by apply Exists_nil in Hex. }
  apply Forall_cons in Hmeta as [Hhd Hmeta]. simpl in Hhd.
  simpl.
  assert (lacksRequired meta data name = true
          → data !! name = None → AllowNull def = false) as Hnone.
  { unfold lacksRequired. rewrite Hhd. intros Hl _.
    apply andb_true_iff in Hl as [Hl _]. by destruct (AllowNull def). }
  destruct (data !! name) as [v|] eqn:Hv.
  - destruct (convertValue (TypeHint def) v) as [r|err] eqn:Hc.
    + assert (Exists (λ e, lacksRequired meta data e.1 = true) rest
              ∨ (r = Nil ∧ AllowNull def = false)) as [Hrest|[-> Hreq]].
      { apply Exists_cons in Hex as [Hl|Hl]; [|by left].
        right. simpl in Hl. unfold lacksRequired in Hl.
        rewrite Hhd, Hv, Hc in Hl. apply andb_true_iff in Hl as [Hl1 Hl2].
        destruct r; try done. by destruct (AllowNull def). }
      * destruct r; try (by apply IH);
          destruct (AllowNull def) eqn:Ha; simpl; try (by apply IH).
        exists (ErrRequired name). split; [done|].
        unfold lacksRequired. by rewrite Hhd, Hv, Hc, Ha.
      * rewrite Hreq. simpl. exists (ErrRequired name). split; [done|].
        unfold lacksRequired. by rewrite Hhd, Hv, Hc, Hreq.
    + exists (ErrField name err). split; [done|].
      unfold failsCoercion. by rewrite Hhd, Hv, Hc.
  - destruct (AllowNull def) eqn:Ha; simpl.
    + apply IH; [done|]. apply Exists_cons in Hex as [Hl|Hl]; [|done].
      simpl in Hl. specialize (Hnone Hl eq_refl). congruence.
    + exists (ErrRequired name). split; [done|].
      unfold lacksRequired. by rewrite Hhd, Hv, Ha.
Qed.

(** The loop reads the payload at the visited columns only. *)
Lemma prepareLoop_ext (data1 data2 : gmap string any)
    (entries : list (string * FieldDefinition)) (isInsert : bool)
    (acc : gmap string any) :
  Forall (λ e, data1 !! e.1 = data2 !! e.1) entries →
  prepareLoop data1 entries isInsert acc = prepareLoop data2 entries isInsert acc.
Proof.
  intros Hagree. revert acc.
  induction Hagree as [|[name def] rest Hhd _ IH]; intros acc; [reflexivity|].
  simpl in *. rewrite Hhd.
  destruct (data2 !! name) as [v|]; [|by rewrite IH].
  destruct (convertValue (TypeHint def) v) as [[]|]; by rewrite ?IH.
Qed.

(** What the loop keeps is keyed by visited columns. *)
Lemma prepareLoop_keys (data : gmap string any)
    (entries : list (string * FieldDefinition)) (isInsert : bool)
    (acc clean : gmap string any) (k : string) :
  prepareLoop data entries isInsert acc = Ok clean →
  is_Some (clean !! k) → is_Some (acc !! k) ∨ k ∈ entries.*1.
Proof.
  revert acc. induction entries as [|[name def] rest IH]; intros acc; simpl.
  { intros [= ->]. by left. }
  assert (∀ acc', prepareLoop data rest isInsert acc' = Ok clean →
                  is_Some (clean !! k) →
                  (is_Some (acc' !! k) → is_Some (acc !! k) ∨ k = name) →
                  is_Some (acc !! k) ∨ k ∈ name :: rest.*1) as Hstep.
  { intros acc' Hrun Hk Hacc. destruct (IH acc' Hrun Hk) as [Ha|Hin].
    - destruct (Hacc Ha) as [?| ->]; [by left | right; constructor].
    - right. by constructor. }
  destruct (data !! name) as [v|].
  - destruct (convertValue (TypeHint def) v) as [r|]; [|done].
    destruct r;
      try (intros Hrun Hk; apply (Hstep _ Hrun Hk);
           rewrite lookup_insert_is_Some; intros [->|[_ ?]]; by auto).
    destruct (negb (AllowNull def)); [done|].
    intros Hrun Hk. apply (Hstep _ Hrun Hk). auto.
  - destruct (isInsert && negb (AllowNull def)); [done|].
    intros Hrun Hk. apply (Hstep _ Hrun Hk). auto.
Qed.

Lemma stripKeys_lookup (data : gmap string any) (k : string) :
  stripKeys data !! k = if housekeeping k then None else data !! k.
Proof.
  unfold stripKeys, housekeeping.
  destruct (String.eqb_spec k "id") as [->|H1].
  { by rewrite lookup_delete_ne, lookup_delete_ne, lookup_delete_eq. }
  destruct (String.eqb_spec k "created_at") as [->|H2].
  { by rewrite lookup_delete_ne, lookup_delete_eq. }
  destruct (String.eqb_spec k "updated_at") as [->|H3];
    [by rewrite lookup_delete_eq|].
  simpl. by rewrite !lookup_delete_ne.
Qed.

Lemma declaredOnly_lookup (meta : gmap string FieldDefinition)
    (data : gmap string any) (k : string) :
  is_Some (meta !! k) → declaredOnly meta data !! k = data !! k.
Proof.
  intros Hk. unfold declaredOnly.
  destruct (data !! k) as [v|] eqn:Hv.
  - by apply map_lookup_filter_Some.
  - apply map_lookup_filter_None. by left.
Qed.

Lemma prepareDataWithMeta_declaredOnly (meta : gmap string FieldDefinition)
    (data : gmap string any) (isInsert : bool) :
  prepareDataWithMeta (stripKeys (declaredOnly meta data)) meta isInsert
  = prepareDataWithMeta (stripKeys data) meta isInsert.
Proof.
  apply prepareLoop_ext. apply Forall_forall. intros [k def] Hin.
  apply range_lookup in Hin. simpl.
  rewrite !stripKeys_lookup. destruct (housekeeping k); [reflexivity|].
  apply declaredOnly_lookup. by rewrite Hin.
Qed.

Lemma InsertRow_run (table : string) (data : gmap string any) (db : DB) :
  InsertRow table data db =
    match prepareDataWithMeta (stripKeys data) (declared table db) true with
    | Err e => (logged listColumnsSQL db, Err e)
    | Ok clean =>
        Exec (InsertInto table (range clean).*1 (range clean).*2)
          (logged listColumnsSQL db)
    end.
Proof.
  unfold InsertRow, prepareData, bind. rewrite listColumns_run.
  unfold declared.
  destruct (prepareDataWithMeta (stripKeys data) (metaMapOf (catalogFields table db)) true);
    reflexivity.
Qed.

End InsertFacts.

Section StoredFacts.
Context `{G : GoLib} `{E : SqlEngine}.

(** A column of the cleaned map is a column of the payload. *)
Lemma prepareLoop_payload (data : gmap string any)
    (entries : list (string * FieldDefinition)) (isInsert : bool)
    (acc clean : gmap string any) (k : string) :
  prepareLoop data entries isInsert acc = Ok clean →
  is_Some (clean !! k) → is_Some (acc !! k) ∨ is_Some (data !! k).
Proof.
  revert acc. induction entries as [|[name def] rest IH]; intros acc; simpl.
  { intros [= ->]. by left. }
  intros Hrun Hk.
  destruct (data !! name) as [v|] eqn:Hv.
  - destruct (convertValue (TypeHint def) v) as [r|] eqn:Hc; [|done].
    assert (∀ acc', prepareLoop data rest isInsert acc' = Ok clean →
                    (is_Some (acc' !! k) → is_Some (acc !! k) ∨ k = name) →
                    is_Some (acc !! k) ∨ is_Some (data !! k)) as Hstep.
    { intros acc' Hrun' Hacc. destruct (IH acc' Hrun' Hk) as [Ha|Hd]; [|by right].
      destruct (Hacc Ha) as [? | ->]; [by left|]. right. by rewrite Hv. }
    assert (∀ c, prepareLoop data rest isInsert (<[name := c]> acc) = Ok clean →
                 is_Some (acc !! k) ∨ is_Some (data !! k)) as Hput.
    { intros c Hrun'. apply (Hstep _ Hrun').
      destruct (decide (k = name)) as [->|Hne]; [by right|].
      rewrite lookup_insert_ne by done. by left. }
    destruct r; try (by eapply Hput).
    destruct (negb (AllowNull def)); [done|]. apply (Hstep _ Hrun). by left.
  - destruct (isInsert && negb (AllowNull def)); [done|]. by apply IH.
Qed.

Lemma zipped_key {A B} (ks : list A) (vs : list B) (k : A) :
  k ∈ (zip ks vs).*1 → k ∈ ks.
Proof.
  revert vs. induction ks as [|a ks IH]; intros [|v vs]; simpl;
    try (by intros ?%elem_of_nil).
  intros [->|Hin]%elem_of_cons; [by left|]. right. by eapply IH.
Qed.

(** A successful insert, step by step: the payload without the
    housekeeping keys is cleaned, and the engine stores the row it builds
    from the cleaned columns and nothing else. *)
Lemma InsertRow_stores (table : string) (data : gmap string any) (db db' : DB) (id : Z) :
  InsertRow table data db = (db', Ok id) →
  ∃ clean svals t t',
    prepareDataWithMeta (stripKeys data) (declared table db) true = Ok clean
    ∧ bind_values (range clean).*2 = Ok svals
    ∧ tables db !! table = Some t
    ∧ insert_one (clock db) t (list_to_map (zip (range clean).*1 svals)) = Ok (t', id)
    ∧ tables db' = <[table := t']> (tables db)
    ∧ table_meta db' = table_meta db ∧ column_meta db' = column_meta db
    ∧ trace db'
      = trace db ++ [listColumnsSQL;
                     sqlText (InsertInto table (range clean).*1 (range clean).*2)].
Proof.
  rewrite InsertRow_run.
  destruct (prepareDataWithMeta _ _ _) as [clean|e] eqn:Hrun; [|done].
  unfold Exec. destruct (run _ _) as [[db2 z]|e] eqn:Hexec; [|done].
  intros [= <- <-]. revert Hexec. cbn [run]. cbn [tables logged with_trace].
  destruct (range clean).*1 as [|k ks] eqn:Hks; [done|]. rewrite <- Hks.
  destruct (tables db !! table) as [t|] eqn:Ht; [|done].
  destruct (bind_values _) as [svals|] eqn:Hvals; [|done].
  destruct (forallb _ _); [|done].
  cbn [clock logged with_trace].
  destruct (insert_one _ _ _) as [[t' id']|] eqn:Hins; [|done].
  intros [= <- <-]. exists clean, svals, t, t'.
  repeat split; try done. cbn. by rewrite <- app_assoc.
Qed.

End StoredFacts.

(** C5 (amended). When a column the catalog declares not-nullable is
    missing from the insert payload, or present with a value that coerces
    to null, the insert fails and writes nothing: the only statement sent
    is the read of the catalog.  The error is the missing-required-field
    error of such a column, unless the loop over the catalogued columns
    (whose order is not fixed) first meets a column whose payload value
    does not coerce: then it is the invalid-value error of that column.
    Payload keys that no declared column has are ignored, in every
    insert: the insert does the same, to the database and in its result,
    with them removed.  They are never stored: a successful insert
    changes the one table only, by the row the engine builds from the
    columns named in the INSERT statement, and each of those is a
    declared column that the payload has. *)
Theorem C5_insert_checks_required_columns `{G : GoLib} `{E : SqlEngine}
    (table : string) (data : gmap string any) (db : DB) :
  let meta := declared table db in
  (∀ name, lacksRequired meta (stripKeys data) name = true →
     ∃ e, InsertRow table data db = (logged listColumnsSQL db, Err e)
          ∧ match e with
            | ErrRequired c => lacksRequired meta (stripKeys data) c = true
            | ErrField c _ => failsCoercion meta (stripKeys data) c = true
            | _ => False
            end)
  ∧ InsertRow table (declaredOnly meta data) db = InsertRow table data db
  ∧ ∀ db' id, InsertRow table data db = (db', Ok id) →
      ∃ (keys : list string) (vals : list any) (svals : list sqlval) (t t' : Table),
        trace db' = trace db ++ [listColumnsSQL; sqlText (InsertInto table keys vals)]
        ∧ bind_values vals = Ok svals
        ∧ tables db !! table = Some t
        ∧ insert_one (clock db) t (list_to_map (zip keys svals)) = Ok (t', id)
        ∧ tables db' = <[table := t']> (tables db)
        ∧ table_meta db' = table_meta db ∧ column_meta db' = column_meta db
        ∧ Forall (λ k, is_Some (meta !! k) ∧ is_Some (data !! k)
                       ∧ housekeeping k = false) keys
        ∧ ∀ k, is_Some ((list_to_map (zip keys svals) : Row) !! k) → k ∈ keys.
Proof.
  intros meta. split; [|split].
  - intros name Hlack.
    assert (∃ def, meta !! name = Some def) as [def Hdef].
    { unfold lacksRequired in Hlack. destruct (meta !! name); [eauto | done]. }
    destruct (prepareLoop_required meta (stripKeys data) (range meta) ∅) as (e & He & Hkind).
    + apply Forall_forall. intros [k d] Hin. by apply range_lookup in Hin.
    + apply Exists_exists. exists (name, def). split; [by apply range_lookup | done].
    + exists e. split; [|exact Hkind].
      rewrite InsertRow_run. fold meta. unfold prepareDataWithMeta. by rewrite He.
  - rewrite !InsertRow_run. fold meta.
    by rewrite prepareDataWithMeta_declaredOnly.
  - intros db' id Hrun.
    destruct (InsertRow_stores _ _ _ _ _ Hrun)
      as (clean & svals & t & t' & Hclean & Hvals & Ht & Hins & Htab & Hm & Hc & Htr).
    exists (range clean).*1, (range clean).*2, svals, t, t'.
    repeat (split; [done|]). split.
    + apply Forall_forall. intros k Hk.
      apply list_elem_of_fmap in Hk as ([k' v] & -> & Hin). simpl.
      apply range_lookup in Hin.
      assert (is_Some (clean !! k')) as Hsome by (by rewrite Hin).
      unfold prepareDataWithMeta in Hclean. split; [|].
      * destruct (prepareLoop_keys _ _ _ _ _ k' Hclean Hsome) as [Hacc|Hdecl].
        { rewrite lookup_empty in Hacc. by destruct Hacc. }
        apply list_elem_of_fmap in Hdecl as ([k2 d] & -> & Hd).
        apply range_lookup in Hd. simpl. fold meta in Hd. by rewrite Hd.
      * destruct (prepareLoop_payload _ _ _ _ _ k' Hclean Hsome) as [Hacc|Hdata].
        { rewrite lookup_empty in Hacc. by destruct Hacc. }
        rewrite stripKeys_lookup in Hdata.
        destruct (housekeeping k'); [by destruct Hdata|done].
    + intros k Hk. apply (zipped_key _ svals).
      destruct (decide (k ∈ (zip (range clean).*1 svals).*1)) as [?|Hno]; [done|].
      apply not_elem_of_list_to_map_1 in Hno.
      rewrite Hno in Hk. by destruct Hk.
Qed.

Section C5_at_inputs.
#[local] Existing Instance Concrete.asciiLib.
#[local] Existing Instance Concrete.asciiEngine.
Import Concrete.

Lemma C5_insert_checks_required_columns_witness :
  lacksRequired (declared "patients" clinic)
    (stripKeys (<["age" := Str "40"]> (<["name" := Str "  "]> ∅))) "name" = true
  ∧ ∃ e, InsertRow "patients" (<["age" := Str "40"]> (<["name" := Str "  "]> ∅)) clinic
         = (logged listColumnsSQL clinic, Err e)
         ∧ match e with
           | ErrRequired c =>
               lacksRequired (declared "patients" clinic)
                 (stripKeys (<["age" := Str "40"]> (<["name" := Str "  "]> ∅))) c = true
           | ErrField c _ =>
               failsCoercion (declared "patients" clinic)
                 (stripKeys (<["age" := Str "40"]> (<["name" := Str "  "]> ∅))) c = true
           | _ => False
           end.
Proof.
  assert (lacksRequired (declared "patients" clinic)
            (stripKeys (<["age" := Str "40"]> (<["name" := Str "  "]> ∅))) "name" = true)
    as Hlack.
  { vm_compute. reflexivity. }
  split; [exact Hlack|].
  exact (proj1 (C5_insert_checks_required_columns "patients"
                  (<["age" := Str "40"]> (<["name" := Str "  "]> ∅)) clinic) "name" Hlack).
Defined.

(** An insert that succeeds although its payload has a key no declared
    column has: the key [shoe] is left out of the statement. *)
Example insert_ignores_undeclared_key :
  trace (after (InsertRow "patients"
                  (<["shoe" := Str "42"]> (<["name" := Str "Zhao"]> ∅))) clinic)
  = trace clinic ++ [listColumnsSQL; "INSERT INTO patients (name) VALUES (?)"]
  ∧ InsertRow "patients" (<["shoe" := Str "42"]> (<["name" := Str "Zhao"]> ∅)) clinic
    = InsertRow "patients" (<["name" := Str "Zhao"]> ∅) clinic.
Proof. split; vm_compute; reflexivity. Qed.

Example insert_blank_required_name :
  (InsertRow "patients" (<["age" := Str "40"]> (<["name" := Str "  "]> ∅)) clinic).2
  = Err (ErrRequired "name").
Proof. vm_compute. reflexivity. Qed.

(** C5 as stated fails: the required column [name] is missing from the
    payload, and the insert fails with the invalid-value error of the
    column [age], which this run of the loop visits first. *)
Lemma C5_other_error_first :
  lacksRequired (declared "patients" clinic) (stripKeys (<["age" := Str "abc"]> ∅)) "name"
  = true
  ∧ (InsertRow "patients" (<["age" := Str "abc"]> ∅) clinic).2
    = Err (ErrField "age" ErrNeedInteger)
  ∧ ¬ (∃ c, (InsertRow "patients" (<["age" := Str "abc"]> ∅) clinic).2
            = Err (ErrRequired c)).
Proof.
  split; [vm_compute; reflexivity|]. split; [vm_compute; reflexivity|].
  intros [c Hc]. vm_compute in Hc. discriminate Hc.
Qed.

End C5_at_inputs.

(** ** Query *)

Section QueryFacts.
Context `{G : GoLib} `{E : SqlEngine}.

Lemma insert_by_length {A} (le : A → A → bool) (x : A) (l : list A) :
  length (insert_by le x l) = S (length l).
Proof.
  induction l as [|y l IH]; [reflexivity|].
  simpl. destruct (le x y); simpl; by rewrite ?IH.
Qed.

Lemma sort_by_length {A} (le : A → A → bool) (l : list A) :
  length (sort_by le l) = length l.
Proof.
  induction l as [|x l IH]; [reflexivity|].
  simpl. by rewrite insert_by_length, IH.
Qed.

Lemma insert_by_perm {A} (le : A → A → bool) (x : A) (l : list A) :
  insert_by le x l ≡ₚ x :: l.
Proof.
  induction l as [|y l IH]; [reflexivity|].
  simpl. destruct (le x y); [reflexivity|].
  rewrite IH. apply Permutation_swap.
Qed.

(** Sorting rearranges and neither drops nor invents a row. *)
Lemma sort_by_perm {A} (le : A → A → bool) (l : list A) :
  sort_by le l ≡ₚ l.
Proof.
  induction l as [|x l IH]; [reflexivity|].
  simpl. by rewrite insert_by_perm, IH.
Qed.

(** [Query] on an existing table: three reads, the count and the page
    both taken from the rows the one condition selects. *)
Lemma Query_run (table : string) (opts : QueryOptions) (db : DB) (t : Table) :
  tables db !! table = Some t →
  let columns := physicalColumns table db in
  let where_ := where_text (buildWhere opts columns) in
  let offset := wrap64 ((pageOf opts - 1) * pageSizeOf opts) in
  Query table opts db =
    (with_trace db
       (trace db ++
        [tableInfoSQL table;
         "SELECT COUNT(1) FROM " +:+ table +:+ " " +:+ where_;
         "SELECT * FROM " +:+ table +:+ " " +:+ where_ +:+ " "
           +:+ (orderOf opts columns).1.1
           +:+ " LIMIT " +:+ itoa (pageSizeOf opts) +:+ " OFFSET " +:+ itoa offset]),
     Ok (map stripStamps (paged (pageSizeOf opts) offset (sorted table opts db t)),
         Z.of_nat (length (population table opts db t)))).
Proof.
  intros Ht columns where_ offset.
  unfold Query, bind. rewrite tableColumns_run.
  fold columns. rewrite buildFilters_where. fold where_.
  unfold Query_. simpl. rewrite Ht.
  destruct (orderOf opts columns) as [[order sortCol] sortDesc] eqn:Ho.
  simpl. rewrite Ht. unfold ret, sorted, population. fold columns. rewrite Ho.
  simpl. unfold logged, with_trace. simpl. rewrite <- !app_assoc. reflexivity.
Qed.

End QueryFacts.


Section C8_at_inputs.
#[local] Existing Instance Concrete.asciiLib.
#[local] Existing Instance Concrete.asciiEngine.
Import Concrete.


(** Page 2 of size 10 of the 25 visits in the default order (key,
    descending): the keys 15 down to 6. *)
Example second_page_of_visits :
  match (Query "visits" secondPage visits).2 with
  | Ok (rows, total) => (map row_id rows, total)
  | Err _ => ([], 0)
  end = ([15; 14; 13; 12; 11; 10; 9; 8; 7; 6], 25).
Proof. vm_compute. reflexivity. Qed.

Example total_on_every_page :
  map (λ p, totalOf (Query "visits" (with_paging secondPage p 10) visits).2) [1; 2; 3; 4]
  = [Some 25; Some 25; Some 25; Some 25].
Proof. vm_compute. reflexivity. Qed.

End C8_at_inputs.

(** ** Schema definition *)

Section SchemaFacts.
Context `{G : GoLib} `{E : SqlEngine}.

Lemma createColumns_unsupported (fields : list FieldDefinition) :
  Exists (λ f, mapType (TypeHint f) = "") fields →
  ∃ hint, createColumns fields = Err (ErrUnsupportedType hint) ∧ mapType hint = "".
Proof.
  induction fields as [|f rest IH]; intros Hex.
  { by apply Exists_nil in Hex. }
  simpl. destruct (String.eqb_spec (mapType (TypeHint f)) "") as [Hf|Hf].
  { by exists (TypeHint f). }
  apply Exists_cons in Hex as [?|Hrest]; [done|].
  destruct (IH Hrest) as (hint & -> & Hhint). by exists hint.
Qed.

(** [CreateTable] with a field whose hint [mapType] does not know fails
    with the unsupported-type error before any statement is sent: the
    database, trace included, is unchanged. *)
Lemma CreateTable_unsupported (schema : TableSchema) (db : DB) :
  schemaName schema ≠ "" →
  Exists (λ f, mapType (TypeHint f) = "") (Fields schema) →
  ∃ hint, CreateTable schema db = (db, Err (ErrUnsupportedType hint))
          ∧ mapType hint = "".
Proof.
  intros Hname Hex. unfold CreateTable.
  destruct (String.eqb_spec (schemaName schema) "") as [?|_]; [done|].
  destruct (Fields schema) as [|f rest] eqn:Hf.
  { by apply Exists_nil in Hex. }
  change (length (f :: rest) =? 0)%nat with false. cbv iota.
  destruct (createColumns_unsupported _ Hex) as (hint & -> & Hhint).
  by exists hint.
Qed.

Lemma run_AlterAddColumn_error (table : string) (col : Column) (db : DB) (e : error) :
  run (AlterAddColumn table col) db = Err e → ∃ msg, e = ErrEngine msg.
Proof.
  simpl. destruct (tables db !! table) as [t|]; [|intros [= <-]; by eexists].
  destruct (slices_Contains (column_names t) (col_name col));
    [intros [= <-]; by eexists|].
  destruct (col_notnull col && is_null (default_value (clock db) col));
    [intros [= <-]; by eexists | done].
Qed.

Lemma alterColumns_error (table : string) (fields : list FieldDefinition)
    (db : DB) (e : error) :
  (alterColumns table fields db).2 = Err e → ∃ msg, e = ErrEngine msg.
Proof.
  revert db. induction fields as [|f rest IH]; intros db; [done|].
  simpl. unfold bind, Exec.
  destruct (run _ (logged _ db)) as [[db2 id]|e'] eqn:Hrun.
  - apply IH.
  - simpl. intros [= <-]. by eapply run_AlterAddColumn_error.
Qed.

Lemma insertMeta_ok (table : string) (fields : list FieldDefinition) (order : Z)
    (db : DB) :
  (insertMeta table fields order db).2 = Ok tt.
Proof.
  revert order db. induction fields as [|f rest IH]; intros order db; [done|].
  simpl. unfold bind, Exec. simpl. apply IH.
Qed.

(** [AddColumns] has no unsupported-type error: whatever it reports comes
    from the engine. *)
Lemma AddColumns_error (table : string) (fields : list FieldDefinition)
    (db : DB) (e : error) :
  (AddColumns table fields db).2 = Err e → ∃ msg, e = ErrEngine msg.
Proof.
  unfold AddColumns, bind.
  destruct (alterColumns table fields db) as [db1 [[]|e1]] eqn:Halter.
  - unfold Query_, transaction.
    pose proof (insertMeta_ok table fields
                  (max_order (meta_of table (logged
                     "SELECT COALESCE(MAX(display_order),0) FROM column_meta WHERE table_name=?"
                     db1)) + 1)
                  (logged
                     "SELECT COALESCE(MAX(display_order),0) FROM column_meta WHERE table_name=?"
                     db1)) as Hm.
    destruct (insertMeta _ _ _ _) as [db2 [[]|e2]]; simpl in *; [done|done].
  - simpl. intros [= <-]. apply (alterColumns_error table fields db).
    by rewrite Halter.
Qed.

(** The first thing [AddColumns] does with a field is to send the ALTER
    statement for it, with whatever [mapType] gave as the type. *)
Lemma AddColumns_first_statement (table : string) (f : FieldDefinition)
    (rest : list FieldDefinition) (db : DB) (t : Table) :
  tables db !! table = Some t →
  slices_Contains (column_names t) (Name f) = false →
  AllowNull f = true →
  ∃ db1,
    alterColumns table (f :: rest) db = alterColumns table rest db1
    ∧ trace db1 = trace db
                  ++ [sqlText (AlterAddColumn table (fieldColumn f (mapType (TypeHint f))))]
    ∧ ∃ t1, tables db1 !! table = Some t1
            ∧ t_columns t1 = t_columns t ++ [fieldColumn f (mapType (TypeHint f))].
Proof.
  intros Ht Hfresh Hnull. simpl. unfold bind, Exec. simpl.
  rewrite Ht, Hfresh, Hnull. simpl.
  eexists. split; [reflexivity|]. split; [reflexivity|].
  eexists. split; [apply lookup_insert_eq | reflexivity].
Qed.

End SchemaFacts.

Section C3_at_inputs.
#[local] Existing Instance Concrete.asciiLib.
#[local] Existing Instance Concrete.asciiEngine.
Import Concrete.

(** C3 (the code at the failing input). The hint [grade] is not in the
    table of [mapType].  [CreateTable] rejects a schema with such a field
    and sends nothing; [AddColumns] does not: it sends the ALTER statement
    with an empty type, the engine adds the column, the catalog records
    the hint, and the call succeeds.  A later insert into the column
    succeeds as well, so the hint is not reported at row-write time
    either. *)
Theorem C3_AddColumns_accepts_unknown_hint :
  let f := field "score" [] "grade" true in
  let db' := after (AddColumns "patients" [f]) clinic in
  mapType "grade" = ""
  ∧ CreateTable {| schemaName := "exams"; DisplayName := ""; Description := "";
                   Fields := [f] |} clinic
    = (clinic, Err (ErrUnsupportedType "grade"))
  ∧ (AddColumns "patients" [f] clinic).2 = Ok tt
  ∧ trace db' = trace clinic
                ++ ["ALTER TABLE patients ADD COLUMN score ";
                    "SELECT COALESCE(MAX(display_order),0) FROM column_meta WHERE table_name=?";
                    "INSERT INTO column_meta(table_name, column_name, labels, type_hint, allow_null, display_order) VALUES(?,?,?,?,?,?)"]
  ∧ physicalColumns "patients" db' = ["name"; "age"; "iop"; "acuity"; "note"; "score"]
  ∧ map TypeHint (catalogFields "patients" db')
    = ["text"; "integer"; "number"; "decimal"; "text"; "grade"]
  ∧ (InsertRow "patients" (<["name" := Str "Qi"]> (<["score" := Str "B+"]> ∅)) db').2
    = Ok 3.
Proof.
  repeat (split; [vm_compute; reflexivity|]). vm_compute. reflexivity.
Qed.

End C3_at_inputs.

(** ** Summary *)

Section SummaryFacts.
Context `{G : GoLib} `{E : SqlEngine}.

(** The hint [Summary] tests: the lowered hint of the first catalogued
    field with the column's name, [""] when there is none. *)
Lemma Summary_gate (table column : string) (db : DB) (f : FieldDefinition) :
  find (λ c, String.eqb (Name c) column) (catalogFields table db) = Some f →
  ToLower (TypeHint f) ≠ "" →
  numericHint (ToLower (TypeHint f)) = false →
  Summary table column db = (logged listColumnsSQL db, Err (ErrNotNumeric column)).
Proof.
  intros Hfind Hne Hnum. unfold Summary, bind. rewrite listColumns_run, Hfind.
  destruct (String.eqb_spec (ToLower (TypeHint f)) "") as [?|_]; [done|].
  by rewrite Hnum.
Qed.

Lemma scanColumn_nulls (vs : list sqlval) :
  Forall (λ v, v = SNull) vs → scanColumn vs = Ok [].
Proof.
  induction 1 as [|v vs -> _ IH]; [reflexivity|]. simpl. by rewrite IH.
Qed.

(** A column that passes the test and holds no non-null value: the
    summary is the count alone. *)
Lemma Summary_no_values (table column : string) (db : DB) (f : FieldDefinition)
    (t : Table) :
  find (λ c, String.eqb (Name c) column) (catalogFields table db) = Some f →
  ToLower (TypeHint f) ≠ "" →
  numericHint (ToLower (TypeHint f)) = true →
  tables db !! table = Some t →
  slices_Contains (column_names t) column = true →
  Forall (λ r, cell r column = SNull) (t_rows t) →
  (Summary table column db).2 = Ok {[ "count" := Float64.zero ]}.
Proof.
  intros Hfind Hne Hnum Ht Hcol Hnull.
  unfold Summary, bind. rewrite listColumns_run, Hfind.
  destruct (String.eqb_spec (ToLower (TypeHint f)) "") as [?|_]; [done|].
  rewrite Hnum. unfold Query_. simpl. rewrite Ht, Hcol.
  rewrite scanColumn_nulls; [reflexivity|].
  apply Forall_forall. intros v Hv.
  apply list_elem_of_In, in_map_iff in Hv as (r & <- & Hr).
  rewrite Forall_forall in Hnull. apply Hnull. by apply list_elem_of_In.
Qed.

End SummaryFacts.

Section C2_at_inputs.
#[local] Existing Instance Concrete.asciiLib.
#[local] Existing Instance Concrete.asciiEngine.
Import Concrete.

(** The statistics of 1, 2, 3, 4. *)
Example statistics_1234 :
  let nums := map Float64.ofInt [1; 2; 3; 4] in
  statistics (Float64.ofInt 1) nums
  = <["count" := Float64.ofInt 4]> (<["sum" := Float64.ofInt 10]>
      (<["average" := Float64.div (Float64.ofInt 5) (Float64.ofInt 2)]>
         (<["max" := Float64.ofInt 4]> (<["min" := Float64.ofInt 1]>
            (<["std" := Float64.sqrt (Float64.div (Float64.ofInt 5) (Float64.ofInt 4))]>
               ∅))))).
Proof. vm_compute. reflexivity. Qed.

(** Which of the hints that [mapType] stores as REAL or INTEGER pass the
    test of [Summary]. *)
Example numericHint_of_stored_numbers :
  map (λ h, (mapType h, numericHint (ToLower h)))
    ["number"; "数值"; "integer"; "int"; "decimal"; "浮点"; "计数"; "布尔"]
  = [("REAL", true); ("REAL", true); ("INTEGER", true); ("INTEGER", true);
     ("REAL", false); ("REAL", false); ("INTEGER", false); ("INTEGER", false)].
Proof. vm_compute. reflexivity. Qed.

(** C2 (the code at the failing input). The column [acuity] of the sample
    table has the hint [decimal], which [mapType] stores as REAL and
    [convertValue] coerces as a number; it holds the value 2.  [Summary]
    refuses it as not numeric.  The integer column [age] is summarised,
    and the number column [iop], which holds no non-null value, gives the
    count alone. *)
Theorem C2_Summary_rejects_decimal :
  mapType "decimal" = "REAL"
  ∧ convertValue "decimal" (Str "2") = Ok (Float64 (Float64.ofInt 2))
  ∧ map (λ r, cell r "acuity")
      (default [] (t_rows <$> (tables clinic !! "patients")))
    = [SReal (Float64.ofInt 2); SNull]
  ∧ (Summary "patients" "acuity" clinic).2 = Err (ErrNotNumeric "acuity")
  ∧ (Summary "patients" "iop" clinic).2 = Ok {[ "count" := Float64.zero ]}
  ∧ (Summary "patients" "age" clinic).2
    = Ok (<["count" := Float64.ofInt 2]> (<["sum" := Float64.ofInt 85]>
            (<["average" := Float64.div (Float64.ofInt 85) (Float64.ofInt 2)]>
               (<["max" := Float64.ofInt 51]> (<["min" := Float64.ofInt 34]>
                  (<["std" := Float64.div (Float64.ofInt 17) (Float64.ofInt 2)]> ∅)))))).
Proof.
  repeat (split; [vm_compute; reflexivity|]). vm_compute. reflexivity.
Qed.

End C2_at_inputs.

(** ** Dropping columns *)

Section DropFacts.
Context `{E : SqlEngine}.

(** A column declared TEXT stores an integer as its decimal text, under
    every engine. *)
Lemma text_column_stores_integer_as_text (z : Z) :
  apply_affinity (affinity_of "TEXT") (SInt z) = SText (itoa z).
Proof. reflexivity. Qed.

Lemma text_column_keeps_text_and_null (s : string) :
  apply_affinity (affinity_of "TEXT") (SText s) = SText s
  ∧ apply_affinity (affinity_of "TEXT") SNull = SNull.
Proof. split; reflexivity. Qed.

End DropFacts.

Section RebuildFacts.
Context `{G : GoLib} `{E : SqlEngine}.

Lemma append_length (a b : string) :
  String.length (a +:+ b) = (String.length a + String.length b)%nat.
Proof. induction a as [|c a IH]; [reflexivity|]. simpl. by rewrite IH. Qed.

Lemma tmp_name_fresh (table suffix : string) : table +:+ "_tmp_" +:+ suffix ≠ table.
Proof.
  intros Heq. apply (f_equal String.length) in Heq.
  rewrite !append_length in Heq. simpl in Heq. lia.
Qed.

Lemma given_lookup (r : Row) (cols : list string) (c : string) :
  c ∈ cols →
  (list_to_map (map (λ c, (c, cell r c)) cols) : Row) !! c = Some (cell r c).
Proof.
  induction cols as [|d cols IH]; [by intros ?%elem_of_nil|].
  intros Hin. simpl.
  destruct (decide (d = c)) as [->|Hne]; [by rewrite lookup_insert_eq|].
  rewrite lookup_insert_ne by done. apply IH.
  apply elem_of_cons in Hin as [->|?]; done.
Qed.

Lemma row_id_rebuilt (keep : list string) (r : Row) : row_id (rebuilt keep r) = row_id r.
Proof. unfold rebuilt, row_id at 1. by rewrite lookup_insert_eq. Qed.

(** The surviving columns of the new row, on top of a finished tail. *)
Lemma build_row_kept (now : string) (td : Table) (given r : Row)
    (keep : list string) (tail : list Column) (base : Row) :
  Forall (λ c, given !! c = Some (cell r c)) keep →
  build_row now td given tail = Ok base →
  build_row now td given (map textColumn keep ++ tail)
  = Ok (foldr (λ c acc, <[c := apply_affinity AffText (cell r c)]> acc) base keep).
Proof.
  intros Hgiven Htail. induction Hgiven as [|c keep Hc _ IH]; [exact Htail|].
  simpl. unfold stored_value. simpl. rewrite Hc, IH. reflexivity.
Qed.

Lemma build_row_rebuilt (now : string) (td : Table) (r : Row) (keep : list string) :
  r !! "id" = Some (SInt (row_id r)) →
  existsb (λ r', row_id r' =? row_id r) (t_rows td) = false →
  build_row now td
    (list_to_map (map (λ c, (c, cell r c)) ((["id"] ++ keep) ++ ["created_at"; "updated_at"])))
    (rebuildColumns keep)
  = Ok (rebuilt keep r).
Proof.
  intros Hid Hfresh.
  set (given := list_to_map _ : Row).
  assert (∀ c, c ∈ (["id"] ++ keep) ++ ["created_at"; "updated_at"] →
               given !! c = Some (cell r c)) as Hgiven.
  { intros c Hc. by apply given_lookup. }
  clearbody given. unfold rebuildColumns.
  change ([idColumn] ++ map textColumn keep ++ ?l)
    with (idColumn :: (map textColumn keep ++ l)).
  cbn [build_row]. unfold stored_value at 1. cbn [col_rowid idColumn col_name].
  rewrite (Hgiven "id") by (repeat constructor).
  assert (cell r "id" = SInt (row_id r)) as Hcell by (unfold cell; by rewrite Hid).
  rewrite Hcell. cbn [to_numeric]. rewrite Hfresh.
  erewrite build_row_kept.
  - reflexivity.
  - apply Forall_forall. intros c Hc. apply Hgiven.
    apply elem_of_app. left. by apply elem_of_cons; right.
  - cbn [build_row]. unfold stored_value. cbn.
    rewrite (Hgiven "created_at"), (Hgiven "updated_at").
    + reflexivity.
    + apply elem_of_app. right. repeat constructor.
    + apply elem_of_app. right. repeat constructor.
Qed.

Lemma existsb_row_id (rows : list Row) (z : Z) :
  existsb (λ r', row_id r' =? z) rows = false ↔ z ∉ map row_id rows.
Proof.
  induction rows as [|r rows IH]; simpl.
  - split; [intros _ ?%elem_of_nil; done | done].
  - rewrite orb_false_iff, IH, not_elem_of_cons, Z.eqb_neq.
    split; intros [Hne Hnot]; split; auto.
Qed.

(** The INSERT ... SELECT of the rebuild, row by row. *)
Lemma insert_all_rebuilt (now : string) (keep : list string)
    (rows done : list Row) (seq : Z) :
  NoDup (map row_id (done ++ rows)) →
  Forall (λ r : Row, r !! "id" = Some (SInt (row_id r))) rows →
  ∃ seq',
    insert_all now
      {| t_columns := rebuildColumns keep; t_rows := map (rebuilt keep) done;
         t_seq := seq |}
      (map (λ r : Row,
              list_to_map (map (λ c, (c, cell r c))
                             ((["id"] ++ keep) ++ ["created_at"; "updated_at"])))
         rows)
    = Ok {| t_columns := rebuildColumns keep;
            t_rows := map (rebuilt keep) (done ++ rows); t_seq := seq' |}.
Proof.
  revert done seq. induction rows as [|r rows IH]; intros done seq Hnodup Hids.
  { exists seq. by rewrite app_nil_r. }
  apply Forall_cons in Hids as [Hid Hids].
  cbn [map insert_all]. unfold insert_one. cbn [t_columns t_rows t_seq].
  rewrite build_row_rebuilt; [|exact Hid|].
  - destruct (IH (done ++ [r])
                (Z.max seq
                   (if existsb col_rowid (rebuildColumns keep)
                    then row_id (rebuilt keep r)
                    else Z.max seq (max_id (map (rebuilt keep) done)) + 1)))
      as [seq' Hrest].
    + by rewrite <- app_assoc.
    + exact Hids.
    + exists seq'. rewrite map_app in Hrest. cbn [map] in Hrest.
      rewrite Hrest. by rewrite <- app_assoc.
  - apply existsb_row_id. cbn [t_rows]. rewrite map_map.
    rewrite (map_ext _ row_id) by (intros; apply row_id_rebuilt).
    rewrite map_app in Hnodup. apply NoDup_app in Hnodup as (_ & Hdisj & _).
    intros Hin. apply (Hdisj _ Hin). simpl. constructor.
Qed.

Lemma Exec_run (s : stmt) (db : DB) :
  Exec s db = match run s (logged (sqlText s) db) with
              | Ok (db2, id) => (db2, Ok id)
              | Err e => (logged (sqlText s) db, Err e)
              end.
Proof. reflexivity. Qed.

Lemma kept_columns (table : string) (columns : list string) (db : DB) (t : Table) :
  tables db !! table = Some t → managed t →
  let keep := kept table columns db in
  NoDup (map col_name (rebuildColumns keep))
  ∧ Forall (λ c, c ∈ column_names t) ((["id"] ++ keep) ++ ["created_at"; "updated_at"])
  ∧ Forall (λ c, c ∈ map col_name (rebuildColumns keep))
      ((["id"] ++ keep) ++ ["created_at"; "updated_at"]).
Proof.
  intros Ht (Hnodup & Hhouse & _ & _) keep.
  assert (map col_name (rebuildColumns keep)
          = (["id"] ++ keep) ++ ["created_at"; "updated_at"]) as Hnames.
  { unfold rebuildColumns. rewrite !map_app, map_map. simpl.
    by rewrite map_id. }
  assert (∀ c, c ∈ keep → c ∈ column_names t ∧ housekeeping c = false) as Hkeep.
  { intros c Hc. unfold keep, kept, physicalColumns, tableInfo in Hc. rewrite Ht in Hc.
    apply list_elem_of_filter in Hc as [_ Hc].
    apply list_elem_of_filter in Hc as [Hh Hc]. done. }
  assert (NoDup keep) as Hnk.
  { unfold keep, kept, physicalColumns, tableInfo. rewrite Ht.
    by do 2 apply NoDup_filter. }
  rewrite Hnames. split; [|split].
  - simpl. apply NoDup_cons. split.
    + intros Hin. apply elem_of_app in Hin as [Hin|Hin].
      * by destruct (Hkeep _ Hin) as [_ ?].
      * apply elem_of_cons in Hin as [?|Hin]; [done|].
        by apply list_elem_of_singleton in Hin.
    + apply NoDup_app. split; [exact Hnk|]. split.
      * intros c Hc Hin. destruct (Hkeep _ Hc) as [_ Hh].
        apply elem_of_cons in Hin as [->|Hin]; [done|].
        by apply list_elem_of_singleton in Hin as ->.
      * apply NoDup_cons. split; [|apply NoDup_singleton].
        by intros ?%list_elem_of_singleton.
  - apply Forall_app. split.
    + simpl. apply Forall_cons. split.
      * by apply Forall_cons in Hhouse as [? _].
      * apply Forall_forall. intros c Hc. by apply Hkeep.
    + by apply Forall_cons in Hhouse as [_ ?].
  - by apply Forall_forall.
Qed.

Lemma forallb_contains (names cols : list string) :
  Forall (λ c, c ∈ names) cols → forallb (slices_Contains names) cols = true.
Proof.
  intros Hall. apply forallb_forall. intros c Hc.
  apply slices_Contains_elem. rewrite Forall_forall in Hall.
  apply Hall. by apply list_elem_of_In.
Qed.

(** What [DropColumns] does to a managed table when at least one of the
    named columns exists and the temporary name is free: it succeeds, and
    the table then has the rebuilt columns and, row for row, the rebuilt
    rows; no other table is touched. *)
Lemma DropColumns_rebuilds (now : Z) (table : string) (columns : list string)
    (db : DB) (t : Table) :
  tables db !! table = Some t →
  managed t →
  tables db !! (table +:+ "_tmp_" +:+ itoa now) = None →
  length (kept table columns db) ≠ length (physicalColumns table db) →
  ∃ db' seq,
    DropColumns now table columns db = (db', Ok tt)
    ∧ tables db' =
        <[table := {| t_columns := rebuildColumns (kept table columns db);
                      t_rows := map (rebuilt (kept table columns db)) (t_rows t);
                      t_seq := seq |}]> (tables db).
Proof.
  intros Ht Hmanaged Htmp Hlen.
  destruct (kept_columns table columns db t Ht Hmanaged) as (Hnodup & Hsrc & Hdst).
  destruct Hmanaged as (_ & _ & Hids & Hint).
  set (keep := kept table columns db) in *.
  set (tmp := table +:+ "_tmp_" +:+ itoa now) in *.
  assert (tmp ≠ table) as Hne by apply tmp_name_fresh.
  destruct (insert_all_rebuilt (clock db) keep (t_rows t) [] 0) as [seq Hall];
    [exact Hids | exact Hint |].
  change (map (rebuilt keep) []) with ([] : list Row) in Hall.
  change ([] ++ t_rows t) with (t_rows t) in Hall.
  set (td := {| t_columns := rebuildColumns keep;
                t_rows := map (rebuilt keep) (t_rows t); t_seq := seq |}) in *.
  unfold DropColumns.
  destruct columns as [|c0 cs].
  { exfalso. apply Hlen. unfold keep, kept. f_equal.
    apply filter_all. by apply Forall_forall. }
  change (length (c0 :: cs) =? 0)%nat with false. cbv iota.
  unfold bind at 1. rewrite tableColumns_run.
  fold (kept table (c0 :: cs) db). fold keep.
  apply Nat.eqb_neq in Hlen. rewrite Hlen. fold tmp.
  unfold bind, transaction.
  rewrite Exec_run. cbn [run]. cbn [tables logged with_trace with_tables].
  rewrite Htmp. rewrite bool_decide_eq_true_2 by exact Hnodup.
  rewrite Exec_run. cbn [run]. cbn [tables logged with_trace with_tables].
  rewrite lookup_insert_ne by done. rewrite Ht, lookup_insert_eq.
  rewrite (forallb_contains _ _ Hsrc).
  rewrite (forallb_contains
             (column_names {| t_columns := rebuildColumns keep; t_rows := []; t_seq := 0 |})
             _ Hdst).
  cbn [andb clock logged with_trace with_tables].
  rewrite Hall.
  rewrite Exec_run. cbn [run]. cbn [tables logged with_trace with_tables].
  rewrite lookup_insert_ne by done. rewrite lookup_insert_ne by done. rewrite Ht.
  rewrite Exec_run. cbn [run]. cbn [tables logged with_trace with_tables].
  rewrite lookup_delete_ne by done. rewrite lookup_insert_eq, lookup_delete_eq.
  unfold ret. rewrite Exec_run. cbn [run].
  eexists _, seq. split; [reflexivity|].
  cbn [tables logged with_trace with_tables with_column_meta].
  apply map_eq. intros k.
  destruct (decide (k = table)) as [->|Hk]; [by rewrite !lookup_insert_eq|].
  rewrite !(lookup_insert_ne _ table) by done.
  destruct (decide (k = tmp)) as [->|Hk'].
  - by rewrite lookup_delete_eq, Htmp.
  - rewrite lookup_delete_ne by done. rewrite lookup_delete_ne by done.
    by rewrite !lookup_insert_ne.
Qed.

Lemma rebuilt_lookup (keep : list string) (r : Row) (c : string) :
  housekeeping c = false →
  rebuilt keep r !! c
  = if decide (c ∈ keep) then Some (apply_affinity AffText (cell r c)) else None.
Proof.
  intros Hc. unfold housekeeping in Hc.
  apply orb_false_iff in Hc as [Hc H3]. apply orb_false_iff in Hc as [H1 H2].
  apply String.eqb_neq in H1, H2, H3.
  unfold rebuilt. rewrite lookup_insert_ne by done.
  induction keep as [|k keep IH].
  - destruct (decide (c ∈ [])) as [Hin|_]; [by apply elem_of_nil in Hin|].
    cbn [foldr]. by rewrite !lookup_insert_ne, lookup_empty.
  - cbn [foldr]. destruct (decide (k = c)) as [->|Hk].
    + rewrite lookup_insert_eq.
      destruct (decide (c ∈ c :: keep)) as [_|Hn]; [reflexivity|].
      exfalso. apply Hn. constructor.
    + rewrite lookup_insert_ne by done. rewrite IH.
      destruct (decide (c ∈ keep)) as [Hin|Hin];
        destruct (decide (c ∈ k :: keep)) as [Hin'|Hin']; try reflexivity.
      * exfalso. apply Hin'. by constructor.
      * exfalso. apply elem_of_cons in Hin' as [->|?]; done.
Qed.

(** Dropping columns, row by row: as many rows with the same keys; a
    dropped column is gone; a surviving column holds what a TEXT column
    makes of the old value - a text or a null as it was, an integer as its
    decimal text. *)
Lemma DropColumns_surviving_values (now : Z) (table : string) (columns : list string)
    (db : DB) (t : Table) :
  tables db !! table = Some t →
  managed t →
  tables db !! (table +:+ "_tmp_" +:+ itoa now) = None →
  length (kept table columns db) ≠ length (physicalColumns table db) →
  ∃ db' t',
    DropColumns now table columns db = (db', Ok tt)
    ∧ tables db' !! table = Some t'
    ∧ map row_id (t_rows t') = map row_id (t_rows t)
    ∧ Forall2 (λ (r r' : Row),
         ∀ c, housekeeping c = false →
              (c ∈ columns → r' !! c = None)
              ∧ (c ∈ physicalColumns table db → c ∉ columns →
                 cell r' c = apply_affinity AffText (cell r c)))
        (t_rows t) (t_rows t').
Proof.
  intros Ht Hm Htmp Hlen.
  destruct (DropColumns_rebuilds now table columns db t Ht Hm Htmp Hlen)
    as (db' & seq & Hrun & Htables).
  eexists db', _. split; [exact Hrun|].
  split; [rewrite Htables; apply lookup_insert_eq|].
  cbn [t_rows]. split.
  - rewrite map_map. apply map_ext. intros r. apply row_id_rebuilt.
  - apply Forall2_fmap_r, Forall_Forall2_diag, Forall_forall.
    intros r _ c Hc. rewrite (rebuilt_lookup _ _ _ Hc). split.
    + intros Hin. rewrite decide_False; [reflexivity|].
      unfold kept. intros [Hk _]%list_elem_of_filter.
      apply slices_Contains_false in Hk. done.
    + intros Hphys Hnot. unfold cell at 1. rewrite (rebuilt_lookup _ _ _ Hc).
      rewrite decide_True; [reflexivity|].
      unfold kept. apply list_elem_of_filter. split; [|exact Hphys].
      by apply slices_Contains_false.
Qed.

End RebuildFacts.

Section Rebuild_at_inputs.
#[local] Existing Instance Concrete.asciiLib.
#[local] Existing Instance Concrete.asciiEngine.
Import Concrete.

(** The sample table meets the conditions of [DropColumns_surviving_values]. *)
Example clinic_patients_managed :
  ∃ t, tables clinic !! "patients" = Some t
       ∧ managed t
       ∧ tables clinic !! ("patients" +:+ "_tmp_" +:+ itoa 1714550400) = None
       ∧ length (kept "patients" ["note"] clinic)
         ≠ length (physicalColumns "patients" clinic).
Proof.
  eexists. split; [vm_compute; reflexivity|].
  split; [|split; [vm_compute; reflexivity | vm_compute; lia]].
  split; [by_decide|]. split; [by_decide|]. split; [by_decide|].
  repeat constructor.
Qed.

End Rebuild_at_inputs.

Section C7_at_inputs.
#[local] Existing Instance Concrete.asciiLib.
#[local] Existing Instance Concrete.asciiEngine.
Import Concrete.

(** C7 (the code at the failing input). The sample table holds two rows;
    the column [note] is dropped.  The query returns the same two rows
    with the same keys and without [note], and the text column [name] is
    unchanged; but the rebuild declares every surviving column TEXT, so
    the integer 34 and 51 of [age] come back as the texts "34" and "51"
    and the number 2 of [acuity] as the text "2.0", while the catalog
    still gives [age] the hint [integer]. *)
Theorem C7_DropColumns_retypes_surviving_columns :
  let db' := after (DropColumns 1714550400 "patients" ["note"]) clinic in
  let view (r : Row) := (row_id r, cell r "name", cell r "age", cell r "acuity") in
  (DropColumns 1714550400 "patients" ["note"] clinic).2 = Ok tt
  ∧ map view (rowsOf (Query "patients" allRows clinic).2)
    = [(2, SText "Wu", SInt 51, SNull);
       (1, SText "Li", SInt 34, SReal (Float64.ofInt 2))]
  ∧ map view (rowsOf (Query "patients" allRows db').2)
    = [(2, SText "Wu", SText "51", SNull);
       (1, SText "Li", SText "34", SText "2.0")]
  ∧ map (λ r : Row, r !! "note") (rowsOf (Query "patients" allRows db').2) = [None; None]
  ∧ declaredType "patients" "age" clinic = Some "INTEGER"
  ∧ declaredType "patients" "age" db' = Some "TEXT"
  ∧ map (λ f, (Name f, TypeHint f)) (catalogFields "patients" db')
    = [("name", "text"); ("age", "integer"); ("iop", "number"); ("acuity", "decimal")].
Proof.
  repeat (split; [vm_compute; reflexivity|]). vm_compute. reflexivity.
Qed.

End C7_at_inputs.

(* ================================================================== *)
(** * Further properties *)
(* ================================================================== *)

(** ** Export column names *)

Section ExcelFacts.

Lemma letterValue_acc (s : string) (acc : Z) :
  letterValue s acc = acc * 26 ^ Z.of_nat (String.length s) + letterValue s 0.
Proof.
  revert acc. induction s as [|a s IH]; intros acc; simpl String.length.
  - simpl. lia.
  - cbn [letterValue]. rewrite IH, (IH (0 * 26 + _)).
    rewrite Nat2Z.inj_succ, Z.pow_succ_r by lia. ring.
Qed.

Lemma letter_code (m : Z) :
  0 ≤ m < 26 → Z.of_N (N_of_ascii (ascii_of_N (Z.to_N (65 + m)))) - 64 = m + 1.
Proof.
  intros Hm. rewrite N_ascii_embedding by lia. lia.
Qed.

Lemma excelName_value (fuel : nat) (idx : Z) (name : string) :
  0 ≤ idx → idx ≤ Z.of_nat fuel →
  letterValue (excelName fuel idx name) 0
  = idx * 26 ^ Z.of_nat (String.length name) + letterValue name 0.
Proof.
  revert idx name. induction fuel as [|fuel IH]; intros idx name Hpos Hfuel.
  - assert (idx = 0) as -> by lia. simpl. lia.
  - cbn [excelName]. destruct (0 <? idx) eqn:Hidx.
    + apply Z.ltb_lt in Hidx.
      assert (0 ≤ (idx - 1) / 26) by (apply Z.div_pos; lia).
      assert ((idx - 1) / 26 ≤ idx - 1).
      { apply Z.div_le_upper_bound; lia. }
      rewrite IH by lia.
      cbn [String.length letterValue].
      rewrite letterValue_acc.
      pose proof (Z.mod_pos_bound (idx - 1) 26 ltac:(lia)) as Hmod.
      rewrite letter_code by lia.
      rewrite Nat2Z.inj_succ, Z.pow_succ_r by lia.
      pose proof (Z.div_mod (idx - 1) 26 ltac:(lia)) as Hdm.
      set (q := (idx - 1) / 26) in *. set (m := (idx - 1) mod 26) in *.
      replace idx with (26 * q + m + 1) by lia. ring.
    + apply Z.ltb_ge in Hidx. assert (idx = 0) as -> by lia. lia.
Qed.

(** Reading the name gives the index back. *)
Lemma excelColumnName_value (idx : Z) :
  0 ≤ idx → letterValue (excelColumnName idx) 0 = idx + 1.
Proof.
  intros Hidx. unfold excelColumnName.
  rewrite excelName_value by lia. simpl. lia.
Qed.

End ExcelFacts.

(** X1. Distinct column indexes get distinct spreadsheet column names. *)
Theorem X1_excelColumnName_injective (i j : Z) :
  0 ≤ i → 0 ≤ j → i ≠ j → excelColumnName i ≠ excelColumnName j.
Proof.
  intros Hi Hj Hne Heq. apply Hne.
  apply (f_equal (λ s, letterValue s 0)) in Heq.
  rewrite !excelColumnName_value in Heq by done. lia.
Qed.

Lemma X1_excelColumnName_injective_witness :
  0 ≤ 25 ∧ 0 ≤ 26 ∧ 25 ≠ 26
  ∧ excelColumnName 25 = "Z" ∧ excelColumnName 26 = "AA"
  ∧ excelColumnName 25 ≠ excelColumnName 26.
Proof.
  split; [lia|]. split; [lia|]. split; [lia|].
  split; [reflexivity|]. split; [reflexivity|].
  apply (X1_excelColumnName_injective 25 26); lia.
Defined.

(** ** Coercion applied twice *)

Section TwiceFacts.
Context `{G : GoLib} `{E : SqlEngine}.

(** What coercion returns for a string is never a blank string. *)
Lemma convertValue_string_notBlank (typeHint s : string) (r : any) :
  convertValue typeHint (Str s) = Ok r → notBlank r.
Proof.
  unfold convertValue, convertText.
  repeat match goal with
         | |- context [if slices_Contains ?l ?h then _ else _] =>
             destruct (slices_Contains l h)
         end;
    repeat match goal with
           | |- context [if String.eqb ?a ?b then _ else _] =>
               destruct (String.eqb_spec a b)
           | |- context [match ParseInt ?x with _ => _ end] => destruct (ParseInt x)
           | |- context [match ParseFloat ?x with _ => _ end] => destruct (ParseFloat x)
           end;
    intros [= <-]; simpl; auto.
Qed.

Lemma prepareLoop_other (data : gmap string any)
    (entries : list (string * FieldDefinition)) (isInsert : bool)
    (acc clean : gmap string any) (k : string) :
  prepareLoop data entries isInsert acc = Ok clean →
  k ∉ entries.*1 → clean !! k = acc !! k.
Proof.
  revert acc. induction entries as [|[name def] rest IH]; intros acc; simpl.
  { by intros [= ->]. }
  intros Hrun Hk. apply not_elem_of_cons in Hk as [Hne Hk].
  destruct (data !! name) as [v|].
  - destruct (convertValue (TypeHint def) v) as [r|]; [|done].
    destruct r;
      try (rewrite (IH _ Hrun Hk); by rewrite lookup_insert_ne).
    destruct (negb (AllowNull def)); [done|]. by apply IH.
  - destruct (isInsert && negb (AllowNull def)); [done|]. by apply IH.
Qed.

(** A result of coercion that is not a blank string coerces to itself. *)
Lemma convertValue_again (typeHint : string) (val r : any) :
  convertValue typeHint val = Ok r → notBlank r → convertValue typeHint r = Ok r.
Proof.
  intros Hc Hr. revert Hc. unfold convertValue, convertText.
  destruct val; try (by intros [= <-]);
    repeat match goal with
           | |- context [if slices_Contains ?l (ToLower typeHint) then _ else _] =>
               destruct (slices_Contains l (ToLower typeHint))
           end;
    repeat match goal with
           | |- context [if String.eqb ?a ?b then _ else _] =>
               destruct (String.eqb_spec a b)
           | |- context [match ParseInt ?x with _ => _ end] => destruct (ParseInt x)
           | |- context [match ParseFloat ?x with _ => _ end] => destruct (ParseFloat x)
           | |- context [if slices_Contains ?l ?h then _ else _] =>
               destruct (slices_Contains l h)
           end;
    intros [= <-]; try reflexivity; simpl in *;
    match goal with
    | |- context [String.eqb ?a ?b] => by destruct (String.eqb_spec a b)
    end.
Qed.

(** Where a value of the cleaned map comes from. *)
Lemma prepareLoop_value (data : gmap string any)
    (entries : list (string * FieldDefinition)) (isInsert : bool)
    (acc clean : gmap string any) (k : string) (r : any) :
  prepareLoop data entries isInsert acc = Ok clean →
  clean !! k = Some r →
  acc !! k = Some r
  ∨ ∃ def v, (k, def) ∈ entries ∧ data !! k = Some v
             ∧ convertValue (TypeHint def) v = Ok r.
Proof.
  revert acc. induction entries as [|[name def] rest IH]; intros acc; simpl.
  { intros [= ->]. by left. }
  intros Hrun Hk.
  assert (∀ acc', prepareLoop data rest isInsert acc' = Ok clean →
                  (acc' !! k = Some r → acc !! k = Some r
                     ∨ ∃ v, k = name ∧ data !! k = Some v
                            ∧ convertValue (TypeHint def) v = Ok r) →
                  acc !! k = Some r
                  ∨ ∃ def' v, (k, def') ∈ (name, def) :: rest ∧ data !! k = Some v
                              ∧ convertValue (TypeHint def') v = Ok r) as Hstep.
  { intros acc' Hrun' Hacc. destruct (IH acc' Hrun' Hk) as [Ha|(d & v & Hin & Hv & Hc)].
    - destruct (Hacc Ha) as [?|(v & -> & Hv & Hc)]; [by left|].
      right. exists def, v. split; [by left|done].
    - right. exists d, v. split; [by right|done]. }
  destruct (data !! name) as [v|] eqn:Hv.
  - destruct (convertValue (TypeHint def) v) as [c|] eqn:Hc; [|done].
    assert (∀ c', c = c' → c' ≠ Nil →
                  prepareLoop data rest isInsert (<[name := c']> acc) = Ok clean →
                  acc !! k = Some r
                  ∨ ∃ def' v, (k, def') ∈ (name, def) :: rest ∧ data !! k = Some v
                              ∧ convertValue (TypeHint def') v = Ok r) as Hput.
    { intros c' -> _ Hrun'. apply (Hstep _ Hrun').
      destruct (decide (k = name)) as [->|Hne].
      - rewrite lookup_insert_eq. intros [= <-]. right. by exists v.
      - rewrite lookup_insert_ne by done. by left. }
    destruct c; try (by eapply Hput).
    destruct (negb (AllowNull def)); [done|]. apply (Hstep _ Hrun). by left.
  - destruct (isInsert && negb (AllowNull def)); [done|]. apply (Hstep _ Hrun). by left.
Qed.

(** Preparing again what preparation returned gives it back. *)
Lemma prepareLoop_again (data : gmap string any)
    (entries : list (string * FieldDefinition)) (isInsert : bool)
    (acc clean other : gmap string any) :
  NoDup entries.*1 →
  (∀ k, k ∈ entries.*1 → acc !! k = None) →
  prepareLoop data entries isInsert acc = Ok clean →
  (∀ k r, k ∈ entries.*1 → clean !! k = Some r → notBlank r) →
  (∀ k, k ∈ entries.*1 → other !! k = clean !! k) →
  prepareLoop other entries isInsert acc = Ok clean.
Proof.
  revert acc. induction entries as [|[name def] rest IH]; intros acc; simpl.
  { done. }
  intros Hnd Hacc Hrun Hnb Hother.
  apply NoDup_cons in Hnd as [Hname Hnd].
  assert (∀ acc', prepareLoop data rest isInsert acc' = Ok clean →
                  (∀ k, k ∈ rest.*1 → acc' !! k = acc !! k) →
                  prepareLoop other rest isInsert acc' = Ok clean) as Hrest.
  { intros acc' Hrun' Hsame. apply IH; try done.
    - intros k Hk. rewrite (Hsame k Hk). apply Hacc. by right.
    - intros k r Hk. apply Hnb. by right.
    - intros k Hk. apply Hother. by right. }
  rewrite (Hother name) by left.
  destruct (data !! name) as [v|] eqn:Hv.
  - destruct (convertValue (TypeHint def) v) as [c|] eqn:Hc; [|done].
    assert (∀ c', c = c' → c' ≠ Nil →
                  prepareLoop data rest isInsert (<[name := c']> acc) = Ok clean →
                  match clean !! name with
                  | Some val =>
                      match convertValue (TypeHint def) val with
                      | Ok Nil =>
                          if negb (AllowNull def) then Err (ErrRequired name)
                          else prepareLoop other rest isInsert acc
                      | Ok converted =>
                          prepareLoop other rest isInsert (<[name := converted]> acc)
                      | Err e => Err (ErrField name e)
                      end
                  | None =>
                      if isInsert && negb (AllowNull def) then Err (ErrRequired name)
                      else prepareLoop other rest isInsert acc
                  end = Ok clean) as Hput.
    { intros c' -> Hnil Hrun'.
      assert (clean !! name = Some c') as Hcl.
      { rewrite (prepareLoop_other _ _ _ _ _ _ Hrun' Hname). apply lookup_insert_eq. }
      rewrite Hcl.
      rewrite (convertValue_again _ _ _ Hc) by (apply (Hnb name); [by left|done]).
      assert (prepareLoop other rest isInsert (<[name := c']> acc) = Ok clean) as Hgo.
      { apply IH; try done.
        - intros k Hk. rewrite lookup_insert_ne by (intros ->; done).
          apply Hacc. by right.
        - intros k r Hk. apply Hnb. by right.
        - intros k Hk. apply Hother. by right. }
      by destruct c'. }
    destruct c; try (by eapply Hput).
    destruct (negb (AllowNull def)) eqn:Hnull; [done|].
    rewrite (prepareLoop_other _ _ _ _ _ _ Hrun Hname), (Hacc name) by left.
    rewrite andb_false_r. by apply Hrest.
  - destruct (isInsert && negb (AllowNull def)) eqn:Hreq; [done|].
    rewrite (prepareLoop_other _ _ _ _ _ _ Hrun Hname), (Hacc name) by left.
    by apply Hrest.
Qed.

Lemma range_NoDup {A} (m : gmap string A) : NoDup (range m).*1.
Proof. rewrite (range_perm _ m). apply NoDup_fst_map_to_list. Qed.

Lemma prepareDataWithMeta_again (data clean : gmap string any)
    (meta : gmap string FieldDefinition) (isInsert : bool) :
  prepareDataWithMeta data meta isInsert = Ok clean →
  map_Forall (λ _ v, notBlank v) clean →
  prepareDataWithMeta clean meta isInsert = Ok clean.
Proof.
  unfold prepareDataWithMeta. intros Hrun Hnb.
  eapply prepareLoop_again; try done.
  - apply range_NoDup.
  - intros k r _ Hk. by apply (Hnb k).
Qed.

(** Prepared string cells are never blank. *)
Lemma prepareDataWithMeta_strings (data clean : gmap string any)
    (meta : gmap string FieldDefinition) (isInsert : bool) :
  map_Forall (λ _ v, ∃ s, v = Str s) data →
  prepareDataWithMeta data meta isInsert = Ok clean →
  map_Forall (λ _ v, notBlank v) clean.
Proof.
  unfold prepareDataWithMeta. intros Hstr Hrun k r Hk.
  destruct (prepareLoop_value _ _ _ _ _ _ _ Hrun Hk) as [Hacc|(def & v & _ & Hv & Hc)].
  { by rewrite lookup_empty in Hacc. }
  destruct (Hstr k v Hv) as [s ->]. by eapply convertValue_string_notBlank.
Qed.

End TwiceFacts.

(** X2. Coercing the result of a coercion again, under the same hint,
    gives the same result, unless the result is a blank string (which only
    a non-string input that prints blank can give); for a string input it
    always does. *)
Theorem X2_convertValue_idempotent `{G : GoLib} (typeHint : string) (val r : any) :
  convertValue typeHint val = Ok r →
  notBlank r ∨ (∃ s, val = Str s) →
  convertValue typeHint r = Ok r.
Proof.
  intros Hc [Hr|[s ->]]; eapply convertValue_again; try done.
  by eapply convertValue_string_notBlank.
Qed.

Section X2_at_inputs.
#[local] Existing Instance Concrete.asciiLib.

Lemma X2_convertValue_idempotent_witness :
  convertValue "integer" (Str " 42 ") = Ok (Int64 42)
  ∧ convertValue "integer" (Int64 42) = Ok (Int64 42).
Proof.
  assert (convertValue "integer" (Str " 42 ") = Ok (Int64 42)) as Hc by reflexivity.
  split; [exact Hc|].
  apply (X2_convertValue_idempotent "integer" (Str " 42 ") (Int64 42) Hc).
  right. by exists " 42 ".
Defined.

End X2_at_inputs.

(** X3. Preparing a field map that preparation returned gives the same
    map back, for an insert and for an update alike, when no prepared
    value is a blank string; that is so whenever the payload holds only
    strings, as an imported record does. *)
Theorem X3_prepare_is_idempotent `{G : GoLib} (data clean : gmap string any)
    (meta : gmap string FieldDefinition) (isInsert : bool) :
  prepareDataWithMeta data meta isInsert = Ok clean →
  map_Forall (λ _ v, notBlank v) clean ∨ map_Forall (λ _ v, ∃ s, v = Str s) data →
  prepareDataWithMeta clean meta isInsert = Ok clean.
Proof.
  intros Hrun [Hnb|Hstr]; apply (prepareDataWithMeta_again data); try done.
  by eapply prepareDataWithMeta_strings.
Qed.

Section X3_at_inputs.
#[local] Existing Instance Concrete.asciiLib.
Import Concrete.

Lemma X3_prepare_is_idempotent_witness :
  prepareDataWithMeta (<["name" := Str "Wu"]> (<["age" := Int64 51]> ∅))
    (metaMapOf (Fields patients)) true
  = Ok (<["name" := Str "Wu"]> (<["age" := Int64 51]> ∅)).
Proof.
  apply (X3_prepare_is_idempotent patient2).
  - vm_compute. reflexivity.
  - right. unfold patient2.
    repeat (apply map_Forall_insert_2; [by eexists|]). apply map_Forall_empty.
Defined.

End X3_at_inputs.

(** ** Import of one record *)

Section RecordFacts.
Context `{G : GoLib} `{E : SqlEngine}.

Lemma recordRow_strings (mapping record : list string) :
  map_Forall (λ _ v, ∃ s, v = Str s) (recordRow mapping record).
Proof.
  unfold recordRow.
  assert (∀ (l : list (string * string)) (acc : gmap string any),
            map_Forall (λ _ v, ∃ s, v = Str s) acc →
            map_Forall (λ _ v, ∃ s, v = Str s)
              (foldl (λ row e, if String.eqb e.1 "" then row
                               else <[e.1 := Str e.2]> row) acc l)) as Hgen.
  { induction l as [|[c s] l IH]; intros acc Hacc; simpl; [done|].
    apply IH. destruct (String.eqb c ""); [done|].
    apply map_Forall_insert_2; [by eexists|done]. }
  apply Hgen, map_Forall_empty.
Qed.

(** Housekeeping keys of the payload play no part when the catalog
    declares no housekeeping column. *)
Lemma prepareDataWithMeta_stripKeys (data : gmap string any)
    (meta : gmap string FieldDefinition) (isInsert : bool) :
  (∀ k, housekeeping k = true → meta !! k = None) →
  prepareDataWithMeta (stripKeys data) meta isInsert
  = prepareDataWithMeta data meta isInsert.
Proof.
  intros Hmeta. unfold prepareDataWithMeta. apply prepareLoop_ext.
  apply Forall_forall. intros [k def] Hin. simpl.
  apply range_lookup in Hin. rewrite stripKeys_lookup.
  destruct (housekeeping k) eqn:Hk; [|done].
  by rewrite (Hmeta k Hk) in Hin.
Qed.

Lemma importRecord_run (table : string) (mapping record : list string) (db : DB) :
  (∀ k, housekeeping k = true → declared table db !! k = None) →
  match prepareDataWithMeta (recordRow mapping record) (declared table db) true with
  | Err e =>
      importRecord table mapping (declared table db) record db = (db, Err e)
      ∧ InsertRow table (recordRow mapping record) db
        = (logged listColumnsSQL db, Err e)
  | Ok _ =>
      importRecord table mapping (declared table db) record db
      = (InsertRow table (recordRow mapping record) ;; ret tt) db
  end.
Proof.
  intros Hmeta. unfold importRecord.
  destruct (prepareDataWithMeta (recordRow mapping record) (declared table db) true)
    as [clean|e] eqn:Hrun.
  - unfold bind at 1 2. rewrite !InsertRow_run.
    rewrite !prepareDataWithMeta_stripKeys by done. rewrite Hrun.
    assert (prepareDataWithMeta clean (declared table db) true = Ok clean) as ->; [|done].
    eapply prepareDataWithMeta_again; [done|].
    eapply prepareDataWithMeta_strings; [|done]. apply recordRow_strings.
  - split; [done|]. rewrite InsertRow_run.
    by rewrite prepareDataWithMeta_stripKeys, Hrun.
Qed.

End RecordFacts.

(** X4. Importing one record does what inserting the row of its mapped
    cells does, when the catalog the import context read is the table's
    and declares no housekeeping column: a record that does not prepare
    fails with the error [InsertRow] gives, before any statement is sent;
    one that prepares is inserted as that row is, the second preparation
    inside [InsertRow] changing nothing. *)
Theorem X4_importRecord_inserts_the_mapped_row `{G : GoLib} `{E : SqlEngine}
    (table : string) (mapping record : list string) (db : DB) :
  (∀ k, housekeeping k = true → declared table db !! k = None) →
  match prepareDataWithMeta (recordRow mapping record) (declared table db) true with
  | Err e =>
      importRecord table mapping (declared table db) record db = (db, Err e)
      ∧ InsertRow table (recordRow mapping record) db
        = (logged listColumnsSQL db, Err e)
  | Ok _ =>
      importRecord table mapping (declared table db) record db
      = (InsertRow table (recordRow mapping record) ;; ret tt) db
  end.
Proof. apply importRecord_run. Qed.

Section X4_at_inputs.
#[local] Existing Instance Concrete.asciiLib.
#[local] Existing Instance Concrete.asciiEngine.
Import Concrete.

Lemma no_housekeeping_declared (k : string) :
  housekeeping k = true → declared "patients" clinic !! k = None.
Proof.
  unfold housekeeping. intros Hk.
  apply orb_true_iff in Hk as [Hk|Hk]; [apply orb_true_iff in Hk as [Hk|Hk]|];
    apply String.eqb_eq in Hk; subst k; vm_compute; reflexivity.
Qed.

Lemma X4_importRecord_inserts_the_mapped_row_witness :
  importRecord "patients" ["name"; "age"] (declared "patients" clinic) ["Zhao"; "40"] clinic
  = (InsertRow "patients" (recordRow ["name"; "age"] ["Zhao"; "40"]) ;; ret tt) clinic.
Proof.
  exact (X4_importRecord_inserts_the_mapped_row "patients" ["name"; "age"]
           ["Zhao"; "40"] clinic no_housekeeping_declared).
Defined.

End X4_at_inputs.

(** ** The catalog after the schema operations *)

Section CatalogFacts.
Context `{G : GoLib} `{E : SqlEngine}.

Lemma insert_by_app {A} (le : A → A → bool) (x : A) (s r : list A) :
  Forall (λ y, le x y = true) r →
  insert_by le x (s ++ r) = insert_by le x s ++ r.
Proof.
  intros Hr. induction s as [|y s IH]; simpl.
  - destruct Hr as [|y r Hy _]; [done|]. simpl. by rewrite Hy.
  - destruct (le x y); [done|]. by rewrite IH.
Qed.

(** Rows that sort after all the others and are in order stay last. *)
Lemma sort_by_app {A} (le : A → A → bool) (l r : list A) :
  sort_by le r = r →
  Forall (λ x, Forall (λ y, le x y = true) r) l →
  sort_by le (l ++ r) = sort_by le l ++ r.
Proof.
  intros Hr. induction 1 as [|x l Hx _ IH]; simpl; [done|].
  unfold sort_by in *. simpl. rewrite IH. by apply insert_by_app.
Qed.

Lemma sort_by_fmap {A} (le : A → A → bool) (g : A → A) (l : list A) :
  (∀ a b, le (g a) (g b) = le a b) →
  sort_by le (map g l) = map g (sort_by le l).
Proof.
  intros Hg. induction l as [|x l IH]; [done|].
  unfold sort_by in *. simpl. rewrite IH.
  generalize (foldr (insert_by le) [] l). intros s.
  induction s as [|y s IHs]; simpl; [done|].
  rewrite Hg. destruct (le x y); [done|]. simpl. by rewrite IHs.
Qed.

Lemma metaRows_order (table : string) (fields : list FieldDefinition) (order : Z) :
  Forall (λ m, order ≤ cm_order m) (metaRows table fields order).
Proof.
  revert order. induction fields as [|f rest IH]; intros order; simpl; constructor.
  - simpl. lia.
  - eapply Forall_impl; [apply IH|]. simpl. intros; lia.
Qed.

Lemma metaRows_sorted (table : string) (fields : list FieldDefinition) (order : Z) :
  sort_by (λ a b, cm_order a <=? cm_order b) (metaRows table fields order)
  = metaRows table fields order.
Proof.
  revert order. induction fields as [|f rest IH]; intros order; [done|].
  unfold sort_by in *. simpl. rewrite IH.
  pose proof (metaRows_order table rest (order + 1)) as Hle.
  destruct Hle as [|m ms Hm _]; [done|]. simpl.
  by rewrite (proj2 (Z.leb_le _ _)) by lia.
Qed.

Lemma metaRows_table (table : string) (fields : list FieldDefinition) (order : Z) :
  Forall (λ m, cm_table m = table) (metaRows table fields order).
Proof.
  revert order. induction fields as [|f rest IH]; intros order; simpl; by constructor.
Qed.

Lemma metaRows_fields (table : string) (fields : list FieldDefinition) (order : Z) :
  map metaField (metaRows table fields order) = map catalogued fields.
Proof.
  revert order. induction fields as [|f rest IH]; intros order; [done|].
  simpl. by rewrite IH.
Qed.

Lemma filter_none {A} (P : A → Prop) `{∀ x, Decision (P x)} (l : list A) :
  Forall (λ x, ¬ P x) l → filter P l = [].
Proof.
  induction 1 as [|x l Hx _ IH]; [done|].
  by rewrite filter_cons, decide_False.
Qed.

Lemma max_order_bound (ms : list ColumnMeta) :
  Forall (λ m, cm_order m ≤ max_order ms) ms.
Proof.
  destruct ms as [|m ms]; [constructor|]. unfold max_order.
  assert (cm_order m ≤ foldr (λ x acc, Z.max (cm_order x) acc) (cm_order m) ms) as Hm.
  { induction ms as [|y ms IH]; simpl; lia. }
  constructor; [done|]. clear Hm.
  induction ms as [|y ms IH]; simpl; constructor; [lia|].
  eapply Forall_impl; [apply IH|]. simpl. intros; lia.
Qed.

(** The catalog rows of the fields go in, one after the other; nothing
    else changes and nothing fails. *)
Lemma insertMeta_run (table : string) (fields : list FieldDefinition) (order : Z)
    (db : DB) :
  ∃ db', insertMeta table fields order db = (db', Ok tt)
         ∧ tables db' = tables db ∧ table_meta db' = table_meta db
         ∧ column_meta db' = column_meta db ++ metaRows table fields order
         ∧ clock db' = clock db.
Proof.
  revert order db. induction fields as [|f rest IH]; intros order db.
  { exists db. simpl. by rewrite app_nil_r. }
  simpl. unfold bind. rewrite Exec_run. simpl.
  match goal with
  | |- context [insertMeta table rest (order + 1) ?d] =>
      destruct (IH (order + 1) d) as (db' & -> & Ht & Hm & Hc & Hk)
  end.
  exists db'. split; [done|]. rewrite Ht, Hm, Hc, Hk. simpl.
  by rewrite <- app_assoc.
Qed.

Lemma upsertMeta_run (schema : TableSchema) (db : DB) :
  ∃ db', upsertMeta schema db = (db', Ok tt)
         ∧ tables db' = tables db
         ∧ table_meta db'
           = <[schemaName schema := (DisplayName schema, Description schema)]>
               (table_meta db)
         ∧ column_meta db'
           = filter (λ m, cm_table m ≠ schemaName schema) (column_meta db)
             ++ metaRows (schemaName schema) (Fields schema) 0
         ∧ clock db' = clock db.
Proof.
  unfold upsertMeta, transaction, bind. rewrite !Exec_run. simpl.
  match goal with
  | |- context [insertMeta ?t ?fs ?o ?d] =>
      destruct (insertMeta_run t fs o d) as (db' & -> & Ht & Hm & Hc & Hk)
  end.
  exists db'. by rewrite Ht, Hm, Hc, Hk.
Qed.

Lemma meta_of_replaced (table other : string) (old : list ColumnMeta)
    (fields : list FieldDefinition) (order : Z) :
  filter (λ m, cm_table m = other)
    (filter (λ m, cm_table m ≠ table) old ++ metaRows table fields order)
  = if decide (other = table) then metaRows table fields order
    else filter (λ m, cm_table m = other) old.
Proof.
  rewrite filter_app. destruct (decide (other = table)) as [->|Hne].
  - rewrite filter_none, filter_all; [done| |].
    + apply metaRows_table.
    + apply Forall_forall. intros m Hm. by apply list_elem_of_filter in Hm as [? _].
  - rewrite (filter_none _ (metaRows _ _ _)), app_nil_r.
    + rewrite list_filter_filter. apply list_filter_iff. intros m.
      split; [by intros [? _]|]. intros Hm. split; [done|]. congruence.
    + eapply Forall_impl; [apply metaRows_table|]. simpl. intros m Hm Ho. congruence.
Qed.

(** The catalog of a table after [upsertMeta]: the fields given for the
    table itself, what it was for any other. *)
Lemma upsertMeta_catalog (schema : TableSchema) (db : DB) (other : string) :
  catalogFields other (upsertMeta schema db).1
  = if decide (other = schemaName schema) then map catalogued (Fields schema)
    else catalogFields other db.
Proof.
  destruct (upsertMeta_run schema db) as (db' & -> & _ & _ & Hc & _). simpl.
  unfold catalogFields, meta_of. rewrite Hc, meta_of_replaced.
  destruct (decide (other = schemaName schema)); [|done].
  by rewrite metaRows_sorted, metaRows_fields.
Qed.

(** A successful [CreateTable] is the CREATE statement followed by
    [upsertMeta]. *)
Lemma CreateTable_ok (schema : TableSchema) (db db' : DB) :
  CreateTable schema db = (db', Ok tt) →
  ∃ db1, db' = (upsertMeta schema db1).1
         ∧ table_meta db1 = table_meta db ∧ column_meta db1 = column_meta db
         ∧ clock db1 = clock db
         ∧ (∀ t, tables db !! schemaName schema = Some t → tables db1 = tables db).
Proof.
  unfold CreateTable.
  destruct (String.eqb (schemaName schema) ""); [done|].
  destruct (length (Fields schema) =? 0)%nat; [done|].
  destruct (createColumns (Fields schema)) as [cols|]; [|done].
  unfold bind. rewrite Exec_run.
  destruct (run _ _) as [[db1 id]|e] eqn:Hrun; [|done].
  intros Hup. exists db1. split; [by rewrite Hup|].
  simpl in Hrun.
  destruct (tables db !! schemaName schema) as [t|] eqn:Ht.
  - injection Hrun as <- _. by repeat split.
  - destruct (bool_decide _); [|done]. injection Hrun as <- _. by repeat split.
Qed.

End CatalogFacts.

(** X5. After a successful [CreateTable] the catalog gives the table's
    fields back in the order they were given, each without old name and
    default; the display name and the description are the schema's; the
    catalog of every other table is as before. *)
Theorem X5_CreateTable_catalog_round_trip `{G : GoLib} `{E : SqlEngine}
    (schema : TableSchema) (db db' : DB) :
  CreateTable schema db = (db', Ok tt) →
  catalogFields (schemaName schema) db' = map catalogued (Fields schema)
  ∧ table_meta db' !! schemaName schema
    = Some (DisplayName schema, Description schema)
  ∧ ∀ other, other ≠ schemaName schema →
      catalogFields other db' = catalogFields other db
      ∧ table_meta db' !! other = table_meta db !! other.
Proof.
  intros Hrun. destruct (CreateTable_ok _ _ _ Hrun) as (db1 & -> & Hm & Hc & _ & _).
  pose proof (upsertMeta_catalog schema db1) as Hcat.
  destruct (upsertMeta_run schema db1) as (db2 & Hup & _ & Hm2 & _ & _).
  rewrite Hup in *. simpl in *. split; [|split].
  - rewrite Hcat. by rewrite decide_True.
  - rewrite Hm2. apply lookup_insert_eq.
  - intros other Hne. split.
    + rewrite Hcat, decide_False by done. unfold catalogFields, meta_of. by rewrite Hc.
    + rewrite Hm2, lookup_insert_ne by done. by rewrite Hm.
Qed.

Section X5_at_inputs.
#[local] Existing Instance Concrete.asciiLib.
#[local] Existing Instance Concrete.asciiEngine.
Import Concrete.

Lemma X5_CreateTable_catalog_round_trip_witness :
  catalogFields "patients" (after (CreateTable patients) emptyDB)
  = map catalogued (Fields patients).
Proof.
  refine (proj1 (X5_CreateTable_catalog_round_trip patients emptyDB
                   (after (CreateTable patients) emptyDB) _)).
  vm_compute. reflexivity.
Defined.

End X5_at_inputs.

(** X6. [CreateTable] for a table that exists already succeeds whenever
    the type hints are known, leaves the table with the columns and rows
    it had, whatever fields the schema lists, and replaces the catalog of
    the table by those fields. *)
Theorem X6_CreateTable_existing_keeps_table `{G : GoLib} `{E : SqlEngine}
    (schema : TableSchema) (db : DB) (t : Table) (cols : list Column) :
  schemaName schema ≠ "" → Fields schema ≠ [] →
  createColumns (Fields schema) = Ok cols →
  tables db !! schemaName schema = Some t →
  ∃ db', CreateTable schema db = (db', Ok tt)
         ∧ tables db' = tables db
         ∧ catalogFields (schemaName schema) db' = map catalogued (Fields schema).
Proof.
  intros Hname Hfields Hcols Ht.
  assert (∃ db', CreateTable schema db = (db', Ok tt)) as [db' Hrun].
  { unfold CreateTable.
    destruct (String.eqb_spec (schemaName schema) ""); [done|].
    replace (length (Fields schema) =? 0)%nat with false
      by (by destruct (Fields schema)).
    rewrite Hcols. unfold bind. rewrite Exec_run. simpl. rewrite Ht.
    match goal with
    | |- context [upsertMeta schema ?d] =>
        destruct (upsertMeta_run schema d) as (db' & -> & _)
    end.
    by exists db'. }
  exists db'. split; [done|].
  destruct (CreateTable_ok _ _ _ Hrun) as (db1 & -> & _ & _ & _ & Hsame).
  pose proof (upsertMeta_catalog schema db1 (schemaName schema)) as Hcat.
  destruct (upsertMeta_run schema db1) as (db2 & Hup & Htab & _).
  rewrite Hup in *. simpl in *. split.
  - rewrite Htab. by eapply Hsame.
  - by rewrite Hcat, decide_True.
Qed.

Section X6_at_inputs.
#[local] Existing Instance Concrete.asciiLib.
#[local] Existing Instance Concrete.asciiEngine.
Import Concrete.

Lemma X6_CreateTable_existing_keeps_table_witness :
  ∃ db', CreateTable
           {| schemaName := "patients"; DisplayName := "P"; Description := "";
              Fields := [field "weight" [] "number" true] |} clinic = (db', Ok tt)
         ∧ tables db' = tables clinic
         ∧ catalogFields "patients" db' = [field "weight" [] "number" true].
Proof.
  eapply (X6_CreateTable_existing_keeps_table
            {| schemaName := "patients"; DisplayName := "P"; Description := "";
               Fields := [field "weight" [] "number" true] |} clinic).
  - done.
  - done.
  - vm_compute. reflexivity.
  - vm_compute. reflexivity.
Defined.

End X6_at_inputs.

Section AddFacts.
Context `{G : GoLib} `{E : SqlEngine}.

(** The ALTER statements touch no catalog table, whether they succeed or
    not, and take no column away. *)
Lemma alterColumns_frame (table : string) (fields : list FieldDefinition) (db : DB) :
  let db' := (alterColumns table fields db).1 in
  column_meta db' = column_meta db ∧ table_meta db' = table_meta db
  ∧ clock db' = clock db
  ∧ ∀ c, c ∈ tableInfo table db → c ∈ tableInfo table db'.
Proof.
  revert db. induction fields as [|f rest IH]; intros db; [done|].
  simpl. unfold bind. rewrite Exec_run.
  destruct (run _ _) as [[db1 z]|e] eqn:Hrun; simpl; [|done].
  destruct (IH db1) as (Hc & Hm & Hk & Hcols).
  assert (column_meta db1 = column_meta db ∧ table_meta db1 = table_meta db
          ∧ clock db1 = clock db
          ∧ ∀ c, c ∈ tableInfo table db → c ∈ tableInfo table db1)
    as (Hc1 & Hm1 & Hk1 & Hcols1).
  { simpl in Hrun. unfold tableInfo.
    destruct (tables db !! table) as [t|] eqn:Ht; [|done].
    destruct (slices_Contains _ _); [done|].
    destruct (_ && _); [done|]. injection Hrun as <- _. simpl.
    repeat split; try done. rewrite lookup_insert_eq. unfold column_names. simpl.
    intros c Hin. rewrite map_app. apply elem_of_app. by left. }
  rewrite Hc, Hm, Hk. repeat split; try done. intros c Hin. by apply Hcols, Hcols1.
Qed.

Lemma alterColumns_app (table : string) (pre post : list FieldDefinition) (db : DB) :
  alterColumns table (pre ++ post) db
  = (alterColumns table pre ;; alterColumns table post) db.
Proof.
  revert db. induction pre as [|f pre IH]; intros db; [done|].
  simpl. unfold bind in *. destruct (Exec _ db) as [db1 [z|e]]; [|done].
  by rewrite IH.
Qed.

(** A column an ALTER statement added is in the table. *)
Lemma alterColumns_added (table : string) (fields : list FieldDefinition)
    (db db' : DB) :
  alterColumns table fields db = (db', Ok tt) →
  Forall (λ f, Name f ∈ tableInfo table db') fields.
Proof.
  revert db. induction fields as [|f rest IH]; intros db; [constructor|].
  simpl. unfold bind. rewrite Exec_run.
  destruct (run _ _) as [[db1 z]|e] eqn:Hrun; [|done].
  intros Hrest. constructor; [|by eapply IH].
  pose proof (alterColumns_frame table rest db1) as (_ & _ & _ & Hcols).
  rewrite Hrest in Hcols. apply Hcols.
  simpl in Hrun. unfold tableInfo.
  destruct (tables db !! table) as [t|] eqn:Ht; [|done].
  destruct (slices_Contains _ _); [done|].
  destruct (_ && _); [done|]. injection Hrun as <- _. simpl.
  rewrite lookup_insert_eq. unfold column_names. simpl.
  rewrite map_app. apply elem_of_app. right. simpl. by left.
Qed.

Lemma catalogFields_ext (table : string) (a b : DB) :
  column_meta a = column_meta b → catalogFields table a = catalogFields table b.
Proof. unfold catalogFields, meta_of. by intros ->. Qed.

End AddFacts.

(** X7. After a successful [AddColumns] the catalog of the table lists the
    fields it listed before, in their order, followed by the new fields in
    the order given; the catalog of every other table is as before. *)
Theorem X7_AddColumns_appends_to_catalog `{G : GoLib} `{E : SqlEngine}
    (table : string) (fields : list FieldDefinition) (db db' : DB) :
  AddColumns table fields db = (db', Ok tt) →
  catalogFields table db' = catalogFields table db ++ map catalogued fields
  ∧ ∀ other, other ≠ table → catalogFields other db' = catalogFields other db.
Proof.
  unfold AddColumns, bind.
  pose proof (alterColumns_frame table fields db) as (Hc & _).
  destruct (alterColumns table fields db) as [db1 [[]|e]]; [|done].
  unfold Query_, transaction. simpl in Hc.
  match goal with
  | |- context [insertMeta table fields ?o ?d] =>
      destruct (insertMeta_run table fields o d) as (db2 & -> & _ & _ & Hc2 & _)
  end.
  intros [= <-]. simpl in Hc2. rewrite Hc in Hc2.
  unfold catalogFields, meta_of at 1 3. rewrite Hc2. split.
  - rewrite filter_app, (filter_all _ (metaRows _ _ _)) by apply metaRows_table.
    unfold meta_of. simpl. rewrite Hc.
    rewrite sort_by_app, map_app, metaRows_fields; [done|apply metaRows_sorted|].
    pose proof (max_order_bound (filter (λ m, cm_table m = table) (column_meta db)))
      as Hmax.
    eapply Forall_impl; [exact Hmax|]. simpl. intros m Hm.
    eapply Forall_impl; [apply metaRows_order|]. simpl. intros m' Hm'.
    apply Z.leb_le. lia.
  - intros other Hne. rewrite filter_app, (filter_none _ (metaRows _ _ _)).
    + by rewrite app_nil_r.
    + eapply Forall_impl; [apply metaRows_table|]. simpl. intros m Hm Ho. congruence.
Qed.

(** X8. [AddColumns] is not atomic: when it fails at a later field, the
    columns of the fields before it stay in the table, while the catalog
    of every table is left as it was. *)
Theorem X8_AddColumns_failure_keeps_added_columns `{G : GoLib} `{E : SqlEngine}
    (table : string) (pre post : list FieldDefinition) (db db1 db' : DB) (e : error) :
  alterColumns table pre db = (db1, Ok tt) →
  AddColumns table (pre ++ post) db = (db', Err e) →
  Forall (λ f, Name f ∈ tableInfo table db') pre
  ∧ ∀ t, catalogFields t db' = catalogFields t db.
Proof.
  intros Hpre. unfold AddColumns, bind. rewrite alterColumns_app. unfold bind.
  rewrite Hpre.
  pose proof (alterColumns_frame table post db1) as (Hc & _ & _ & Hcols).
  pose proof (alterColumns_frame table pre db) as (Hc1 & _). rewrite Hpre in Hc1.
  destruct (alterColumns table post db1) as [db2 [[]|e2]].
  - unfold Query_, transaction.
    match goal with
    | |- context [insertMeta table ?fs ?o ?d] =>
        destruct (insertMeta_run table fs o d) as (db3 & -> & _)
    end.
    done.
  - intros [= <- <-]. simpl in *. split.
    + eapply Forall_impl; [by eapply alterColumns_added|]. simpl. intros f. apply Hcols.
    + intros t. apply catalogFields_ext. by rewrite Hc, Hc1.
Qed.

Section X7_at_inputs.
#[local] Existing Instance Concrete.asciiLib.
#[local] Existing Instance Concrete.asciiEngine.
Import Concrete.

Lemma X7_AddColumns_appends_to_catalog_witness :
  catalogFields "patients"
    (after (AddColumns "patients" [field "weight" ["体重"] "number" true]) clinic)
  = catalogFields "patients" clinic
    ++ map catalogued [field "weight" ["体重"] "number" true].
Proof.
  refine (proj1 (X7_AddColumns_appends_to_catalog "patients"
                   [field "weight" ["体重"] "number" true] clinic
                   (after (AddColumns "patients"
                             [field "weight" ["体重"] "number" true]) clinic) _)).
  vm_compute. reflexivity.
Defined.

Lemma X8_AddColumns_failure_keeps_added_columns_witness :
  let db' := after (AddColumns "patients"
                      ([field "weight" [] "number" true]
                       ++ [field "age" [] "integer" true])) clinic in
  Forall (λ f, Name f ∈ tableInfo "patients" db') [field "weight" [] "number" true]
  ∧ ∀ t, catalogFields t db' = catalogFields t clinic.
Proof.
  refine (X8_AddColumns_failure_keeps_added_columns "patients"
            [field "weight" [] "number" true] [field "age" [] "integer" true]
            clinic
            (after (alterColumns "patients" [field "weight" [] "number" true]) clinic)
            _ (ErrEngine "duplicate column name") _ _).
  - vm_compute. reflexivity.
  - vm_compute. reflexivity.
Defined.

End X7_at_inputs.

Section MetaFacts.
Context `{G : GoLib} `{E : SqlEngine}.

#[local] Abbreviation retouch table f :=
  (λ m : ColumnMeta,
     if decide (cm_table m = table ∧ cm_column m = Name f)
     then {| cm_table := cm_table m; cm_column := cm_column m;
             cm_labels := Labels f; cm_type_hint := TypeHint f;
             cm_allow_null := AllowNull f; cm_order := cm_order m |}
     else m).

#[local] Abbreviation retouched f :=
  (λ g : FieldDefinition,
     if decide (Name f = Name g)
     then {| Name := Name g; OldName := ""; Labels := Labels f;
             TypeHint := TypeHint f; AllowNull := AllowNull f; Default := "" |}
     else g).

Lemma retouch_table (table : string) (f : FieldDefinition) (m : ColumnMeta) :
  cm_table (retouch table f m) = cm_table m
  ∧ cm_order (retouch table f m) = cm_order m.
Proof.
  cbv beta. by destruct (decide (cm_table m = table ∧ cm_column m = Name f)).
Qed.

Lemma meta_of_retouch (table other : string) (f : FieldDefinition)
    (cm : list ColumnMeta) :
  filter (λ m, cm_table m = other) (map (retouch table f) cm)
  = if decide (other = table)
    then map (retouch table f) (filter (λ m, cm_table m = other) cm)
    else filter (λ m, cm_table m = other) cm.
Proof.
  induction cm as [|m cm IH]; simpl.
  { by destruct (decide _). }
  rewrite !filter_cons, IH.
  destruct (retouch_table table f m) as [Ht _]. rewrite Ht.
  destruct (decide (cm_table m = other)) as [Hm|Hm];
    destruct (decide (other = table)) as [Ho|Ho]; try done.
  simpl. f_equal.
  rewrite decide_False; [done|]. intros [? _]. congruence.
Qed.

Lemma metaField_retouch (table : string) (f : FieldDefinition) (ms : list ColumnMeta) :
  Forall (λ m, cm_table m = table) ms →
  map metaField (map (retouch table f) ms) = map (retouched f) (map metaField ms).
Proof.
  induction 1 as [|m ms Hm _ IH]; [done|].
  simpl. rewrite IH. f_equal. unfold metaField at 2. simpl.
  destruct (decide (cm_table m = table ∧ cm_column m = Name f)) as [[_ Hc]|Hn].
  - by rewrite decide_True.
  - rewrite decide_False; [done|]. intros Hc. apply Hn. done.
Qed.

Lemma sort_by_Forall {A} (le : A → A → bool) (P : A → Prop) (l : list A) :
  Forall P l → Forall P (sort_by le l).
Proof. intros Hl. by rewrite sort_by_perm. Qed.

Lemma find_over_app {A} (p : A → bool) (l r : list A) :
  find p (l ++ r) = match find p l with Some x => Some x | None => find p r end.
Proof.
  induction l as [|x l IH]; [done|]. simpl. by destruct (p x).
Qed.

Lemma revised_cons (f : FieldDefinition) (rest : list FieldDefinition)
    (g : FieldDefinition) :
  OldName g = "" → Default g = "" →
  revised (f :: rest) g = revised rest (retouched f g).
Proof.
  intros Ho Hd. unfold revised. rewrite reverse_cons, find_over_app.
  assert (Name (retouched f g) = Name g) as Hn by (by destruct (decide _)).
  rewrite Hn.
  destruct (find _ (reverse rest)) as [f'|]; [done|]. simpl.
  destruct (decide (Name f = Name g)) as [Hfg|Hfg].
  - by rewrite bool_decide_eq_true_2.
  - by rewrite bool_decide_eq_false_2.
Qed.

(** The catalog updates go through one after the other and never fail. *)
Lemma updateMeta_run (table : string) (fields : list FieldDefinition) (db : DB) :
  ∃ db', updateMeta table fields db = (db', Ok tt)
         ∧ tables db' = tables db ∧ table_meta db' = table_meta db
         ∧ clock db' = clock db
         ∧ catalogFields table db' = map (revised fields) (catalogFields table db)
         ∧ ∀ other, other ≠ table → catalogFields other db' = catalogFields other db.
Proof.
  revert db. induction fields as [|f rest IH]; intros db.
  { exists db. repeat split; try done. unfold revised. simpl.
    by rewrite map_id. }
  simpl. unfold bind, Exec2. simpl.
  match goal with
  | |- context [updateMeta table rest ?d] =>
      destruct (IH d) as (db' & -> & Ht & Hm & Hk & Hcat & Hother)
  end.
  exists db'. rewrite Ht, Hm, Hk, Hcat. repeat split; try done.
  - unfold catalogFields, meta_of. simpl.
    rewrite meta_of_retouch, decide_True by done.
    rewrite sort_by_fmap by (intros a b; by destruct (decide _), (decide _)).
    rewrite metaField_retouch.
    + rewrite !map_map. apply map_ext. intros m. by rewrite revised_cons.
    + apply sort_by_Forall. apply Forall_forall. intros m Hm'.
      by apply list_elem_of_filter in Hm' as [? _].
  - intros other Hne. rewrite (Hother other Hne).
    unfold catalogFields, meta_of. simpl.
    by rewrite meta_of_retouch, decide_False.
Qed.

Lemma filter_complement {A} (P : A → Prop) `{∀ x, Decision (P x)} (l : list A) :
  filter P l = [] → filter (λ x, ¬ P x) l = l.
Proof.
  induction l as [|x l IH]; [done|].
  rewrite !filter_cons. destruct (decide (P x)); [done|].
  intros Hl. rewrite decide_True by done. by rewrite IH.
Qed.

(** The rows [ListTables] reads are listed one by one, each with its
    catalog. *)
Lemma listSchemas_run (metas : list (string * (string * string))) (db : DB) :
  ∃ db', listSchemas metas db = (db', Ok (map (listed db) metas))
         ∧ sameData db' db.
Proof.
  revert db. induction metas as [|[name [display description]] rest IH]; intros db.
  { by exists db. }
  simpl. unfold bind. rewrite listColumns_run.
  destruct (IH (logged listColumnsSQL db)) as (db' & -> & Hsame).
  exists db'. split; [|done]. do 2 f_equal.
Qed.

End MetaFacts.

(** X9. [UpdateColumns] never fails and only rewrites catalog attributes:
    the table's catalog keeps its fields and their order, each field taking
    the labels, type hint and nullability of the last field given under
    its name; a given field the catalog does not have is ignored; tables
    and the catalog of other tables are untouched. *)
Theorem X9_UpdateColumns_rewrites_attributes `{G : GoLib} `{E : SqlEngine}
    (table : string) (fields : list FieldDefinition) (db : DB) :
  ∃ db', UpdateColumns table fields db = (db', Ok tt)
         ∧ tables db' = tables db
         ∧ catalogFields table db' = map (revised fields) (catalogFields table db)
         ∧ map Name (catalogFields table db') = map Name (catalogFields table db)
         ∧ ∀ other, other ≠ table → catalogFields other db' = catalogFields other db.
Proof.
  unfold UpdateColumns, transaction.
  destruct (updateMeta_run table fields db) as (db' & -> & Ht & _ & _ & Hcat & Hother).
  exists db'. repeat split; try done.
  rewrite Hcat, map_map. apply map_ext. intros g. unfold revised.
  by destruct (find _ _).
Qed.

(** X10. Dropping a table that [CreateTable] has just created, where there
    was none before, gives back the data there was: the tables, the
    registry and the catalog are as before the creation. *)
Theorem X10_create_then_drop_restores `{G : GoLib} `{E : SqlEngine}
    (schema : TableSchema) (db db1 : DB) :
  tables db !! schemaName schema = None →
  table_meta db !! schemaName schema = None →
  meta_of (schemaName schema) db = [] →
  CreateTable schema db = (db1, Ok tt) →
  ∃ db2, DropTable (schemaName schema) db1 = (db2, Ok tt) ∧ sameData db2 db.
Proof.
  intros Ht Hm Hc Hrun.
  assert (∃ t, tables db1 = <[schemaName schema := t]> (tables db)) as [t Htab].
  { revert Hrun. unfold CreateTable.
    destruct (String.eqb (schemaName schema) ""); [done|].
    destruct (length (Fields schema) =? 0)%nat; [done|].
    destruct (createColumns (Fields schema)) as [cols|]; [|done].
    unfold bind. rewrite Exec_run. simpl. rewrite Ht.
    destruct (bool_decide _); [|done].
    match goal with
    | |- context [upsertMeta schema ?d] =>
        destruct (upsertMeta_run schema d) as (db' & -> & Htab & _)
    end.
    intros [= <-]. rewrite Htab. simpl. by eexists. }
  destruct (CreateTable_ok _ _ _ Hrun) as (db0 & Hdb1 & Hm0 & Hc0 & Hk0 & _).
  destruct (upsertMeta_run schema db0) as (db' & Hup & _ & Hm' & Hc' & Hk').
  rewrite Hup in Hdb1. simpl in Hdb1. subst db'.
  unfold DropTable, bind, Exec2, Exec. simpl.
  eexists. split; [done|]. unfold sameData. simpl.
  rewrite Htab, Hm', Hc', Hk', Hm0, Hc0, Hk0. repeat split.
  - by rewrite delete_insert_eq, delete_id.
  - by rewrite delete_insert_eq, delete_id.
  - rewrite filter_app, (filter_none _ (metaRows _ _ _)), app_nil_r.
    + rewrite list_filter_filter.
      rewrite <- (filter_complement (λ m, cm_table m = schemaName schema)
                    (column_meta db)) at 2 by done.
      apply list_filter_iff. intros m. split; [by intros [? _]|done].
    + eapply Forall_impl; [apply metaRows_table|]. simpl. intros m Hm1 Hm2. done.
Qed.

(** X11. A table that [CreateTable] has created is listed by [ListTables],
    with the display name and the description of its schema and with its
    fields in the order given; listing changes no data. *)
Theorem X11_created_table_is_listed `{G : GoLib} `{E : SqlEngine}
    (schema : TableSchema) (db db1 : DB) :
  CreateTable schema db = (db1, Ok tt) →
  ∃ db2 schemas,
    ListTables db1 = (db2, Ok schemas) ∧ sameData db2 db1
    ∧ {| schemaName := schemaName schema; DisplayName := DisplayName schema;
         Description := Description schema;
         Fields := map catalogued (Fields schema) |} ∈ schemas.
Proof.
  intros Hrun.
  assert (catalogFields (schemaName schema) db1 = map catalogued (Fields schema)
          ∧ table_meta db1 !! schemaName schema
            = Some (DisplayName schema, Description schema)) as [Hcat Hm].
  { destruct (CreateTable_ok _ _ _ Hrun) as (db0 & -> & _).
    pose proof (upsertMeta_catalog schema db0 (schemaName schema)) as Hcat.
    destruct (upsertMeta_run schema db0) as (db' & Hup & _ & Hm' & _).
    rewrite Hup in *. simpl in *. rewrite decide_True in Hcat by done.
    split; [done|]. rewrite Hm'. apply lookup_insert_eq. }
  unfold ListTables, bind, Query_.
  match goal with
  | |- context [listSchemas ?ms ?d] =>
      destruct (listSchemas_run ms d) as (db2 & -> & Hsame)
  end.
  exists db2. eexists. split; [done|]. split; [done|].
  apply list_elem_of_fmap.
  exists (schemaName schema, (DisplayName schema, Description schema)).
  split.
  - unfold listed. simpl. f_equal. symmetry.
    rewrite <- Hcat. by apply catalogFields_ext.
  - rewrite sort_by_perm. simpl. by apply elem_of_map_to_list.
Qed.

Section X10_at_inputs.
#[local] Existing Instance Concrete.asciiLib.
#[local] Existing Instance Concrete.asciiEngine.
Import Concrete.

Lemma X10_create_then_drop_restores_witness :
  ∃ db2, DropTable "patients" (after (CreateTable patients) emptyDB) = (db2, Ok tt)
         ∧ sameData db2 emptyDB.
Proof.
  apply (X10_create_then_drop_restores patients emptyDB).
  - reflexivity.
  - reflexivity.
  - reflexivity.
  - vm_compute. reflexivity.
Defined.

Lemma X11_created_table_is_listed_witness :
  ∃ db2 schemas,
    ListTables (after (CreateTable patients) emptyDB) = (db2, Ok schemas)
    ∧ sameData db2 (after (CreateTable patients) emptyDB)
    ∧ {| schemaName := "patients"; DisplayName := "Patients"; Description := "";
         Fields := map catalogued (Fields patients) |} ∈ schemas.
Proof.
  apply (X11_created_table_is_listed patients emptyDB).
  vm_compute. reflexivity.
Defined.

End X10_at_inputs.

(** ** Rows *)

Section RowFacts.
Context `{G : GoLib} `{E : SqlEngine}.

Lemma stripKeys_none (data : gmap string any) :
  (∀ k, is_Some (data !! k) → housekeeping k = true) → stripKeys data = ∅.
Proof.
  intros Hdata. apply map_eq. intros k. rewrite stripKeys_lookup, lookup_empty.
  destruct (housekeeping k) eqn:Hk; [done|].
  destruct (data !! k) as [v|] eqn:Hv; [|done].
  rewrite Hdata in Hk by (by rewrite Hv). done.
Qed.

Lemma stripKeys_Some (data : gmap string any) (k : string) (v : any) :
  stripKeys data !! k = Some v → housekeeping k = false ∧ data !! k = Some v.
Proof. rewrite stripKeys_lookup. by destruct (housekeeping k). Qed.

(** An update asks for no column the payload leaves out. *)
Lemma prepareLoop_update_required (data : gmap string any)
    (entries : list (string * FieldDefinition)) (acc : gmap string any) (c : string) :
  prepareLoop data entries false acc = Err (ErrRequired c) →
  ∃ def v, (c, def) ∈ entries ∧ AllowNull def = false ∧ data !! c = Some v
           ∧ convertValue (TypeHint def) v = Ok Nil.
Proof.
  revert acc. induction entries as [|[name def] rest IH]; intros acc; simpl; [done|].
  assert (∀ acc', prepareLoop data rest false acc' = Err (ErrRequired c) →
                  ∃ def' v, (c, def') ∈ (name, def) :: rest ∧ AllowNull def' = false
                            ∧ data !! c = Some v
                            ∧ convertValue (TypeHint def') v = Ok Nil) as Hrest.
  { intros acc' Hrun. destruct (IH _ Hrun) as (d & v & Hin & ?).
    exists d, v. split; [by right|done]. }
  destruct (data !! name) as [v|] eqn:Hv; [|by apply Hrest].
  destruct (convertValue (TypeHint def) v) as [r|] eqn:Hc; [|done].
  destruct r; try (by apply Hrest).
  destruct (AllowNull def) eqn:Hnull; simpl; [by apply Hrest|].
  intros [= <-]. exists def, v. split; [by left|done].
Qed.

Lemma bind_values_error (vs : list any) (e : error) :
  bind_values vs = Err e → ∃ msg, e = ErrEngine msg.
Proof.
  revert e. induction vs as [|v vs IH]; intros e; simpl; [done|].
  destruct v; simpl; destruct (bind_values vs) as [ss|e'];
    try done; try (intros [= <-]; by eexists); try (by apply IH).
Qed.

Lemma assigned_error (t : Table) (kvs : list (string * sqlval)) (e : error) :
  assigned t kvs = Err e → ∃ msg, e = ErrEngine msg.
Proof.
  revert e. induction kvs as [|[k v] kvs IH]; intros e; simpl; [done|].
  destruct (find _ _) as [c|]; [|intros [= <-]; by eexists].
  destruct (_ && _); [intros [= <-]; by eexists|].
  destruct (assigned t kvs) as [out|e']; [done|]. intros [= <-]. by apply IH.
Qed.

Lemma run2_UpdateById_error (table : string) (keys : list string) (vals : list any)
    (id : Z) (db : DB) (e : error) :
  run2 (UpdateById table keys vals id) db = Err e → ∃ msg, e = ErrEngine msg.
Proof.
  simpl. destruct (tables db !! table) as [t|]; [|intros [= <-]; by eexists].
  destruct (bind_values vals) as [svals|e'] eqn:Hb.
  - destruct (_ && _); [|intros [= <-]; by eexists].
    destruct (existsb _ _).
    + destruct (assigned _ _) as [sets|e'] eqn:Ha; [done|].
      intros [= <-]. by eapply assigned_error.
    + destruct (forallb _ _); [done|]. intros [= <-]. by eexists.
  - intros [= <-]. by eapply bind_values_error.
Qed.

Lemma UpdateRow_run (table : string) (id : Z) (data : gmap string any) (db : DB) :
  UpdateRow table id data db =
    if (size (stripKeys data) =? 0)%nat then (db, Ok tt)
    else match prepareDataWithMeta (stripKeys data) (declared table db) false with
         | Err e => (logged listColumnsSQL db, Err e)
         | Ok clean =>
             Exec2 (UpdateById table (range clean).*1 (range clean).*2 id)
               (logged listColumnsSQL db)
         end.
Proof.
  unfold UpdateRow. destruct (size _ =? 0)%nat; [done|].
  unfold prepareData, bind. rewrite listColumns_run. unfold declared.
  by destruct (prepareDataWithMeta _ _ _).
Qed.






End RowFacts.

(** X12. An update whose payload is empty, or names only the key and the
    two timestamps, succeeds without sending a statement, whatever the
    table, even one that does not exist. *)
Theorem X12_UpdateRow_empty_payload `{G : GoLib} `{E : SqlEngine}
    (table : string) (id : Z) (data : gmap string any) (db : DB) :
  (∀ k, is_Some (data !! k) → housekeeping k = true) →
  UpdateRow table id data db = (db, Ok tt).
Proof.
  intros Hdata. unfold UpdateRow. by rewrite stripKeys_none.
Qed.

(** X13. An update never asks for a column its payload leaves out: it
    reports a missing required field only for a column the catalog
    declares not-nullable and the payload sets to a value that coerces to
    null. *)
Theorem X13_UpdateRow_required_only_when_set `{G : GoLib} `{E : SqlEngine}
    (table : string) (id : Z) (data : gmap string any) (db : DB) (c : string) :
  (UpdateRow table id data db).2 = Err (ErrRequired c) →
  ∃ def v, declared table db !! c = Some def ∧ AllowNull def = false
           ∧ data !! c = Some v ∧ convertValue (TypeHint def) v = Ok Nil.
Proof.
  rewrite UpdateRow_run. destruct (size _ =? 0)%nat; [done|].
  destruct (prepareDataWithMeta _ _ _) as [clean|e] eqn:Hrun.
  - unfold Exec2. destruct (run2 _ _) as [db2|e] eqn:Hexec; [done|].
    simpl. intros [= ->]. by apply run2_UpdateById_error in Hexec as [msg ?].
  - simpl. intros [= ->]. unfold prepareDataWithMeta in Hrun.
    apply prepareLoop_update_required in Hrun as (def & v & Hin & Hnull & Hv & Hc).
    apply range_lookup in Hin. apply stripKeys_Some in Hv as [_ Hv].
    by exists def, v.
Qed.



(** X16. After [ClearTable] every query of the table gives no rows and the
    total zero; the table keeps its columns and the counter of its keys,
    so a key is not assigned again. *)
Theorem X16_ClearTable_empties `{G : GoLib} `{E : SqlEngine}
    (table : string) (db db1 : DB) (t : Table) :
  tables db !! table = Some t →
  ClearTable table db = (db1, Ok tt) →
  (∀ opts, (Query table opts db1).2 = Ok ([], 0))
  ∧ ∃ t1, tables db1 !! table = Some t1 ∧ t_rows t1 = []
          ∧ t_columns t1 = t_columns t ∧ t_seq t1 = t_seq t.
Proof.
  intros Ht. unfold ClearTable, Exec2. simpl. rewrite Ht. intros [= <-].
  split.
  - intros opts. erewrite Query_run by (simpl; apply lookup_insert_eq).
    simpl. unfold sorted, population, ordered, selected, paged. simpl.
    by rewrite drop_nil, take_nil.
  - eexists. simpl. rewrite lookup_insert_eq. by repeat split.
Qed.

Section X12_at_inputs.
#[local] Existing Instance Concrete.asciiLib.
#[local] Existing Instance Concrete.asciiEngine.
Import Concrete.

Lemma X12_UpdateRow_empty_payload_witness :
  UpdateRow "nowhere" 7 (<["id" := Int64 9]> ∅) clinic = (clinic, Ok tt).
Proof.
  apply (X12_UpdateRow_empty_payload "nowhere" 7 (<["id" := Int64 9]> ∅) clinic).
  intros k [v Hk]. destruct (decide (k = "id")) as [->|Hne]; [done|].
  by rewrite lookup_insert_ne, lookup_empty in Hk.
Defined.

Lemma X13_UpdateRow_required_only_when_set_witness :
  ∃ def v, declared "patients" clinic !! "name" = Some def ∧ AllowNull def = false
           ∧ (<["name" := Str " "]> ∅ : gmap string any) !! "name" = Some v
           ∧ convertValue (TypeHint def) v = Ok Nil.
Proof.
  apply (X13_UpdateRow_required_only_when_set "patients" 1 (<["name" := Str " "]> ∅)
           clinic "name").
  vm_compute. reflexivity.
Defined.

Lemma patients_table :
  ∃ t cols, tables clinic !! "patients" = Some t ∧ t_columns t = idColumn :: cols.
Proof. eexists _, _. split; vm_compute; reflexivity. Qed.



Lemma X16_ClearTable_empties_witness :
  (Query "patients" allRows (after (ClearTable "patients") clinic)).2 = Ok ([], 0).
Proof.
  destruct patients_table as (t & cols & Ht & _).
  refine (proj1 (X16_ClearTable_empties "patients" clinic
                   (after (ClearTable "patients") clinic) t Ht _) allRows).
  vm_compute. reflexivity.
Defined.

End X12_at_inputs.

(** ** Import *)

Section ImportLoopFacts.
Context `{G : GoLib} `{E : SqlEngine}.

(** One insert appends one row, or leaves the tables as they were. *)
Lemma InsertRow_rows (table : string) (data : gmap string any) (db : DB) (t : Table) :
  tables db !! table = Some t →
  match InsertRow table data db with
  | (db1, Ok _) => ∃ t1 r, tables db1 !! table = Some t1 ∧ t_rows t1 = t_rows t ++ [r]
  | (db1, Err _) => tables db1 = tables db
  end.
Proof.
  intros Ht. rewrite InsertRow_run.
  destruct (prepareDataWithMeta _ _ _) as [clean|e]; [|done].
  rewrite Exec_run. destruct (run _ _) as [[db2 z]|e] eqn:Hexec; [|done].
  revert Hexec. simpl. rewrite Ht.
  destruct (range clean).*1 as [|k ks]; [done|].
  destruct (bind_values _) as [svals|]; [|done].
  destruct (forallb _ _); [|done].
  unfold insert_one. destruct (build_row _ _ _ _) as [r|]; [|done].
  intros [= <- <-]. simpl. rewrite lookup_insert_eq. by eexists _, _.
Qed.

Lemma importRecord_rows (table : string) (mapping : list string)
    (metaMap : gmap string FieldDefinition) (record : list string) (db : DB)
    (t : Table) :
  tables db !! table = Some t →
  match importRecord table mapping metaMap record db with
  | (db1, Ok _) => ∃ t1 r, tables db1 !! table = Some t1 ∧ t_rows t1 = t_rows t ++ [r]
  | (db1, Err _) => tables db1 = tables db
  end.
Proof.
  intros Ht. unfold importRecord.
  destruct (prepareDataWithMeta _ _ _) as [clean|e]; [|done].
  unfold bind. pose proof (InsertRow_rows table clean db t Ht) as Hins.
  by destruct (InsertRow table clean db) as [db1 [z|e]].
Qed.

(** The loop adds one row for each record it counts, in the order of the
    records, and none for the record it stops at. *)
Lemma importLoop_rows (table : string) (mapping : list string)
    (metaMap : gmap string FieldDefinition) (records : list (list string))
    (inserted : Z) (db : DB) (t : Table) :
  tables db !! table = Some t →
  ∃ t' added,
    tables (importLoop table mapping metaMap records inserted db).1 !! table = Some t'
    ∧ t_rows t' = t_rows t ++ added
    ∧ (importLoop table mapping metaMap records inserted db).2.1
      = inserted + Z.of_nat (length added)
    ∧ (length added ≤ length (filter (λ r, isEmptyRow r = false) records))%nat.
Proof.
  revert inserted db t. induction records as [|record rest IH]; intros inserted db t Ht.
  { exists t, []. simpl. rewrite app_nil_r. repeat split; try done. lia. }
  simpl. destruct (isEmptyRow record) eqn:Hblank.
  - rewrite orb_true_r. destruct (IH inserted db t Ht) as (t' & added & ? & ? & ? & ?).
    exists t', added. rewrite filter_cons, decide_False by congruence. done.
  - rewrite orb_false_r.
    rewrite filter_cons, decide_True by done.
    destruct (length record =? 0)%nat.
    { destruct (IH inserted db t Ht) as (t' & added & ? & ? & ? & ?).
      exists t', added. repeat split; try done. simpl. lia. }
    pose proof (importRecord_rows table mapping metaMap record db t Ht) as Hrec.
    destruct (importRecord table mapping metaMap record db) as [db1 [[]|e]].
    + destruct Hrec as (t1 & r & Ht1 & Hrows).
      destruct (IH (inserted + 1) db1 t1 Ht1) as (t' & added & Ht' & Hadd & Hcount & Hlen).
      exists t', (r :: added). rewrite Ht', Hadd, Hcount, Hrows. simpl.
      rewrite <- app_assoc. repeat split; try done; lia.
    + exists t, []. simpl. rewrite Hrec, Ht, app_nil_r. repeat split; try done; lia.
Qed.



Lemma buildImportContext_run (table : string) (header : list string)
    (aliases : gmap string string) (allowUnknown : bool) (db : DB) :
  header ≠ [] →
  let db' := logged columnMetaSQL (logged listColumnsSQL (logged (tableInfoSQL table) db)) in
  let res := resolveHeader header (aliasMapOf aliases) (physicalColumns table db)
               (catalogLabels table db) allowUnknown in
  buildImportContext table header aliases allowUnknown db
  = if (0 <? length res.2)%nat then (db', Err (ErrUnknownColumns res.2))
    else (db', Ok (res.1, declared table db)).
Proof.
  intros Hne. unfold buildImportContext.
  destruct header as [|h0 rest]; [done|].
  change (length (h0 :: rest) =? 0)%nat with false. cbv iota.
  unfold bind. rewrite tableColumns_run, listColumns_run, columnMeta_run.
  change (catalogLabels table (logged listColumnsSQL (logged (tableInfoSQL table) db)))
    with (catalogLabels table db).
  change (catalogFields table (logged (tableInfoSQL table) db))
    with (catalogFields table db).
  cbv zeta.
  destruct (resolveHeader _ _ _ _ _) as [mapping unknown]. simpl.
  by destruct (0 <? length unknown)%nat.
Qed.


End ImportLoopFacts.

(** X17. An import reports the number of rows it added to the table, also
    when it stops at a record that fails: the rows of the records before
    it stay, after the rows the table had, and blank records add none. *)
Theorem X17_import_count_is_rows_added `{G : GoLib} `{E : SqlEngine}
    (table : string) (header : list string) (records : list (list string))
    (allowUnknown : bool) (aliases : gmap string string) (db : DB) (t : Table) :
  tables db !! table = Some t →
  ∃ t' added,
    tables (ImportCSV table header records allowUnknown aliases db).1 !! table
    = Some t'
    ∧ t_rows t' = t_rows t ++ added
    ∧ (ImportCSV table header records allowUnknown aliases db).2.1
      = Z.of_nat (length added)
    ∧ (length added ≤ length (filter (λ r, isEmptyRow r = false) records))%nat.
Proof.
  intros Ht. unfold ImportCSV.
  destruct header as [|h0 rest].
  { exists t, []. simpl. rewrite Ht, app_nil_r. repeat split; try done. lia. }
  rewrite buildImportContext_run by done. cbv zeta.
  destruct (0 <? length _)%nat.
  - exists t, []. simpl. rewrite Ht, app_nil_r. repeat split; try done. lia.
  - apply importLoop_rows. by simpl.
Qed.


Section X17_at_inputs.
#[local] Existing Instance Concrete.asciiLib.
#[local] Existing Instance Concrete.asciiEngine.
Import Concrete.

Lemma clinic_patients : ∃ t, tables clinic !! "patients" = Some t.
Proof. eexists. vm_compute. reflexivity. Qed.

Lemma X17_import_count_is_rows_added_witness :
  ∃ t t' added,
    tables clinic !! "patients" = Some t
    ∧ tables (ImportCSV "patients" ["name"; "age"]
                [["Zhao"; "40"]; [""; " "]; ["Qian"; "old"]; ["Sun"; "7"]]
                false ∅ clinic).1 !! "patients" = Some t'
    ∧ t_rows t' = t_rows t ++ added
    ∧ (ImportCSV "patients" ["name"; "age"]
         [["Zhao"; "40"]; [""; " "]; ["Qian"; "old"]; ["Sun"; "7"]]
         false ∅ clinic).2.1 = Z.of_nat (length added).
Proof.
  destruct clinic_patients as [t Ht].
  destruct (X17_import_count_is_rows_added "patients" ["name"; "age"]
              [["Zhao"; "40"]; [""; " "]; ["Qian"; "old"]; ["Sun"; "7"]]
              false ∅ clinic t Ht) as (t' & added & Ht' & Hrows & Hcount & _).
  exists t, t', added. exact (conj Ht (conj Ht' (conj Hrows Hcount))).
Defined.

Example import_stops_at_bad_record :
  (ImportCSV "patients" ["name"; "age"]
     [["Zhao"; "40"]; [""; " "]; ["Qian"; "old"]; ["Sun"; "7"]] false ∅ clinic).2
  = (1, Some (ErrField "age" ErrNeedInteger)).
Proof. vm_compute. reflexivity. Qed.


End X17_at_inputs.

(** ** The combined update *)

Section UpdateTableFacts.
Context `{G : GoLib} `{E : SqlEngine}.

#[local] Abbreviation trimmedName := (λ f : FieldDefinition, TrimSpace (Name f)).

Lemma checkNames_None (fields : list FieldDefinition) (nameSeen : gset string) :
  checkNames fields nameSeen = None →
  NoDup (map trimmedName fields)
  ∧ Forall (λ f, trimmedName f ≠ "" ∧ trimmedName f ∉ nameSeen) fields.
Proof.
  revert nameSeen. induction fields as [|f rest IH]; intros nameSeen; simpl.
  { intros _. split; constructor. }
  destruct (String.eqb_spec (TrimSpace (Name f)) "") as [|Hne]; [done|].
  destruct (bool_decide_reflect (TrimSpace (Name f) ∈ nameSeen)) as [|Hnew]; [done|].
  intros Hrest. destruct (IH _ Hrest) as [Hnd Hall]. split.
  - constructor; [|done]. intros Hin. apply list_elem_of_fmap in Hin as (g & Hg & Hin).
    rewrite Forall_forall in Hall. destruct (Hall g Hin) as [_ Hout].
    apply Hout. rewrite <- Hg. apply elem_of_union. left. by apply elem_of_singleton.
  - constructor; [done|]. eapply Forall_impl; [exact Hall|]. simpl.
    intros g [? Hg]. split; [done|]. intros Hin. apply Hg.
    apply elem_of_union. by right.
Qed.

Lemma checkNames_Some (fields : list FieldDefinition) (nameSeen : gset string)
    (e : updateError) :
  checkNames fields nameSeen = Some e → ∀ s, e ≠ ErrStorage s.
Proof.
  revert nameSeen. induction fields as [|f rest IH]; intros nameSeen; simpl; [done|].
  destruct (String.eqb _ ""); [by intros [= <-]|].
  destruct (bool_decide _); [by intros [= <-]|]. apply IH.
Qed.

(** The second loop writes one final field for each requested field, and
    passes only if no field changes a type. *)
Lemma planFields_inr (existingMap : gmap string FieldDefinition)
    (fields : list FieldDefinition) (acc p : UpdatePlan) :
  planFields existingMap fields acc = inr p →
  finalFields p = finalFields acc ++ map (finalOf existingMap) fields
  ∧ Forall (λ f, ¬ changesType existingMap f) fields.
Proof.
  revert acc. induction fields as [|f rest IH]; intros acc; simpl.
  { intros [= <-]. by rewrite app_nil_r. }
  fold (oldNameOf f).
  destruct (existingMap !! oldNameOf f) as [existing|] eqn:Hold.
  - destruct (negb (String.eqb (TypeHint f) "")
              && negb (EqualFold (TypeHint f) (TypeHint existing))) eqn:Hchk; [done|].
    intros Hrest. destruct (IH _ Hrest) as [Hfinal Hall]. split.
    + rewrite Hfinal. simpl. rewrite <- app_assoc. simpl. do 2 f_equal.
      unfold finalOf. by rewrite Hold.
    + constructor; [|done]. intros (ex & Hex & Hhint & Hfold).
      rewrite Hold in Hex. injection Hex as <-.
      rewrite Hfold in Hchk. simpl in Hchk. rewrite andb_true_r in Hchk.
      apply negb_false_iff, String.eqb_eq in Hchk. done.
  - destruct (String.eqb (TrimSpace (Name f)) "" || String.eqb (TypeHint f) "");
      [done|].
    intros Hrest. destruct (IH _ Hrest) as [Hfinal Hall]. split.
    + rewrite Hfinal. simpl. rewrite <- app_assoc. simpl. do 2 f_equal.
      unfold finalOf. by rewrite Hold.
    + constructor; [|done]. intros (ex & Hex & _). by rewrite Hold in Hex.
Qed.

Lemma planFields_inl (existingMap : gmap string FieldDefinition)
    (fields : list FieldDefinition) (acc : UpdatePlan) (e : updateError) :
  planFields existingMap fields acc = inl e → ∀ s, e ≠ ErrStorage s.
Proof.
  revert acc. induction fields as [|f rest IH]; intros acc; simpl; [done|].
  destruct (existingMap !! _) as [existing|].
  - destruct (_ && _); [by intros [= <-]|]. apply IH.
  - destruct (_ || _); [by intros [= <-]|]. apply IH.
Qed.

Lemma planUpdate_inl (existingFields fields : list FieldDefinition) (e : updateError) :
  planUpdate existingFields fields = inl e → ∀ s, e ≠ ErrStorage s.
Proof.
  unfold planUpdate.
  destruct (checkNames fields ∅) as [e'|] eqn:Hnames.
  { intros [= <-]. by eapply checkNames_Some. }
  destruct (planFields _ _ _) as [e'|p] eqn:Hplan.
  { intros [= <-]. by eapply planFields_inl. }
  destruct (length _ =? 0)%nat; [by intros [= <-]|done].
Qed.

Lemma planUpdate_inr (existingFields fields : list FieldDefinition) (p : UpdatePlan) :
  planUpdate existingFields fields = inr p →
  finalFields p = map (finalOf (metaMapOf existingFields)) fields
  ∧ fields ≠ []
  ∧ NoDup (map trimmedName fields)
  ∧ Forall (λ f, trimmedName f ≠ "") fields
  ∧ Forall (λ f, ¬ changesType (metaMapOf existingFields) f) fields.
Proof.
  unfold planUpdate.
  destruct (checkNames fields ∅) as [e'|] eqn:Hnames; [done|].
  destruct (planFields _ _ _) as [e'|p'] eqn:Hplan; [done|].
  destruct (length (finalFields p') =? 0)%nat eqn:Hlen; [done|].
  intros [= <-]. destruct (planFields_inr _ _ _ _ Hplan) as [Hfinal Hall].
  destruct (checkNames_None _ _ Hnames) as [Hnd Hne]. simpl in Hfinal.
  repeat split; try done.
  - intros ->. by rewrite Hfinal in Hlen.
  - eapply Forall_impl; [exact Hne|]. by intros f [? _].
Qed.

(** What [applyPlan] returns on success is what its last step,
    [upsertMeta], returns. *)
Lemma applyPlan_ok (now : Z) (table : string) (schema : TableSchema)
    (dropFields : list string) (p : UpdatePlan) (db db' : DB) :
  applyPlan now table schema dropFields p db = (db', Ok tt) →
  ∃ dbx, db' = (upsertMeta {| schemaName := targetOf table schema;
                              DisplayName := DisplayName schema;
                              Description := Description schema;
                              Fields := finalFields p |} dbx).1.
Proof.
  unfold applyPlan. fold (targetOf table schema). unfold bind at 1.
  destruct (_ db) as [d1 [[]|?]]; [|done].
  unfold bind at 1. destruct (renameColumns _ _ d1) as [d2 [[]|?]]; [|done].
  unfold bind at 1. destruct (_ d2) as [d3 [[]|?]]; [|done].
  unfold bind at 1. destruct (_ d3) as [d4 [[]|?]]; [|done].
  intros Hup. exists d4. by rewrite Hup.
Qed.

Lemma UpdateTable_run (now : Z) (table : string) (schema : TableSchema) (db : DB) :
  UpdateTable now table schema db =
    match planUpdate (catalogFields table db) (Fields schema) with
    | inl e => (logged listColumnsSQL db, Some e)
    | inr p =>
        match applyPlan now table schema (dropFieldsOf (catalogFields table db) p) p
                (logged listColumnsSQL db) with
        | (db2, Err e) => (db2, Some (ErrStorage e))
        | (db2, Ok _) => (db2, None)
        end
    end.
Proof. unfold UpdateTable. by rewrite listColumns_run. Qed.

End UpdateTableFacts.

(** X19. [UpdateTable] rejects a request with no field, with a field name
    that is empty after trimming, with a name given twice, or with a field
    that gives an existing column another type hint; it does so after
    only the read of the catalog, so no table, row or catalog entry
    changes.  Every error that is not one of a storage call is of this
    kind. *)
Theorem X19_UpdateTable_rejects_before_writing `{G : GoLib} `{E : SqlEngine}
    (now : Z) (table : string) (schema : TableSchema) (db : DB) :
  (Fields schema = []
   ∨ ¬ NoDup (map (λ f, TrimSpace (Name f)) (Fields schema))
   ∨ Exists (λ f, TrimSpace (Name f) = "") (Fields schema)
   ∨ Exists (changesType (declared table db)) (Fields schema) →
   ∃ e, UpdateTable now table schema db = (logged listColumnsSQL db, Some e)
        ∧ ∀ s, e ≠ ErrStorage s)
  ∧ ∀ e, (UpdateTable now table schema db).2 = Some e →
         (∀ s, e ≠ ErrStorage s) →
         (UpdateTable now table schema db).1 = logged listColumnsSQL db.
Proof.
  rewrite UpdateTable_run. split.
  - intros Hbad.
    destruct (planUpdate (catalogFields table db) (Fields schema)) as [e|p] eqn:Hplan.
    { exists e. split; [done|]. by eapply planUpdate_inl. }
    exfalso. apply planUpdate_inr in Hplan as (_ & Hne & Hnd & Hnames & Htypes).
    destruct Hbad as [Hbad|[Hbad|[Hbad|Hbad]]]; try done.
    + apply Exists_exists in Hbad as (f & Hin & Hf).
      rewrite Forall_forall in Hnames. by apply (Hnames f Hin).
    + apply Exists_exists in Hbad as (f & Hin & Hf).
      rewrite Forall_forall in Htypes. by apply (Htypes f Hin).
  - intros e.
    destruct (planUpdate (catalogFields table db) (Fields schema)) as [e'|p]; [done|].
    destruct (applyPlan _ _ _ _ _ _) as [db2 [[]|e2]]; [done|].
    simpl. intros [= <-] Hns. by destruct (Hns e2).
Qed.

(** X20. After a successful [UpdateTable] the catalog of the table, under
    the name it now has, lists the requested fields in the requested
    order, each under its trimmed name with the requested labels and
    nullability; a field that refers to an existing column has that
    column's type hint, whatever the request gave.  The display name and
    the description are the requested ones. *)
Theorem X20_UpdateTable_catalog `{G : GoLib} `{E : SqlEngine}
    (now : Z) (table : string) (schema : TableSchema) (db db' : DB) :
  UpdateTable now table schema db = (db', None) →
  catalogFields (targetOf table schema) db'
  = map (finalOf (declared table db)) (Fields schema)
  ∧ table_meta db' !! targetOf table schema
    = Some (DisplayName schema, Description schema).
Proof.
  rewrite UpdateTable_run.
  destruct (planUpdate (catalogFields table db) (Fields schema)) as [e|p] eqn:Hplan;
    [done|].
  destruct (applyPlan _ _ _ _ _ _) as [db2 [[]|e2]] eqn:Happly; [|done].
  intros [= <-]. apply applyPlan_ok in Happly as [dbx ->].
  apply planUpdate_inr in Hplan as (Hfinal & _).
  match goal with
  | |- context [upsertMeta ?s dbx] =>
      pose proof (upsertMeta_catalog s dbx (targetOf table schema)) as Hcat;
      destruct (upsertMeta_run s dbx) as (db3 & Hup & _ & Hm & _)
  end.
  rewrite Hup in *. simpl in *. rewrite decide_True in Hcat by done. split.
  - rewrite Hcat, Hfinal, map_map. apply map_ext. intros f. reflexivity.
  - rewrite Hm. apply lookup_insert_eq.
Qed.

Section X19_at_inputs.
#[local] Existing Instance Concrete.asciiLib.
#[local] Existing Instance Concrete.asciiEngine.
Import Concrete.

Lemma X19_UpdateTable_rejects_before_writing_witness :
  ∃ e, UpdateTable 0 "patients"
         {| schemaName := ""; DisplayName := "P"; Description := "";
            Fields := [field "name" [] "" false; field " name " [] "" true] |} clinic
       = (logged listColumnsSQL clinic, Some e)
       ∧ ∀ s, e ≠ ErrStorage s.
Proof.
  apply (X19_UpdateTable_rejects_before_writing 0 "patients"
           {| schemaName := ""; DisplayName := "P"; Description := "";
              Fields := [field "name" [] "" false; field " name " [] "" true] |} clinic).
  right. left. simpl. intros Hnd. apply NoDup_cons in Hnd as [Hnot _].
  apply Hnot. vm_compute. left.
Defined.

Lemma X20_UpdateTable_catalog_witness :
  let schema := {| schemaName := "cases"; DisplayName := "Cases"; Description := "";
                   Fields := [{| Name := "full_name"; OldName := "name"; Labels := [];
                                 TypeHint := "TEXT"; AllowNull := false; Default := "" |};
                              field "age" ["年龄"] "" true;
                              field "weight" [] "number" true] |} in
  catalogFields "cases" (UpdateTable 7 "patients" schema clinic).1
  = [field "full_name" [] "text" false; field "age" ["年龄"] "integer" true;
     field "weight" [] "number" true].
Proof.
  intros schema.
  refine (proj1 (X20_UpdateTable_catalog 7 "patients" schema clinic
                   (UpdateTable 7 "patients" schema clinic).1 _)).
  vm_compute. reflexivity.
Defined.

End X19_at_inputs.

(** ** Dropping columns *)

Section DropCatalogFacts.
Context `{G : GoLib} `{E : SqlEngine}.

(** The statements on tables leave the registry and the catalog alone. *)
Lemma run_table_statement (s : stmt) (db db' : DB) (z : Z) :
  run s db = Ok (db', z) →
  match s with
  | CreateTableStmt _ _ _ | AlterAddColumn _ _ | InsertSelect _ _ _
  | DropTableStmt _ | RenameTable _ _ | InsertInto _ _ _ | DeleteIn _ _ =>
      table_meta db' = table_meta db ∧ column_meta db' = column_meta db
      ∧ clock db' = clock db
  | _ => True
  end.
Proof.
  destruct s; simpl; try done.
  - destruct (tables db !! name); [destruct ifNotExists|destruct (bool_decide _)];
      try done; by intros [= <- _].
  - destruct (tables db !! table); [|done].
    destruct (slices_Contains _ _); [done|]. destruct (_ && _); [done|].
    by intros [= <- _].
  - destruct (tables db !! src); [|done]. destruct (tables db !! dst); [|done].
    destruct (_ && _); [|done]. destruct (insert_all _ _ _); [|done].
    by intros [= <- _].
  - destruct (tables db !! name); [|done]. by intros [= <- _].
  - destruct (tables db !! old); [|done].
    destruct (tables db !! new); [done|]. by intros [= <- _].
  - destruct keys; [done|]. destruct (tables db !! table); [|done].
    destruct (bind_values _); [|done]. destruct (forallb _ _); [|done].
    destruct (insert_one _ _ _) as [[]|]; [|done]. by intros [= <- _].
  - destruct (tables db !! table); [|done]. by intros [= <- _].
Qed.

Lemma Exec_table_statement (s : stmt) (db db' : DB) (z : Z) :
  match s with
  | CreateTableStmt _ _ _ | AlterAddColumn _ _ | InsertSelect _ _ _
  | DropTableStmt _ | RenameTable _ _ | InsertInto _ _ _ | DeleteIn _ _ => True
  | _ => False
  end →
  Exec s db = (db', Ok z) →
  table_meta db' = table_meta db ∧ column_meta db' = column_meta db
  ∧ clock db' = clock db.
Proof.
  intros Hs. rewrite Exec_run.
  destruct (run s _) as [[db2 z2]|e] eqn:Hrun; [|done].
  intros [= <- <-]. apply run_table_statement in Hrun. by destruct s.
Qed.

Lemma insert_by_first {A} (le : A → A → bool) (x : A) (l : list A) :
  Forall (λ y, le x y = true) l → insert_by le x l = x :: l.
Proof. destruct 1 as [|y l Hy _]; [done|]. simpl. by rewrite Hy. Qed.

Section Sorting.
Context {A : Type} (le : A → A → bool).
Hypothesis le_total : ∀ a b, le a b = true ∨ le b a = true.
Hypothesis le_trans : ∀ a b c, le a b = true → le b c = true → le a c = true.

#[local] Abbreviation ascending := (StronglySorted (λ a b, le a b = true)).

Lemma insert_by_sorted (x : A) (l : list A) :
  ascending l → ascending (insert_by le x l).
Proof.
  induction 1 as [|y l Hl IH Hy]; simpl.
  { constructor; constructor. }
  destruct (le x y) eqn:Hxy.
  - constructor; [by constructor|]. constructor; [done|].
    eapply Forall_impl; [exact Hy|]. simpl. intros z. by apply le_trans.
  - constructor; [done|]. rewrite insert_by_perm. constructor; [|done].
    destruct (le_total x y); congruence.
Qed.

Lemma sort_by_sorted (l : list A) : ascending (sort_by le l).
Proof.
  induction l as [|x l IH]; [constructor|]. by apply insert_by_sorted.
Qed.

Lemma filter_insert_by (P : A → Prop) `{∀ x, Decision (P x)} (x : A) (l : list A) :
  ascending l →
  filter P (insert_by le x l)
  = if decide (P x) then insert_by le x (filter P l) else filter P l.
Proof.
  induction 1 as [|y l Hl IH Hy]; simpl.
  { rewrite filter_cons, filter_nil. by destruct (decide (P x)). }
  destruct (le x y) eqn:Hxy.
  - rewrite filter_cons. destruct (decide (P x)); [|done].
    rewrite insert_by_first; [done|].
    apply Forall_forall. intros z Hz. apply list_elem_of_filter in Hz as [_ Hz].
    apply elem_of_cons in Hz as [->|Hz]; [done|].
    rewrite Forall_forall in Hy. eapply le_trans; [exact Hxy|]. by apply Hy.
  - rewrite !filter_cons, IH.
    destruct (decide (P x)), (decide (P y)); try done. simpl. by rewrite Hxy.
Qed.

(** Sorting what a filter keeps is filtering what is sorted. *)
Lemma sort_by_filter (P : A → Prop) `{∀ x, Decision (P x)} (l : list A) :
  sort_by le (filter P l) = filter P (sort_by le l).
Proof.
  induction l as [|x l IH]; [done|].
  rewrite filter_cons. change (sort_by le (x :: l)) with (insert_by le x (sort_by le l)).
  rewrite filter_insert_by by apply sort_by_sorted.
  destruct (decide (P x)); [|done].
  change (sort_by le (x :: filter P l)) with (insert_by le x (sort_by le (filter P l))).
  by rewrite IH.
Qed.

End Sorting.

Lemma filter_metaField (columns : list string) (ms : list ColumnMeta) :
  map metaField (filter (λ m, cm_column m ∉ columns) ms)
  = filter (λ f, Name f ∉ columns) (map metaField ms).
Proof.
  induction ms as [|m ms IH]; [done|]. simpl. rewrite !filter_cons. simpl.
  destruct (decide (cm_column m ∉ columns)); simpl; by rewrite IH.
Qed.

(** The catalog after the entries of the named columns of a table are
    deleted. *)
Lemma catalogFields_deleted (table other : string) (columns : list string)
    (a b : DB) :
  column_meta b
  = filter (λ m, ¬ (cm_table m = table ∧ cm_column m ∈ columns)) (column_meta a) →
  catalogFields other b
  = if decide (other = table)
    then filter (λ f, Name f ∉ columns) (catalogFields other a)
    else catalogFields other a.
Proof.
  intros Hb. unfold catalogFields, meta_of. rewrite Hb, list_filter_filter.
  destruct (decide (other = table)) as [->|Hne].
  - rewrite <- filter_metaField.
    rewrite <- sort_by_filter.
    + f_equal. f_equal. rewrite list_filter_filter. apply list_filter_iff.
      intros m. split.
      * intros [Ht Hn]. split; [|done]. intros Hin. apply Hn. done.
      * intros [Hn Ht]. split; [done|]. intros [_ Hin]. done.
    + intros a0 b0. destruct (Z.leb_spec (cm_order a0) (cm_order b0)); [by left|].
      right. apply Z.leb_le. lia.
    + intros a0 b0 c0 ?%Z.leb_le ?%Z.leb_le. apply Z.leb_le. lia.
  - f_equal. f_equal. apply list_filter_iff. intros m. split; [by intros [? _]|].
    intros Hm. split; [done|]. intros [Ht _]. congruence.
Qed.

(** The rebuild inside [DropColumns]: on success the registry and the
    catalog are as before. *)
Lemma rebuild_frame (body : M unit) (db db' : DB) (tmp table : string)
    (cols : list Column) (copy : list string) :
  body = (Exec (CreateTableStmt false tmp cols) ;;
          Exec (InsertSelect tmp copy table) ;;
          Exec (DropTableStmt table) ;;
          Exec (RenameTable tmp table) ;;
          ret tt) →
  body db = (db', Ok tt) →
  table_meta db' = table_meta db ∧ column_meta db' = column_meta db
  ∧ clock db' = clock db.
Proof.
  intros ->. unfold bind.
  destruct (Exec (CreateTableStmt false tmp cols) db) as [d1 [z1|]] eqn:H1; [|done].
  destruct (Exec (InsertSelect tmp copy table) d1) as [d2 [z2|]] eqn:H2; [|done].
  destruct (Exec (DropTableStmt table) d2) as [d3 [z3|]] eqn:H3; [|done].
  destruct (Exec (RenameTable tmp table) d3) as [d4 [z4|]] eqn:H4; [|done].
  intros [= <-].
  apply Exec_table_statement in H1 as (? & ? & ?); [|done].
  apply Exec_table_statement in H2 as (? & ? & ?); [|done].
  apply Exec_table_statement in H3 as (? & ? & ?); [|done].
  apply Exec_table_statement in H4 as (? & ? & ?); [|done].
  repeat split; congruence.
Qed.

End DropCatalogFacts.

(** X21. When the temporary name the rebuild wants - the table's name,
    [_tmp_] and the clock reading - is taken, [DropColumns] of a column
    the table has fails with the engine's error for its CREATE TABLE,
    which has no IF NOT EXISTS: the statements sent are the PRAGMA and
    that one, the transaction is rolled back, and the tables, the
    registry and the catalog are as before; no catalog entry is
    deleted. *)
Theorem X21_DropColumns_temporary_name_taken `{G : GoLib} `{E : SqlEngine}
    (now : Z) (table : string) (columns : list string) (db : DB) :
  Exists (λ c, c ∈ columns) (physicalColumns table db) →
  is_Some (tables db !! (table +:+ "_tmp_" +:+ itoa now)) →
  ∃ db',
    DropColumns now table columns db = (db', Err (ErrEngine "table already exists"))
    ∧ sameData db' db
    ∧ trace db'
      = trace db ++
        [tableInfoSQL table;
         sqlText (CreateTableStmt false (table +:+ "_tmp_" +:+ itoa now)
                    (rebuildColumns (kept table columns db)))].
Proof.
  intros Hsome [tmp Htmp]. unfold DropColumns.
  destruct columns as [|c0 cs]; [by apply Exists_exists in Hsome as (? & _ & ?%elem_of_nil)|].
  change (length (c0 :: cs) =? 0)%nat with false. cbv iota.
  unfold bind at 1. rewrite tableColumns_run.
  fold (kept table (c0 :: cs) db).
  destruct (Nat.eqb_spec (length (kept table (c0 :: cs) db))
              (length (physicalColumns table db))) as [Hlen|_].
  { exfalso. apply Exists_exists in Hsome as (c & Hin & Hc).
    pose proof (length_filter_lt (λ c, slices_Contains (c0 :: cs) c = false)
                  (physicalColumns table db) c Hin) as Hlt.
    unfold kept in Hlen. rewrite Hlen in Hlt.
    apply (Nat.lt_irrefl (length (physicalColumns table db))).
    apply Hlt. intros Hno. by apply slices_Contains_false in Hno. }
  unfold bind at 1. unfold transaction. unfold bind at 1. rewrite Exec_run.
  cbn [run]. cbn [tables logged with_trace]. rewrite Htmp.
  eexists. split; [reflexivity|]. split; [done|].
  cbn. by rewrite <- app_assoc.
Qed.

(** X22. When [DropColumns] succeeds and at least one of the named columns
    is a column of the table, the catalog of the table loses the entries
    of the named columns and keeps the others as they were and in their
    order; the catalog of every other table is as before. *)
Theorem X22_DropColumns_catalog `{G : GoLib} `{E : SqlEngine}
    (now : Z) (table : string) (columns : list string) (db db' : DB) :
  Exists (λ c, c ∈ columns) (physicalColumns table db) →
  DropColumns now table columns db = (db', Ok tt) →
  catalogFields table db'
  = filter (λ f, Name f ∉ columns) (catalogFields table db)
  ∧ ∀ other, other ≠ table → catalogFields other db' = catalogFields other db.
Proof.
  intros Hsome. unfold DropColumns.
  destruct columns as [|c0 cs]; [by apply Exists_exists in Hsome as (? & _ & ?%elem_of_nil)|].
  change (length (c0 :: cs) =? 0)%nat with false. cbv iota.
  unfold bind at 1. rewrite tableColumns_run.
  destruct (Nat.eqb_spec
              (length (filter (λ c, slices_Contains (c0 :: cs) c = false)
                         (physicalColumns table db)))
              (length (physicalColumns table db))) as [Hlen|_].
  { exfalso. apply Exists_exists in Hsome as (c & Hin & Hc).
    pose proof (length_filter_lt (λ c, slices_Contains (c0 :: cs) c = false)
                  (physicalColumns table db) c Hin) as Hlt.
    rewrite Hlen in Hlt. apply (Nat.lt_irrefl (length (physicalColumns table db))).
    apply Hlt. intros Hno. by apply slices_Contains_false in Hno. }
  unfold bind at 1. unfold transaction.
  match goal with
  | |- context [match ?body ?d with _ => _ end] =>
      destruct (body d) as [d1 [[]|e1]] eqn:Hbody
  end; [|done].
  eapply rebuild_frame in Hbody as (_ & Hcm & _); [|reflexivity].
  unfold bind. rewrite Exec_run. simpl. intros [= <-].
  assert (∀ other,
            catalogFields other
              (with_column_meta
                 (logged (sqlText (DeleteColumnMetaIn table (c0 :: cs))) d1)
                 (filter (λ m, ¬ (cm_table m = table ∧ cm_column m ∈ c0 :: cs))
                    (column_meta d1)))
            = if decide (other = table)
              then filter (λ f, Name f ∉ c0 :: cs) (catalogFields other db)
              else catalogFields other db) as Hcat.
  { intros other.
    rewrite (catalogFields_deleted table other (c0 :: cs) d1) by done.
    by rewrite (catalogFields_ext other d1 db) by done. }
  split.
  - by rewrite Hcat, decide_True.
  - intros other Hne. by rewrite Hcat, decide_False.
Qed.

Section X21_at_inputs.
#[local] Existing Instance Concrete.asciiLib.
#[local] Existing Instance Concrete.asciiEngine.
Import Concrete.

Lemma X21_DropColumns_temporary_name_taken_witness :
  ∃ db',
    DropColumns 7 "patients" ["note"]
      (after (CreateTable
                {| schemaName := "patients_tmp_7"; DisplayName := "";
                   Description := ""; Fields := [field "x" [] "text" true] |}) clinic)
    = (db', Err (ErrEngine "table already exists"))
    ∧ sameData db'
        (after (CreateTable
                  {| schemaName := "patients_tmp_7"; DisplayName := "";
                     Description := ""; Fields := [field "x" [] "text" true] |}) clinic).
Proof.
  destruct (X21_DropColumns_temporary_name_taken 7 "patients" ["note"]
              (after (CreateTable
                        {| schemaName := "patients_tmp_7"; DisplayName := "";
                           Description := "";
                           Fields := [field "x" [] "text" true] |}) clinic))
    as (db' & Hrun & Hsame & _).
  - apply Exists_exists. exists "note". split; [by_decide|by left].
  - eexists. vm_compute. reflexivity.
  - exists db'. exact (conj Hrun Hsame).
Defined.

Lemma X22_DropColumns_catalog_witness :
  catalogFields "patients" (after (DropColumns 7 "patients" ["note"; "iop"]) clinic)
  = filter (λ f, Name f ∉ ["note"; "iop"]) (catalogFields "patients" clinic).
Proof.
  refine (proj1 (X22_DropColumns_catalog 7 "patients" ["note"; "iop"] clinic
                   (after (DropColumns 7 "patients" ["note"; "iop"]) clinic) _ _)).
  - apply Exists_exists. exists "note". split; [|by left].
    by_decide.
  - vm_compute. reflexivity.
Defined.

End X21_at_inputs.

(** ** Export *)

Section ExportFacts.
Context `{G : GoLib} `{E : SqlEngine}.

Lemma orderOf_column (opts : QueryOptions) (columns : list string) :
  (orderOf opts columns).1.2 = "id" ∨ (orderOf opts columns).1.2 ∈ columns.
Proof.
  unfold orderOf.
  destruct (negb (String.eqb (SortBy opts) "")) eqn:Hs; simpl; [|by left].
  destruct (slices_Contains columns (SortBy opts)) eqn:Hc; simpl; [|by left].
  right. apply slices_Contains_elem. by rewrite Hc.
Qed.

Lemma physicalColumns_columns (table : string) (db : DB) (t : Table) (c : string) :
  tables db !! table = Some t → c ∈ physicalColumns table db → c ∈ column_names t.
Proof.
  intros Ht. unfold physicalColumns, tableInfo. rewrite Ht.
  by intros [_ ?]%list_elem_of_filter.
Qed.

(** What [fetchRowsForExport] reads when the fields are the columns of the
    table and no keys are given. *)
Lemma fetchRowsForExport_run (table : string) (fields : list FieldDefinition)
    (opts : QueryOptions) (all : bool) (db : DB) (t : Table) :
  tables db !! table = Some t →
  map Name fields = physicalColumns table db →
  fields ≠ [] →
  "id" ∈ column_names t →
  (fetchRowsForExport table fields opts [] all db).2
  = Ok (map (projected (map Name fields))
          (if all then sorted table opts db t
           else paged (pageSizeOf opts)
                  (wrap64 ((pageOf opts - 1) * pageSizeOf opts))
                  (sorted table opts db t))).
Proof.
  intros Ht Hcols Hne Hid. unfold fetchRowsForExport. simpl.
  pose proof (orderOf_column opts (map Name fields)) as Hsort.
  unfold sorted, population. rewrite <- Hcols.
  destruct (orderOf opts (map Name fields)) as [[order sortCol] sortDesc].
  simpl in *. unfold Query_. simpl. rewrite Ht.
  destruct fields as [|f fs]; [done|]. simpl length. cbv iota. simpl Nat.eqb. cbv iota.
  assert (slices_Contains (column_names t) sortCol = true) as ->.
  { apply slices_Contains_elem. destruct Hsort as [->|Hin]; [done|].
    eapply physicalColumns_columns; [done|]. by rewrite <- Hcols. }
  rewrite forallb_contains.
  - unfold exportSelected. simpl. by destruct all.
  - apply Forall_forall. intros c Hc.
    eapply physicalColumns_columns; [done|]. by rewrite <- Hcols.
Qed.

End ExportFacts.

(** X23. When the catalogued fields are the columns of the table, an
    export without keys reads the rows [Query] reads for the same
    options, in the same order, cut down to the catalogued columns: with
    "all" off the page [Query] returns, with "all" on every row [Query]
    counts in its total. *)
Theorem X23_export_reads_what_Query_reads `{G : GoLib} `{E : SqlEngine}
    (table : string) (fields : list FieldDefinition) (opts : QueryOptions)
    (db : DB) (t : Table) :
  tables db !! table = Some t →
  map Name fields = physicalColumns table db →
  fields ≠ [] →
  "id" ∈ column_names t →
  ∃ page everything total,
    (Query table opts db).2 = Ok (map stripStamps page, total)
    ∧ (fetchRowsForExport table fields opts [] false db).2
      = Ok (map (projected (map Name fields)) page)
    ∧ (fetchRowsForExport table fields opts [] true db).2
      = Ok (map (projected (map Name fields)) everything)
    ∧ Z.of_nat (length everything) = total
    ∧ page = paged (pageSizeOf opts) (wrap64 ((pageOf opts - 1) * pageSizeOf opts))
               everything.
Proof.
  intros Ht Hcols Hne Hid.
  exists (paged (pageSizeOf opts) (wrap64 ((pageOf opts - 1) * pageSizeOf opts))
            (sorted table opts db t)),
         (sorted table opts db t),
         (Z.of_nat (length (population table opts db t))).
  split; [by rewrite (Query_run table opts db t Ht)|].
  split; [by rewrite (fetchRowsForExport_run _ _ _ false _ t)|].
  split; [by rewrite (fetchRowsForExport_run _ _ _ true _ t)|].
  split; [|done]. unfold sorted, ordered. by rewrite sort_by_length.
Qed.

Section X23_at_inputs.
#[local] Existing Instance Concrete.asciiLib.
#[local] Existing Instance Concrete.asciiEngine.
Import Concrete.

Lemma clinic_patients_columns :
  ∃ t, tables clinic !! "patients" = Some t
       ∧ map Name (catalogFields "patients" clinic) = physicalColumns "patients" clinic
       ∧ catalogFields "patients" clinic ≠ []
       ∧ "id" ∈ column_names t.
Proof.
  eexists. split; [vm_compute; reflexivity|].
  split; [vm_compute; reflexivity|]. split; [|by_decide].
  intros Heq. apply (f_equal length) in Heq. vm_compute in Heq. discriminate.
Qed.

Lemma X23_export_reads_what_Query_reads_witness :
  ∃ page everything total,
    (Query "patients" allRows clinic).2 = Ok (map stripStamps page, total)
    ∧ (fetchRowsForExport "patients" (catalogFields "patients" clinic) allRows []
         false clinic).2
      = Ok (map (projected (map Name (catalogFields "patients" clinic))) page)
    ∧ (fetchRowsForExport "patients" (catalogFields "patients" clinic) allRows []
         true clinic).2
      = Ok (map (projected (map Name (catalogFields "patients" clinic))) everything)
    ∧ Z.of_nat (length everything) = total
    ∧ page = paged (pageSizeOf allRows)
               (wrap64 ((pageOf allRows - 1) * pageSizeOf allRows)) everything.
Proof.
  destruct clinic_patients_columns as (t & Ht & Hcols & Hne & Hid).
  exact (X23_export_reads_what_Query_reads "patients"
           (catalogFields "patients" clinic) allRows clinic t Ht Hcols Hne Hid).
Defined.

End X23_at_inputs.

(** ** The cells of the exported sheet *)

Section SheetFacts.
Context `{G : GoLib} `{E : SqlEngine}.

Lemma excelName_upper (fuel : nat) (idx : Z) (name : string) :
  allBytes isUpper name = true → allBytes isUpper (excelName fuel idx name) = true.
Proof.
  revert idx name. induction fuel as [|fuel IH]; intros idx name Hname; [done|].
  cbn [excelName]. destruct (0 <? idx) eqn:Hidx; [|done].
  apply IH. cbn [allBytes]. rewrite Hname, andb_true_r.
  apply Z.ltb_lt in Hidx.
  pose proof (Z.mod_pos_bound (idx - 1) 26 ltac:(lia)) as Hmod.
  unfold isUpper. rewrite N_ascii_embedding by lia.
  apply andb_true_iff. split; apply N.leb_le; lia.
Qed.

Lemma excelColumnName_upper (idx : Z) : allBytes isUpper (excelColumnName idx) = true.
Proof. unfold excelColumnName. by apply excelName_upper. Qed.

Lemma pretty_N_char_digit (x : N) : isDigit (pretty_N_char x) = true.
Proof.
  unfold pretty_N_char. repeat case_match; reflexivity.
Qed.

Lemma pretty_N_go_digits (x : N) (s : string) :
  allBytes isDigit s = true → allBytes isDigit (pretty_N_go x s) = true.
Proof.
  revert s. induction (N.lt_wf_0 x) as [x _ IH]; intros s Hs.
  assert (x = 0 ∨ 0 < x)%N as [->|Hx] by lia.
  - by rewrite pretty_N_go_0.
  - rewrite pretty_N_go_step by done. apply IH.
    + by apply N.div_lt.
    + cbn [allBytes]. by rewrite pretty_N_char_digit, Hs.
Qed.

Lemma pretty_N_go_length (x : N) (s : string) :
  (String.length s ≤ String.length (pretty_N_go x s))%nat.
Proof.
  revert s. induction (N.lt_wf_0 x) as [x _ IH]; intros s.
  assert (x = 0 ∨ 0 < x)%N as [->|Hx] by lia.
  - by rewrite pretty_N_go_0.
  - rewrite pretty_N_go_step by done.
    etrans; [|apply IH; by apply N.div_lt]. simpl. lia.
Qed.

(** A positive number prints as digits, at least one. *)
Lemma itoa_digits (z : Z) :
  0 < z → allBytes isDigit (itoa z) = true ∧ itoa z ≠ "".
Proof.
  intros Hz. destruct z as [|p|p]; try lia.
  unfold itoa, pretty, pretty_Z, pretty, pretty_positive, pretty, pretty_N.
  rewrite decide_False by done. split.
  - by apply pretty_N_go_digits.
  - rewrite pretty_N_go_step by lia. intros Heq.
    pose proof (pretty_N_go_length (N.pos p `div` 10)
                  (String (pretty_N_char (N.pos p `mod` 10)) "")) as Hlen.
    rewrite Heq in Hlen. simpl in Hlen. lia.
Qed.

Lemma upper_not_digit (a : ascii) : isUpper a = true → isDigit a = true → False.
Proof.
  unfold isUpper, isDigit. intros [H1 _]%andb_true_iff [_ H2]%andb_true_iff.
  apply N.leb_le in H1, H2. lia.
Qed.

(** Letters followed by digits split in one way only. *)
Lemma letters_digits_split (u u' d d' : string) :
  allBytes isUpper u = true → allBytes isUpper u' = true →
  allBytes isDigit d = true → allBytes isDigit d' = true →
  d ≠ "" → d' ≠ "" →
  u +:+ d = u' +:+ d' → u = u' ∧ d = d'.
Proof.
  revert u'. induction u as [|a u IH]; intros [|a' u']; simpl;
    intros Hu Hu' Hd Hd' Hne Hne' Heq.
  - done.
  - exfalso. change (d = String a' (u' +:+ d')) in Heq. subst d.
    cbn [allBytes] in Hd.
    apply andb_true_iff in Hu' as [Ha _]. apply andb_true_iff in Hd as [Ha' _].
    by eapply upper_not_digit.
  - exfalso. change (String a (u +:+ d) = d') in Heq. subst d'.
    cbn [allBytes] in Hd'.
    apply andb_true_iff in Hu as [Ha _]. apply andb_true_iff in Hd' as [Ha' _].
    by eapply upper_not_digit.
  - change (String a (u +:+ d) = String a' (u' +:+ d')) in Heq.
    injection Heq as <- Heq.
    apply andb_true_iff in Hu as [_ Hu]. apply andb_true_iff in Hu' as [_ Hu'].
    destruct (IH u' Hu Hu' Hd Hd' Hne Hne' Heq) as [-> ->]. done.
Qed.

(** A cell name stands for one column and one row. *)
Lemma cell_name_inj (c c' a a' : Z) :
  0 ≤ c → 0 ≤ c' → 0 < a → 0 < a' →
  excelColumnName c +:+ itoa a = excelColumnName c' +:+ itoa a' →
  c = c' ∧ a = a'.
Proof.
  intros Hc Hc' Ha Ha' Heq.
  destruct (itoa_digits a Ha) as [Hd Hne], (itoa_digits a' Ha') as [Hd' Hne'].
  apply letters_digits_split in Heq as [Hname Hnum];
    try done; try apply excelColumnName_upper.
  split.
  - apply (f_equal (λ s, letterValue s 0)) in Hname.
    rewrite !excelColumnName_value in Hname by done. lia.
  - unfold itoa in Hnum. by apply (inj pretty) in Hnum.
Qed.

(** Writing cells one after the other: a cell holds the value written
    under its name when nothing else was written under that name. *)
Lemma written_lookup (cells : list (string * sqlval)) (k : string) (v : sqlval) :
  (k, v) ∈ cells →
  (∀ v', (k, v') ∈ cells → v' = v) →
  foldl (λ sheet kv, <[kv.1 := kv.2]> sheet) (∅ : gmap string sqlval) cells !! k
  = Some v.
Proof.
  induction cells as [|[k' v'] cells IH] using rev_ind; [by intros ?%elem_of_nil|].
  intros Hin Hfun. rewrite foldl_app. simpl.
  destruct (decide (k' = k)) as [->|Hne].
  - rewrite lookup_insert_eq. f_equal. apply Hfun. apply elem_of_app. right. by left.
  - rewrite lookup_insert_ne by done. apply IH.
    + apply elem_of_app in Hin as [?|Hin]; [done|].
      apply list_elem_of_singleton in Hin. congruence.
    + intros w Hw. apply Hfun. apply elem_of_app. by left.
Qed.

Lemma headerCells_elem (fields : list FieldDefinition) (k : string) (v : sqlval) :
  (k, v) ∈ headerCells fields ↔
  ∃ c field, fields !! c = Some field
             ∧ k = excelColumnName (Z.of_nat c) +:+ "1"
             ∧ v = SText (exportHeader field).
Proof.
  unfold headerCells. rewrite elem_of_lookup_imap. split.
  - intros (c & field & [= -> ->] & Hc). by exists c, field.
  - intros (c & field & Hc & -> & ->). by exists c, field.
Qed.

Lemma elem_of_concat {A} (x : A) (ls : list (list A)) :
  x ∈ concat ls ↔ ∃ l, l ∈ ls ∧ x ∈ l.
Proof.
  induction ls as [|l ls IH]; simpl.
  - split; [by intros ?%elem_of_nil|]. by intros (l & ?%elem_of_nil & _).
  - rewrite elem_of_app, IH. split.
    + intros [Hx|(l' & Hl' & Hx)]; [exists l; split; [by left|done]|].
      exists l'. split; [by right|done].
    + intros (l' & [->|Hl']%elem_of_cons & Hx); [by left|]. right. by exists l'.
Qed.

Lemma dataCells_elem (fields : list FieldDefinition) (rows : list Row)
    (k : string) (v : sqlval) :
  (k, v) ∈ dataCells fields rows ↔
  ∃ r row c field, rows !! r = Some row ∧ fields !! c = Some field
                   ∧ k = excelColumnName (Z.of_nat c) +:+ itoa (Z.of_nat r + 2)
                   ∧ v = cell row (Name field).
Proof.
  unfold dataCells. rewrite elem_of_concat. split.
  - intros (l & Hl & Hin). apply elem_of_lookup_imap in Hl as (r & row & -> & Hr).
    apply elem_of_lookup_imap in Hin as (c & field & [= -> ->] & Hc).
    by exists r, row, c, field.
  - intros (r & row & c & field & Hr & Hc & -> & ->).
    eexists. split.
    + apply elem_of_lookup_imap. by exists r, row.
    + apply elem_of_lookup_imap. by exists c, field.
Qed.

End SheetFacts.

(** X24. In the exported sheet every value has a cell of its own: the
    header of the c-th catalogued field (its first label, or its name when
    it has none) is in row 1 of the c-th column, and the value of that
    field in the r-th exported row is in row r+2 of that column; no write
    replaces another. *)
Theorem X24_sheet_cells `{G : GoLib} `{E : SqlEngine}
    (fields : list FieldDefinition) (rows : list Row) :
  (∀ c field, fields !! c = Some field →
     sheetOf fields rows !! (excelColumnName (Z.of_nat c) +:+ "1")
     = Some (SText (exportHeader field)))
  ∧ (∀ r row c field, rows !! r = Some row → fields !! c = Some field →
       sheetOf fields rows !! (excelColumnName (Z.of_nat c) +:+ itoa (Z.of_nat r + 2))
       = Some (cell row (Name field))).
Proof.
  split.
  - intros c field Hc. apply written_lookup.
    + apply elem_of_app. left. apply headerCells_elem. by exists c, field.
    + intros v' [Hin|Hin]%elem_of_app.
      * apply headerCells_elem in Hin as (c' & field' & Hc' & Hk & ->).
        apply (cell_name_inj _ _ 1 1) in Hk as [Hcc _]; try lia.
        apply Nat2Z.inj in Hcc. subst c'. congruence.
      * apply dataCells_elem in Hin as (r' & row' & c' & field' & _ & _ & Hk & _).
        apply (cell_name_inj _ _ 1 (Z.of_nat r' + 2)) in Hk as [_ Hrr]; lia.
  - intros r row c field Hr Hc. apply written_lookup.
    + apply elem_of_app. right. apply dataCells_elem. by exists r, row, c, field.
    + intros v' [Hin|Hin]%elem_of_app.
      * apply headerCells_elem in Hin as (c' & field' & _ & Hk & _).
        apply (cell_name_inj _ _ (Z.of_nat r + 2) 1) in Hk as [_ Hrr]; lia.
      * apply dataCells_elem in Hin as (r' & row' & c' & field' & Hr' & Hc' & Hk & ->).
        apply cell_name_inj in Hk as [Hcc Hrr]; try lia.
        apply Nat2Z.inj in Hcc. assert (r' = r) as -> by lia. subst c'. congruence.
Qed.

(** ** The rows after a rebuild, and the summary *)

Section RebuildTypes.
Context `{G : GoLib} `{E : SqlEngine}.

Lemma find_textColumn (keep : list string) (tail : list Column) (c : string) :
  c ∈ keep →
  find (λ col, String.eqb (col_name col) c) (map textColumn keep ++ tail)
  = Some (textColumn c).
Proof.
  induction keep as [|k keep IH]; [by intros ?%elem_of_nil|].
  intros Hin. simpl. destruct (String.eqb_spec k c) as [->|Hne]; [done|].
  apply IH. apply elem_of_cons in Hin as [->|?]; done.
Qed.

Lemma kept_not_id (table : string) (columns : list string) (db : DB) (c : string) :
  c ∈ kept table columns db → c ≠ "id".
Proof.
  unfold kept, physicalColumns.
  intros [_ [Hk _]%list_elem_of_filter]%list_elem_of_filter ->. done.
Qed.

End RebuildTypes.

(** X25. [DropColumns] on a table with the three housekeeping columns and
    distinct keys, when a named column exists and the temporary name is
    free: it succeeds; the table has the same rows under the same keys; a
    dropped column is gone from every row; every surviving column is now
    declared TEXT and holds what a TEXT column makes of the old value, an
    integer becoming its decimal text; no other table is touched. *)
Theorem X25_DropColumns_rows `{G : GoLib} `{E : SqlEngine}
    (now : Z) (table : string) (columns : list string) (db : DB) (t : Table) :
  tables db !! table = Some t →
  managed t →
  tables db !! (table +:+ "_tmp_" +:+ itoa now) = None →
  length (kept table columns db) ≠ length (physicalColumns table db) →
  ∃ db' t',
    DropColumns now table columns db = (db', Ok tt)
    ∧ tables db' !! table = Some t'
    ∧ map row_id (t_rows t') = map row_id (t_rows t)
    ∧ Forall2 (λ (r r' : Row),
         ∀ c, housekeeping c = false →
              (c ∈ columns → r' !! c = None)
              ∧ (c ∈ physicalColumns table db → c ∉ columns →
                 cell r' c = apply_affinity AffText (cell r c)))
        (t_rows t) (t_rows t')
    ∧ (∀ c, c ∈ kept table columns db → declaredType table c db' = Some "TEXT")
    ∧ (∀ z, apply_affinity AffText (SInt z) = SText (itoa z))
    ∧ ∀ other, other ≠ table → tables db' !! other = tables db !! other.
Proof.
  intros Ht Hm Htmp Hlen.
  destruct (DropColumns_surviving_values now table columns db t Ht Hm Htmp Hlen)
    as (db' & t' & Hrun & Ht' & Hids & Hrows).
  destruct (DropColumns_rebuilds now table columns db t Ht Hm Htmp Hlen)
    as (db2 & seq & Hrun2 & Htables).
  rewrite Hrun in Hrun2. injection Hrun2 as <-.
  exists db', t'. split; [done|]. split; [done|]. split; [done|]. split; [done|].
  split; [|split; [done|]].
  - intros c Hc.
    assert (find (λ col, String.eqb (col_name col) c)
              (rebuildColumns (kept table columns db)) = Some (textColumn c)) as Hfind.
    { unfold rebuildColumns.
      change ([idColumn] ++ ?l) with (idColumn :: l). cbn [find].
      change (col_name idColumn) with "id".
      destruct (String.eqb_spec "id" c) as [<-|_].
      - exfalso. by apply (kept_not_id _ _ _ _ Hc).
      - by apply find_textColumn. }
    unfold declaredType. rewrite Htables, lookup_insert_eq.
    cbn [mbind option_bind t_columns]. by rewrite Hfind.
  - intros other Hne. rewrite Htables. by rewrite lookup_insert_ne.
Qed.

Section SummaryFacts.
Context `{G : GoLib} `{E : SqlEngine}.

(** The scan keeps one number for each value that is not null. *)
Lemma scanColumn_length (vs : list sqlval) (nums : list float64) :
  scanColumn vs = Ok nums →
  length nums = length (filter (λ v, is_null v = false) vs).
Proof.
  revert nums. induction vs as [|v vs IH]; intros nums; simpl.
  { by intros [= <-]. }
  rewrite filter_cons.
  destruct (scanNullFloat v) as [o|] eqn:Hv; [|done].
  destruct (scanColumn vs) as [rest|]; [|done].
  intros [= <-]. specialize (IH rest eq_refl).
  destruct v; simpl in *.
  - injection Hv as <-. done.
  - injection Hv as <-. simpl. by rewrite IH.
  - injection Hv as <-. simpl. by rewrite IH.
  - destruct (ParseFloat s); [|done]. injection Hv as <-. simpl. by rewrite IH.
Qed.

Lemma filter_cells (column : string) (rows : list Row) :
  length (filter (λ v, is_null v = false) (map (λ r : Row, cell r column) rows))
  = length (filter (λ r : Row, is_null (cell r column) = false) rows).
Proof.
  induction rows as [|r rows IH]; [done|]. simpl. rewrite !filter_cons.
  destruct (decide (is_null (cell r column) = false)); simpl; by rewrite IH.
Qed.

(** A running choice between the value so far and the next one ends on
    the start value or on one of the list. *)
Lemma foldl_choice {A} (f : A → A → A) (a : A) (l : list A) :
  (∀ m n, f m n = m ∨ f m n = n) → foldl f a l ∈ a :: l.
Proof.
  intros Hf. revert a. induction l as [|x l IH]; intros a; simpl; [by left|].
  destruct (Hf a x) as [-> | ->].
  - specialize (IH a). apply elem_of_cons in IH as [->|?]; [by left|].
    right. by right.
  - right. apply IH.
Qed.

End SummaryFacts.

(** X26. [Summary] only reads.  When it succeeds the table exists and
    every value of the column scans; count is the number of rows whose
    value is not null.  With no such row the result is count zero alone;
    otherwise it holds count, the sum of the values from left to right,
    the average as sum over count, a min and a max that are values of
    the column, and std. *)
Theorem X26_Summary_statistics `{G : GoLib} `{E : SqlEngine}
    (table column : string) (db : DB) (m : gmap string float64) :
  (Summary table column db).2 = Ok m →
  sameData (Summary table column db).1 db
  ∧ ∃ t nums,
      tables db !! table = Some t
      ∧ scanColumn (map (λ r : Row, cell r column) (t_rows t)) = Ok nums
      ∧ length nums
        = length (filter (λ r : Row, is_null (cell r column) = false) (t_rows t))
      ∧ match nums with
        | [] => m = {[ "count" := Float64.zero ]}
        | _ :: _ =>
            let count := Float64.ofInt (Z.of_nat (length nums)) in
            let sum := foldl Float64.add Float64.zero nums in
            m !! "count" = Some count
            ∧ m !! "sum" = Some sum
            ∧ m !! "average" = Some (Float64.div sum count)
            ∧ (∃ lo, m !! "min" = Some lo ∧ lo ∈ nums)
            ∧ (∃ hi, m !! "max" = Some hi ∧ hi ∈ nums)
            ∧ is_Some (m !! "std")
        end.
Proof.
  destruct (Summary table column db) as [db' r] eqn:Hrun. simpl. intros ->.
  revert Hrun. unfold Summary, bind. rewrite listColumns_run.
  destruct (String.eqb _ ""); [done|].
  destruct (negb _); [done|].
  unfold Query_. cbn [tables logged with_trace].
  destruct (tables db !! table) as [t|] eqn:Ht; [|done].
  destruct (slices_Contains (column_names t) column); [|done].
  destruct (scanColumn _) as [nums|] eqn:Hscan; [|done].
  assert (length nums
          = length (filter (λ r : Row, is_null (cell r column) = false) (t_rows t)))
    as Hlen.
  { rewrite (scanColumn_length _ _ Hscan). apply filter_cells. }
  destruct nums as [|first rest].
  - intros [= <- <-]. split; [done|]. by exists t, [].
  - intros [= <- <-]. split; [done|]. exists t, (first :: rest).
    split; [done|]. split; [done|]. split; [done|].
    unfold statistics. cbv zeta.
    split; [by rewrite lookup_insert_eq|].
    split; [rewrite lookup_insert_ne by done; by rewrite lookup_insert_eq|].
    split; [rewrite !lookup_insert_ne by done; by rewrite lookup_insert_eq|].
    split; [|split].
    + eexists. split.
      * rewrite !lookup_insert_ne by done. by rewrite lookup_insert_eq.
      * pose proof (foldl_choice (λ m n, if Float64.ltb n m then n else m)
                      first (first :: rest)) as Hin.
        apply elem_of_cons in Hin as [->|?]; [by left|done|].
        intros a b. destruct (Float64.ltb b a); [by right|by left].
    + eexists. split.
      * rewrite !lookup_insert_ne by done. by rewrite lookup_insert_eq.
      * pose proof (foldl_choice (λ m n, if Float64.ltb m n then n else m)
                      first (first :: rest)) as Hin.
        apply elem_of_cons in Hin as [->|?]; [by left|done|].
        intros a b. destruct (Float64.ltb a b); [by right|by left].
    + rewrite !lookup_insert_ne by done. rewrite lookup_insert_eq. by eexists.
Qed.

Section X25_at_inputs.
#[local] Existing Instance Concrete.asciiLib.
#[local] Existing Instance Concrete.asciiEngine.
Import Concrete.

Lemma X25_DropColumns_rows_witness :
  ∃ t db' t',
    tables clinic !! "patients" = Some t
    ∧ DropColumns 1714550400 "patients" ["note"] clinic = (db', Ok tt)
    ∧ tables db' !! "patients" = Some t'
    ∧ map row_id (t_rows t') = map row_id (t_rows t)
    ∧ ∀ c, c ∈ kept "patients" ["note"] clinic →
           declaredType "patients" c db' = Some "TEXT".
Proof.
  destruct clinic_patients_managed as (t & Ht & Hm & Htmp & Hlen).
  destruct (X25_DropColumns_rows 1714550400 "patients" ["note"] clinic t
              Ht Hm Htmp Hlen)
    as (db' & t' & Hrun & Ht' & Hids & _ & Htypes & _).
  exists t, db', t'. exact (conj Ht (conj Hrun (conj Ht' (conj Hids Htypes)))).
Defined.

Lemma X26_Summary_statistics_witness :
  ∃ m t nums,
    (Summary "patients" "age" clinic).2 = Ok m
    ∧ tables clinic !! "patients" = Some t
    ∧ scanColumn (map (λ r : Row, cell r "age") (t_rows t)) = Ok nums
    ∧ length nums
      = length (filter (λ r : Row, is_null (cell r "age") = false) (t_rows t))
    ∧ m !! "count" = Some (Float64.ofInt 2).
Proof.
  assert (∃ m, (Summary "patients" "age" clinic).2 = Ok m
               ∧ m !! "count" = Some (Float64.ofInt 2)) as (m & Hm & Hcount).
  { eexists. split; vm_compute; reflexivity. }
  destruct (X26_Summary_statistics "patients" "age" clinic m Hm)
    as (_ & t & nums & Ht & Hscan & Hlen & _).
  exists m, t, nums. exact (conj Hm (conj Ht (conj Hscan (conj Hlen Hcount)))).
Defined.

End X25_at_inputs.

(** ** Export and import together *)


Section X27_at_inputs.
#[local] Existing Instance Concrete.asciiLib.
#[local] Existing Instance Concrete.asciiEngine.
Import Concrete.


End X27_at_inputs.

